(** * Arc-line tilt tracing (pypeit/wavetilts.py): a shallow embedding

    The class [WaveTilts] of [pypeit/wavetilts.py] is embedded method by
    method.  Floating point numbers are exact rationals ([Q]) where the
    code compares and copies them; where it computes values that depend on
    the rounding (the ramp of the method "zero") the computation is done in
    binary64 and the result taken as a rational.  A numpy
    vector is a [list], a two-dimensional image a list of rows; a Python
    exception is a value of [exn]; the instance [self] is a record that the
    methods thread explicitly, also through an exception.  Functions of
    other modules ([arc], [tracewave], [trace_slits], [pixels], [ginga],
    the spectrograph) are collaborators, gathered in one record of which
    nothing is assumed. *)

From Stdlib Require Import String Ascii DecimalString DecimalNat.
From Stdlib Require Import List ZArith QArith Qabs Qround Qminmax Bool Lia.
From Stdlib Require Import SpecFloat.
Import ListNotations.

Set Implicit Arguments.

(** ** Python values, exceptions and results *)

Inductive exn : Type :=
| ValueError
| TypeError
| IndexError
| KeyError
| NameError
| AttributeError
| OSError
| PypeItError            (* what [msgs.error] raises *)
| Foreign (tag : string) (* raised inside a collaborator *).

(** The result of an expression that may raise. *)
Inductive res (A : Type) : Type :=
| Ok (a : A)
| Raise (e : exn).
Arguments Ok {A} a.
Arguments Raise {A} e.

Definition rbind {A B} (r : res A) (k : A -> res B) : res B :=
  match r with
  | Ok a => k a
  | Raise e => Raise e
  end.

Declare Scope res_scope.
Delimit Scope res_scope with res.
Notation "'let!' x ':=' r 'in' k" := (rbind r (fun x => k))
  (at level 10, x pattern, r at level 100, k at level 200) : res_scope.

(** A [for] loop whose body may raise. *)
Fixpoint rfold {A B} (body : A -> B -> res A) (xs : list B) (a : A) : res A :=
  match xs with
  | [] => Ok a
  | x :: xs' => rbind (body a x) (rfold body xs')
  end.

(** ** numpy vectors *)

Section Vectors.
Context {A : Type}.

(** [a[m]] for a boolean mask [m] of the length of [a]. *)
Fixpoint bool_index (a : list A) (m : list bool) : list A :=
  match a, m with
  | x :: a', b :: m' => if b then x :: bool_index a' m' else bool_index a' m'
  | _, _ => []
  end.

(** [a[i] = v] for an index within the vector. *)
Fixpoint set_at (a : list A) (i : nat) (v : A) : list A :=
  match a, i with
  | [], _ => []
  | _ :: a', O => v :: a'
  | x :: a', S i' => x :: set_at a' i' v
  end.

(** [a[i]] with Python's index rule: negative indices count from the end,
    anything else outside the vector raises [IndexError]. *)
Definition py_index (a : list A) (i : Z) : res A :=
  let n := Z.of_nat (length a) in
  let j := if (i <? 0)%Z then (i + n)%Z else i in
  if ((0 <=? j) && (j <? n))%Z%bool
  then match nth_error a (Z.to_nat j) with
       | Some x => Ok x
       | None => Raise IndexError
       end
  else Raise IndexError.

(** Bounds of the slice [lo:hi] of a vector of length [n], after Python's
    normalisation; [None] is an omitted bound. *)
Definition slice_bound (n : nat) (i : Z) : nat :=
  if (i <? 0)%Z then Z.to_nat (Z.max 0 (i + Z.of_nat n))
  else Z.to_nat (Z.min i (Z.of_nat n)).

Definition slice_start (n : nat) (lo : option Z) : nat :=
  match lo with None => 0%nat | Some i => slice_bound n i end.

Definition slice_stop (n : nat) (hi : option Z) : nat :=
  match hi with None => n | Some i => slice_bound n i end.

(** [a[lo:hi]] *)
Definition slice (a : list A) (lo hi : option Z) : list A :=
  let b := slice_start (length a) lo in
  let e := slice_stop (length a) hi in
  firstn (e - b) (skipn b a).

(** [a[lo:hi] = v] for a scalar [v]. *)
Definition fill_slice (a : list A) (lo hi : option Z) (v : A) : list A :=
  let b := slice_start (length a) lo in
  let e := slice_stop (length a) hi in
  firstn b a ++ repeat v (e - b) ++ skipn (b + (e - b)) a.

(** [a[lo:hi] = vs] for a vector [vs]: the lengths agree, or [vs] has one
    element that is broadcast; otherwise numpy raises [ValueError]. *)
Definition assign_slice (a : list A) (lo hi : option Z) (vs : list A) : res (list A) :=
  let b := slice_start (length a) lo in
  let e := slice_stop (length a) hi in
  if (length vs =? e - b)%nat
  then Ok (firstn b a ++ vs ++ skipn (b + (e - b)) a)
  else match vs with
       | [v] => Ok (fill_slice a lo hi v)
       | _ => Raise ValueError
       end.
End Vectors.

Local Open Scope Q_scope.

(** [a >= b] and [a > b] on numbers. *)
Definition Qgeb (a b : Q) : bool := Qle_bool b a.
Definition Qgtb (a b : Q) : bool := negb (Qle_bool a b).

(** [np.min] of a vector; it raises on an empty one. *)
Definition np_min (l : list Q) : res Q :=
  match l with
  | [] => Raise ValueError
  | x :: r => Ok (fold_left Qmin r x)
  end.

(** [np.max] of a vector; it raises on an empty one. *)
Definition np_max (l : list Q) : res Q :=
  match l with
  | [] => Raise ValueError
  | x :: r => Ok (fold_left Qmax r x)
  end.

(** [np.sum] of a boolean vector. *)
Definition np_sum_bool (m : list bool) : nat := length (filter (fun b => b) m).

(** [np.arange(n)] as indices. *)
Definition arange (n : nat) : list nat := seq 0 n.

(** ** Line selection: [_trace_tilts], lines 320-346

    The block works on the positions [arcdet] and the significances [nsig]
    of the detected peaks, both obtained by indexing with the same [wgood]
    and so of one length.  [tracethresh], [n_neigh] and [only_these_lines]
    are the local variables of these names. *)

Module LineSelector.
Section Select.
Variables (arcdet nsig : list Q).
Variables (tracethresh n_neigh : Q).

(** [aduse = zeros(arcdet.size); aduse[where(nsig >= tracethresh)] = 1] *)
Definition aduse_init : list bool := map (fun v => Qgeb v tracethresh) nsig.

(** [where((abs(arcdet - c) <= n_neigh) & (abs(arcdet - c) >= 1.0))[0]] *)
Definition near (c : Q) : list nat :=
  filter (fun j => let d := Qabs (nth j arcdet 0 - c) in
                   Qle_bool d n_neigh && Qgeb d 1)
         (arange (length arcdet)).

(** The inner loop over [w]: it stops at the first [u] with
    [nsig[w[u]] > ref], so it fires exactly when there is one. *)
Definition brighter (w : list nat) (ref : Q) : bool :=
  existsb (fun j => Qgtb (nth j nsig 0) ref) w.

(** One turn of [for s in range(nuse)]. *)
Definition suppress_step (olduse aduse : list bool) (s : nat) : list bool :=
  let detuse := bool_index arcdet olduse in
  let idxuse := bool_index (arange (length arcdet)) olduse in
  let w := near (nth s detuse 0) in
  if brighter w (nth s (bool_index nsig olduse) 0)
  then set_at aduse (nth s idxuse 0%nat) false
  else aduse.

(** Lines 321-334. *)
Definition suppress_neighbours : list bool :=
  let aduse := aduse_init in
  let nuse := np_sum_bool aduse in
  fold_left (suppress_step aduse) (arange nuse) aduse.

(** Whether the peak [i] has a brighter neighbour: what the inner loop
    finds when [s] is the position of [i] among the candidates. *)
Definition outshone (i : nat) : bool :=
  brighter (near (nth i arcdet 0)) (nth i nsig 0).

(** Whether the peak [s] is farther than 2.0 from every position of
    [ids_pix]: the test of line 341. *)
Definition unidentified (ids_pix : list Q) (s : nat) : bool :=
  match np_min (map (fun p => Qabs (nth s arcdet 0 - p)) ids_pix) with
  | Ok m => Qgtb m 2
  | Raise _ => false
  end.

(** One turn of [for s in idxuse] of lines 340-343. *)
Definition restrict_step (ids_pix : list Q) (aduse : list bool) (s : nat)
  : res (list bool) :=
  (let! m := np_min (map (fun p => Qabs (nth s arcdet 0 - p)) ids_pix) in
   if Qgtb m 2 then Ok (set_at aduse s false) else Ok aduse)%res.

(** Lines 337-343. *)
Definition restrict_to_ids (only_these_lines : option (list Q)) (aduse : list bool)
  : res (list bool) :=
  match only_these_lines with
  | None => Ok aduse
  | Some ids_pix =>
      let idxuse := bool_index (arange (length arcdet)) aduse in
      rfold (restrict_step ids_pix) idxuse aduse
  end.

(** Lines 320-343: the usability vector [aduse]. *)
Definition select_lines (only_these_lines : option (list Q)) : res (list bool) :=
  restrict_to_ids only_these_lines suppress_neighbours.
End Select.

(** [aduse[i] = False] when [flag i]: the effect of one turn of either
    loop on the vector. *)
Definition clear_flagged (flag : nat -> bool) (aduse : list bool) (i : nat) : list bool :=
  if flag i then set_at aduse i false else aduse.
End LineSelector.

(** ** Images *)

(** A two-dimensional array is the list of its rows; [shape[0]] is the
    number of rows, [shape[1]] the length of a row. *)
Definition image (A : Type) : Type := list (list A).

Definition shape0 {A} (img : image A) : nat := length img.

Definition shape1 {A} (img : image A) : nat :=
  match img with
  | [] => 0%nat
  | row :: _ => length row
  end.

(** [img[:, j]] *)
Definition column {A} (img : image A) (j : Z) : res (list A) :=
  rfold (fun acc row => (let! x := py_index row j in Ok (acc ++ [x]))%res) img [].

(** [img.T] *)
Definition transpose {A} (img : image A) : image A :=
  map (fun j => flat_map (fun row => match nth_error row j with
                                     | Some x => [x]
                                     | None => []
                                     end) img)
      (arange (shape1 img)).

(** [np.zeros_like(img)] *)
Definition zeros_like (img : image Q) : image Q := map (map (fun _ => 0)) img.

(** ** Double precision

    numpy works in IEEE 754 binary64: the numbers of the library's
    specification of binary floating point at precision 53 with the
    exponents up to 1024, rounded to the nearest, ties to even. *)

Definition f64_of_Z (z : Z) : spec_float := binary_normalize 53 1024 z 0 false.
Definition f64_add : spec_float -> spec_float -> spec_float := SFadd 53 1024.
Definition f64_sub : spec_float -> spec_float -> spec_float := SFsub 53 1024.
Definition f64_mul : spec_float -> spec_float -> spec_float := SFmul 53 1024.
Definition f64_div : spec_float -> spec_float -> spec_float := SFdiv 53 1024.

(** The value of a finite double.  The infinities and NaN have no value
    among the rationals and are given as 0. *)
Definition Q_of_f64 (x : spec_float) : Q :=
  match x with
  | S754_finite s m e =>
      let sm := if s then Z.neg m else Z.pos m in
      if (0 <=? e)%Z then inject_Z (sm * 2 ^ e) else Qmake sm (Z.to_pos (2 ^ (- e)))
  | _ => 0
  end.

(** [np.linspace(start, stop, num)] as numpy computes it:
    [arange(num) * step + start] with [step = (stop - start) / (num - 1)],
    every operation rounded; a step that underflows to zero is avoided by
    dividing first; without a second sample the step is undefined and the
    samples are multiplied with [stop - start]; the last of two or more
    samples is set to [stop]. *)
Definition linspace (start stop : spec_float) (num : nat) : list spec_float :=
  let start := f64_mul start (f64_of_Z 1) in
  let stop := f64_mul stop (f64_of_Z 1) in
  let delta := f64_sub stop start in
  let y := map (fun i => f64_of_Z (Z.of_nat i)) (arange num) in
  let y :=
    if (0 <? num - 1)%nat then
      let div := f64_of_Z (Z.of_nat (num - 1)) in
      let step := f64_div delta div in
      if SFeqb step (f64_of_Z 0)
      then map (fun v => f64_mul (f64_div v div) delta) y
      else map (fun v => f64_mul v step) y
    else map (fun v => f64_mul v delta) y in
  let y := map (fun v => f64_add v start) y in
  if (1 <? num)%nat then set_at y (num - 1) stop else y.

(** [np.outer(a, b)] *)
Definition outer (a b : list spec_float) : image spec_float :=
  map (fun x => map (fun y => f64_mul x y) b) a.

(** [np.ones(n)] *)
Definition ones (n : nat) : list spec_float := repeat (f64_of_Z 1) n.

(** The numbers of an array of doubles. *)
Definition values (img : image spec_float) : image Q := map (map Q_of_f64) img.


(** Elementwise [f] on two vectors, with numpy's broadcasting of a vector
    of one element. *)
Definition broadcast2 (f : Q -> Q -> Q) (a b : list Q) : res (list Q) :=
  if (length a =? length b)%nat then Ok (map (fun p => f (fst p) (snd p)) (combine a b))
  else match a, b with
       | [x], _ => Ok (map (f x) b)
       | _, [y] => Ok (map (fun x => f x y) a)
       | _, _ => Raise ValueError
       end.

(** [int(x)]: truncation towards zero. *)
Definition py_int (x : Q) : Z := if Qle_bool 0 x then Qfloor x else Qceiling x.

(** [np.round(x)]: to the nearest integer, a half to the even one. *)
Definition np_round (x : Q) : Z :=
  let f := Qfloor x in
  let r := x - inject_Z f in
  if Qgtb (1 # 2) r then f
  else if Qgtb r (1 # 2) then (f + 1)%Z
  else if Z.even f then f else (f + 1)%Z.

(** [np.interp(x, np.arange(len(fp)), fp)] for a non-empty [fp]: linear
    between the samples, constant outside. *)
Definition np_interp_arange (fp : list Q) (x : Q) : Q :=
  let n := length fp in
  if Qle_bool x 0 then nth 0 fp 0
  else if Qle_bool (inject_Z (Z.of_nat (n - 1))) x then nth (n - 1) fp 0
  else let i := Z.to_nat (Qfloor x) in
       let slope := nth (S i) fp 0 - nth i fp 0 in
       slope * (x - inject_Z (Z.of_nat i)) + nth i fp 0.

(** ** Line tracing: [_trace_tilts], lines 355-409 *)

Module LineTracer.

(** The column [iline] of the six arrays that the loop fills. *)
Record columns : Type := {
  tilts_sub : list Q;
  tilts_sub_err : list Q;
  tilts_sub_mask : list bool;
  tilts : list Q;
  tilts_err : list Q;
  tilts_mask : list bool
}.

(** Lines 364-372 for one line: all zero, all false. *)
Definition columns_init (nsub nspat : nat) : columns :=
  {| tilts_sub := repeat 0 nsub; tilts_sub_err := repeat 0 nsub;
     tilts_sub_mask := repeat false nsub;
     tilts := repeat 0 nspat; tilts_err := repeat 0 nspat;
     tilts_mask := repeat false nspat |}.

(** [np.fmax(spat_min, 0)] and [np.fmin(spat_max, nspat-1)], the bounds
    of the rows cut out of the transposed image. *)
Definition row_lo (spat_min : Z) : Z := Z.max spat_min 0.
Definition row_hi (nspat : nat) (spat_max : Z) : Z := Z.min spat_max (Z.of_nat nspat - 1).

(** The three assignments into the sub-window and the three into the
    full columns; [lo], [hi] delimit the slice of the sub-window. *)
Definition store (nspat : nat) (spat_min spat_max : Z) (lo hi : option Z)
           (tilts_now err_now : list Q) (c : columns) : res columns :=
  (let! sub := assign_slice (tilts_sub c) lo hi tilts_now in
   let! sub_err := assign_slice (tilts_sub_err c) lo hi err_now in
   let sub_mask := fill_slice (tilts_sub_mask c) lo hi true in
   let a := Some (row_lo spat_min) in
   let b := Some (row_hi nspat spat_max) in
   let! t := assign_slice (tilts c) a b (slice sub lo hi) in
   let! t_err := assign_slice (tilts_err c) a b (slice sub_err lo hi) in
   let! t_mask := assign_slice (tilts_mask c) a b (slice sub_mask lo hi) in
   Ok {| tilts_sub := sub; tilts_sub_err := sub_err; tilts_sub_mask := sub_mask;
         tilts := t; tilts_err := t_err; tilts_mask := t_mask |})%res.

(** Lines 390-409: "Deal with possibly falling off the chip". *)
Definition record_trace (nspat nsub : nat) (spat_min spat_max : Z)
           (tilts_now err_now : list Q) : res columns :=
  let c := columns_init nsub nspat in
  if (spat_min <? 0)%Z then
    store nspat spat_min spat_max (Some (- spat_min)%Z) None tilts_now err_now c
  else if (spat_max >? Z.of_nat nspat - 1)%Z then
    store nspat spat_min spat_max None (Some (- (spat_max - Z.of_nat nspat + 1))%Z)
          tilts_now err_now c
  else
    store nspat spat_min spat_max None None tilts_now err_now c.

(** Lines 356-359: the half width of the window and its size. *)
Definition trace_int_of (slit_left slit_righ : list Q) : res Z :=
  (let! width := broadcast2 Qminus slit_righ slit_left in
   let! wmax := np_max width in
   let slit_widp2 := py_int (inject_Z (Qceiling wmax) + 2) in
   let trace_int_even :=
     if (slit_widp2 mod 2 =? 0)%Z then slit_widp2 else (slit_widp2 + 1)%Z in
   Ok (trace_int_even / 2)%Z)%res.

Definition nsub_of (trace_int : Z) : Z := (2 * trace_int + 1)%Z.

(** Lines 382-383. *)
Definition spat_min_of (lines_spat_int trace_int : Z) : Z := (lines_spat_int - trace_int)%Z.
Definition spat_max_of (lines_spat_int trace_int : Z) : Z := (lines_spat_int + trace_int + 1)%Z.
End LineTracer.

(** ** The per-slit diagnostic extension: [save_master], lines 586-616,
    and [from_master_files], lines 144-166 *)

Module TraceStateCodec.

(** The dictionary of one slit held in [all_trcdict].  An entry of
    [xtfit] or [ytfit] may be [None]. *)
Record trcdict : Type := {
  xtfit : list (option (list Q));
  ytfit : list (option (list Q));
  xmodel : list (list Q);
  ymodel : list (list Q);
  ycen : list Q;
  aduse : list bool
}.

(** The value every cell of [fwm_img] starts with:
    [np.zeros(...) - 9999999.9]. *)
Definition sentinel : Q := -9999999.9.

(** [fwm_img[:, kk, :]]: the four channels of the line [kk], each a
    vector over the rows.  The array [fwm_img] of shape
    [(maxx+1, len(xtfits), 4)] is the list of these over [kk]. *)
Record fwm_line : Type := {
  ch0 : list Q;
  ch1 : list Q;
  ch2 : list Q;
  ch3 : list Q
}.

Definition fwm_img : Type := list fwm_line.

Definition fwm_blank (rows : nat) : fwm_line :=
  {| ch0 := repeat sentinel rows; ch1 := repeat sentinel rows;
     ch2 := repeat sentinel rows; ch3 := repeat sentinel rows |}.

(** [xszs], line 592. *)
Definition xszs (xtfits : list (option (list Q))) : list nat :=
  map (fun x => match x with Some xs => length xs | None => 0%nat end) xtfits.

Definition np_max_nat (l : list nat) : res nat :=
  match l with
  | [] => Raise ValueError
  | x :: r => Ok (fold_left Nat.max r x)
  end.

(** [all_ttilts[slit][1][int(xgd), kk]], lines 611-612;
    [all_ttilts_slit] is the expression [self.all_ttilts[slit]], which is
    evaluated here and may raise. *)
Definition ycen_of (all_ttilts_slit : res (list (image Q))) (xtfit_kk : list Q) (kk : nat)
  : res Q :=
  (let! xgd := py_index xtfit_kk (Z.of_nat (length xtfit_kk) / 2)%Z in
   let! tup := all_ttilts_slit in
   let! t1 := py_index tup 1%Z in
   let! row := py_index t1 (py_int xgd) in
   py_index row (Z.of_nat kk))%res.

(** One turn of the loop of line 598; [model_cnt] is threaded. *)
Definition pack_line (d : trcdict) (all_ttilts_slit : res (list (image Q))) (maxx : nat)
           (kk model_cnt : nat) (xtfit_kk : option (list Q)) : res (fwm_line * nat) :=
  let blank := fwm_blank (S maxx) in
  match xtfit_kk with
  | None => Ok (blank, model_cnt)
  | Some xs =>
      let n := Some (Z.of_nat (length xs)) in
      (let! c0 := assign_slice (ch0 blank) (Some 0%Z) n xs in
       let! yt := py_index (ytfit d) (Z.of_nat kk) in
       let! ys := match yt with Some ys => Ok ys | None => Raise TypeError end in
       let! c1 := assign_slice (ch1 blank) (Some 0%Z) n ys in
       let! use := py_index (aduse d) (Z.of_nat kk) in
       if use : bool then
         let! xm := py_index (xmodel d) (Z.of_nat model_cnt) in
         let szmod := Some (Z.of_nat (length xm)) in
         let! c2 := assign_slice (ch2 blank) (Some 0%Z) szmod xm in
         let! ym := py_index (ymodel d) (Z.of_nat model_cnt) in
         let! c3 := assign_slice (ch3 blank) (Some 0%Z) szmod ym in
         let! y := ycen_of all_ttilts_slit xs kk in
         Ok ({| ch0 := c0; ch1 := set_at c1 maxx y; ch2 := c2; ch3 := c3 |},
             S model_cnt)
       else
         Ok ({| ch0 := c0; ch1 := c1; ch2 := ch2 blank; ch3 := ch3 blank |},
             model_cnt))%res
  end.

(** The loop of line 598 from the line [kk] on. *)
Fixpoint pack_lines (d : trcdict) (all_ttilts_slit : res (list (image Q))) (maxx : nat)
         (kk model_cnt : nat) (xtfits : list (option (list Q))) : res fwm_img :=
  match xtfits with
  | [] => Ok []
  | x :: rest =>
      (let! lc := pack_line d all_ttilts_slit maxx kk model_cnt x in
       let! ls := pack_lines d all_ttilts_slit maxx (S kk) (snd lc) rest in
       Ok (fst lc :: ls))%res
  end.

(** Lines 591-613: the array written for one slit. *)
Definition pack (d : trcdict) (all_ttilts_slit : res (list (image Q))) : res fwm_img :=
  (let! maxx := np_max_nat (xszs (xtfit d)) in
   pack_lines d all_ttilts_slit maxx 0 0 (xtfit d))%res.

(** The raw trace of a line, empty for [None], and the array padded to
    [rows] rows as the loop of line 598 leaves it in channel 0. *)
Definition raw_of (x : option (list Q)) : list Q :=
  match x with
  | Some xs => xs
  | None => []
  end.

Definition padded (rows : nat) (v : list Q) : list Q :=
  v ++ repeat sentinel (rows - length v).

(** What the turn [kk] of the loop of line 598 leaves of a line [x] in
    an array of [maxx + 1] rows: the padded raw trace in channel 0, and
    in the last row of channel 1 the [ycen] of a line in use, the
    sentinel for a line not in use. *)
Definition line_packed (d : trcdict) (all_ttilts_slit : res (list (image Q))) (maxx kk : nat)
           (x : option (list Q)) (l : fwm_line) : Prop :=
  ch0 l = padded (S maxx) (raw_of x)
  /\ length (ch1 l) = S maxx
  /\ (forall xs y, x = Some xs -> nth_error (aduse d) kk = Some true ->
                   ycen_of all_ttilts_slit xs kk = Ok y -> nth maxx (ch1 l) 0 = y)
  /\ (forall xs, x = Some xs -> nth_error (aduse d) kk = Some false ->
                 nth maxx (ch1 l) 0 = sentinel).

(** [np.any(v > 0)] *)
Definition any_positive (v : list Q) : bool := existsb (fun x => Qgtb x 0) v.

(** [v[:-1]] *)
Definition but_last (v : list Q) : list Q := slice v None (Some (-1)%Z).

Definition trcdict_empty : trcdict :=
  {| xtfit := []; ytfit := []; xmodel := []; ymodel := []; ycen := []; aduse := [] |}.

(** One turn of the loop of line 153; [aduse], allocated all [False] at
    line 151, gets its entry here. *)
Definition unpack_line (d : trcdict) (l : fwm_line) : res trcdict :=
  (let! yc := py_index (ch1 l) (-1)%Z in
   let used := any_positive (but_last (ch2 l)) in
   Ok {| xtfit := xtfit d ++ [Some (but_last (ch0 l))];
         ytfit := ytfit d ++ [Some (but_last (ch1 l))];
         xmodel := if used then xmodel d ++ [but_last (ch2 l)] else xmodel d;
         ymodel := if used then ymodel d ++ [but_last (ch3 l)] else ymodel d;
         ycen := ycen d ++ [yc];
         aduse := aduse d ++ [used] |})%res.

(** Lines 149-160: the dictionary read from the array of one slit. *)
Definition unpack (img : fwm_img) : res trcdict :=
  rfold unpack_line img trcdict_empty.

(** ['FWM{:03d}'.format(slit)] *)
Definition pad3 (s : string) : string :=
  match String.length s with
  | 0%nat => "000" ++ s
  | 1%nat => "00" ++ s
  | 2%nat => "0" ++ s
  | _ => s
  end%string.

Definition fwm_name (slit : nat) : string :=
  ("FWM" ++ pad3 (NilZero.string_of_uint (Nat.to_uint slit)))%string.
End TraceStateCodec.

(** ** The class [WaveTilts] *)

Module WaveTilts.
Import TraceStateCodec.

(** *** Parameters and inputs *)

(** A value of [par['tracethresh']], by its Python type. *)
Inductive pyval : Type :=
| PyNone
| PyFloat (x : Q)
| PyInt (n : Z)
| PyBool (b : bool)
| PyStr (s : string)
| PyList (l : list Q)
| PyNdarray (l : list Q)
| PyTuple (l : list Q).

(** [isinstance(v, (float, int))]; [bool] is a subclass of [int]. *)
Definition is_scalar_numeric (v : pyval) : bool :=
  match v with
  | PyFloat _ | PyInt _ | PyBool _ => true
  | _ => false
  end.

(** [isinstance(v, (list, np.ndarray))] *)
Definition is_list_or_array (v : pyval) : bool :=
  match v with
  | PyList _ | PyNdarray _ => true
  | _ => false
  end.

(** The entries of [WaveTiltsPar] that the class reads. *)
Record WaveTiltsPar : Type := {
  par_method : string;
  par_tracethresh : pyval;
  par_order : Z;
  par_yorder : Z;
  par_func2D : string;
  par_function : string;
  par_idsonly : bool
}.

(** [tslits_dict], the input from the slit tracing. *)
Record tslits : Type := {
  lcen : image Q;
  rcen : image Q;
  pixcen : image Q
}.

(** An entry of [spectrograph.detector]. *)
Record detector_par : Type := {
  saturation : Q;
  nonlinear : Q
}.

(** *** Master files *)

(** The arrays that a master file of tilts holds. *)
Inductive ndarray : Type :=
| NoArray
| Array2 (img : image Q)
| Array3 (planes : list (image Q))
| ArrayFwm (img : fwm_img).

Record hdu : Type := {
  hdu_name : string;
  hdu_header : list (string * string);
  hdu_data : ndarray
}.

(** What a path of the file system holds: a FITS file with its list of
    HDUs, or something [fits.open] cannot read. *)
Inductive file : Type :=
| NotFits
| FitsFile (hdul : list hdu).

Definition filesystem : Type := string -> option file.

(** The dictionary [{'tilts': ..., 'coeffs': ..., 'func2D': ...}]. *)
Record tilts_dict_t : Type := {
  td_tilts : ndarray;
  td_coeffs : ndarray;
  td_func2D : string
}.

Fixpoint header_get (h : list (string * string)) (key : string) : res string :=
  match h with
  | [] => Raise KeyError
  | (k, v) :: h' => if String.eqb k key then Ok v else header_get h' key
  end.

(** [fits.open(filename)] on an existing path. *)
Definition fits_open (f : file) : res (list hdu) :=
  match f with
  | NotFits => Raise OSError
  | FitsFile hdul => Ok hdul
  end.

(** Modelled from the spec: [msgs.error] of [pypeit/msgs], which is not
    among the sources; the spec calls the strict-mode condition fatal,
    so the call raises and does not return. *)
Definition msgs_error {A} : res A := Raise PypeItError.

(** [load_master(filename, exten, force)], lines 540-557;
    [os.path.isfile] holds when the file system has a file at the path. *)
Definition load_master (fs : filesystem) (filename : string) (exten : Z) (force : bool)
  : res (option tilts_dict_t) :=
  match fs filename with
  | None =>
      if force
      then (let! _ := @msgs_error unit in Ok None)%res
      else Ok None
  | Some f =>
      (let! opened := fits_open f in
       let! h0 := py_index opened 0%Z in
       let tilts := hdu_data h0 in
       let! h1 := py_index opened 1%Z in
       let coeffs := hdu_data h1 in
       let! f2d := header_get (hdu_header h1) "FUNC2D" in
       Ok (Some {| td_tilts := tilts; td_coeffs := coeffs; td_func2D := f2d |}))%res
  end.

(** *** Collaborators *)

(** [outpar] of [tracewave.fit_tilts], opaque to this class. *)
Inductive outpar_t : Type := Outpar (content : list Q).

(** The functions of other modules that the class calls; each may
    raise. *)
Record collaborators : Type := {
  spectrograph_slitmask : option tslits -> res (image Z);
  arc_get_censpec :
    image Q -> image Q -> option (image Z) -> image Q -> option (image bool)
    -> res (image Q * list Z);
  pixels_slit_pixels : image Q -> image Q -> nat -> res (image Z);
  (** [tcent_tot], [wgood] and [nsig_tot] of [arc.detect_lines], from the
      spectrum and [nonlinear_counts] *)
  arc_detect_lines : list Q -> Q -> res (list Q * list Z * list Q);
  (** the flattened [trace_out[0]] and [trace_out[1]] *)
  trace_crude_init : image Q -> Q -> Z -> image Q -> res (list Q * list Q);
  ipython_embed : res unit;
  ginga_show_image : image Q -> res unit;
  ginga_show_tilts : list LineTracer.columns -> res unit;
  tracewave_analyze_lines :
    image Q -> option trcdict -> nat -> image Q -> Z -> string
    -> res (Z * list (image Q));
  tracewave_fit_tilts :
    image Q -> nat -> option (list (image Q)) -> Z -> Z -> string -> bool
    -> res (image Q * image Q * outpar_t)
}.

(** *** The attributes that the methods assign *)

Record attrs : Type := {
  steps : list string;
  slitmask : option (image Z);
  arccen : option (image Q);
  arc_maskslit : option (list Z);
  mask : option (list bool);
  all_trcdict : list (option trcdict);
  tilts : option (image Q);
  all_ttilts : list (option (list (image Q)));
  final_tilts : option (image Q);
  coeffs : option (list (image Q));
  tilts_dict : option tilts_dict_t;
  badlines : option Z;
  outpar : option outpar_t
}.

(** The attributes after [__init__] for [nslit] slits; [arccen],
    [arc_maskslit], [badlines] and [outpar] do not exist yet. *)
Definition init (nslit : nat) : attrs :=
  {| steps := []; slitmask := None; arccen := None; arc_maskslit := None;
     mask := None; all_trcdict := repeat None nslit; tilts := None;
     all_ttilts := repeat None nslit; final_tilts := None; coeffs := None;
     tilts_dict := None; badlines := None; outpar := None |}.

Definition set_steps (v : list string) (s : attrs) : attrs :=
  {| steps := v; slitmask := slitmask s; arccen := arccen s;
     arc_maskslit := arc_maskslit s; mask := mask s; all_trcdict := all_trcdict s;
     tilts := tilts s; all_ttilts := all_ttilts s; final_tilts := final_tilts s;
     coeffs := coeffs s; tilts_dict := tilts_dict s; badlines := badlines s;
     outpar := outpar s |}.

Definition set_slitmask (v : option (image Z)) (s : attrs) : attrs :=
  {| steps := steps s; slitmask := v; arccen := arccen s;
     arc_maskslit := arc_maskslit s; mask := mask s; all_trcdict := all_trcdict s;
     tilts := tilts s; all_ttilts := all_ttilts s; final_tilts := final_tilts s;
     coeffs := coeffs s; tilts_dict := tilts_dict s; badlines := badlines s;
     outpar := outpar s |}.

Definition set_arcs (cen : image Q) (msk : list Z) (s : attrs) : attrs :=
  {| steps := steps s; slitmask := slitmask s; arccen := Some cen;
     arc_maskslit := Some msk; mask := mask s; all_trcdict := all_trcdict s;
     tilts := tilts s; all_ttilts := all_ttilts s; final_tilts := final_tilts s;
     coeffs := coeffs s; tilts_dict := tilts_dict s; badlines := badlines s;
     outpar := outpar s |}.

Definition set_mask (v : list bool) (s : attrs) : attrs :=
  {| steps := steps s; slitmask := slitmask s; arccen := arccen s;
     arc_maskslit := arc_maskslit s; mask := Some v; all_trcdict := all_trcdict s;
     tilts := tilts s; all_ttilts := all_ttilts s; final_tilts := final_tilts s;
     coeffs := coeffs s; tilts_dict := tilts_dict s; badlines := badlines s;
     outpar := outpar s |}.

Definition set_analysis (bad : Z) (tt : list (option (list (image Q)))) (s : attrs) : attrs :=
  {| steps := steps s; slitmask := slitmask s; arccen := arccen s;
     arc_maskslit := arc_maskslit s; mask := mask s; all_trcdict := all_trcdict s;
     tilts := tilts s; all_ttilts := tt; final_tilts := final_tilts s;
     coeffs := coeffs s; tilts_dict := tilts_dict s; badlines := Some bad;
     outpar := outpar s |}.

Definition set_badlines (bad : Z) (s : attrs) : attrs :=
  {| steps := steps s; slitmask := slitmask s; arccen := arccen s;
     arc_maskslit := arc_maskslit s; mask := mask s; all_trcdict := all_trcdict s;
     tilts := tilts s; all_ttilts := all_ttilts s; final_tilts := final_tilts s;
     coeffs := coeffs s; tilts_dict := tilts_dict s; badlines := Some bad;
     outpar := outpar s |}.

Definition set_fit (t : image Q) (o : outpar_t) (s : attrs) : attrs :=
  {| steps := steps s; slitmask := slitmask s; arccen := arccen s;
     arc_maskslit := arc_maskslit s; mask := mask s; all_trcdict := all_trcdict s;
     tilts := Some t; all_ttilts := all_ttilts s; final_tilts := final_tilts s;
     coeffs := coeffs s; tilts_dict := tilts_dict s; badlines := badlines s;
     outpar := Some o |}.

Definition set_tilts (t : image Q) (s : attrs) : attrs :=
  {| steps := steps s; slitmask := slitmask s; arccen := arccen s;
     arc_maskslit := arc_maskslit s; mask := mask s; all_trcdict := all_trcdict s;
     tilts := Some t; all_ttilts := all_ttilts s; final_tilts := final_tilts s;
     coeffs := coeffs s; tilts_dict := tilts_dict s; badlines := badlines s;
     outpar := outpar s |}.

Definition set_final_tilts (v : image Q) (s : attrs) : attrs :=
  {| steps := steps s; slitmask := slitmask s; arccen := arccen s;
     arc_maskslit := arc_maskslit s; mask := mask s; all_trcdict := all_trcdict s;
     tilts := tilts s; all_ttilts := all_ttilts s; final_tilts := Some v;
     coeffs := coeffs s; tilts_dict := tilts_dict s; badlines := badlines s;
     outpar := outpar s |}.

Definition set_coeffs (v : list (image Q)) (s : attrs) : attrs :=
  {| steps := steps s; slitmask := slitmask s; arccen := arccen s;
     arc_maskslit := arc_maskslit s; mask := mask s; all_trcdict := all_trcdict s;
     tilts := tilts s; all_ttilts := all_ttilts s; final_tilts := final_tilts s;
     coeffs := Some v; tilts_dict := tilts_dict s; badlines := badlines s;
     outpar := outpar s |}.

Definition set_tilts_dict (v : tilts_dict_t) (s : attrs) : attrs :=
  {| steps := steps s; slitmask := slitmask s; arccen := arccen s;
     arc_maskslit := arc_maskslit s; mask := mask s; all_trcdict := all_trcdict s;
     tilts := tilts s; all_ttilts := all_ttilts s; final_tilts := final_tilts s;
     coeffs := coeffs s; tilts_dict := Some v; badlines := badlines s;
     outpar := outpar s |}.

(** *** Methods: a computation on the attributes that returns or raises;
    the attributes assigned before an exception stay assigned. *)

Inductive outcome (A : Type) : Type :=
| Returns (a : A) (s : attrs)
| Raises (e : exn) (s : attrs).
Arguments Returns {A} a s.
Arguments Raises {A} e s.

Definition method (A : Type) : Type := attrs -> outcome A.

Definition ret {A} (a : A) : method A := fun s => Returns a s.

Definition bind {A B} (m : method A) (k : A -> method B) : method B :=
  fun s => match m s with
           | Returns a s' => k a s'
           | Raises e s' => Raises e s'
           end.

(** An expression that reads no attribute. *)
Definition lift {A} (r : res A) : method A :=
  fun s => match r with
           | Ok a => Returns a s
           | Raise e => Raises e s
           end.

Definition get : method attrs := fun s => Returns s s.

(** The attributes that a call leaves, whether it returns or raises. *)
Definition attrs_of {A} (o : outcome A) : attrs :=
  match o with
  | Returns _ s => s
  | Raises _ s => s
  end.

Definition assign (f : attrs -> attrs) : method unit := fun s => Returns tt (f s).

(** A [for] loop of statements. *)
Fixpoint for_each {B} (xs : list B) (body : B -> method unit) : method unit :=
  match xs with
  | [] => ret tt
  | x :: xs' => bind (body x) (fun _ => for_each xs' body)
  end.

Declare Scope method_scope.
Delimit Scope method_scope with method.
Notation "x <- m ;; k" := (bind m (fun x => k))
  (at level 61, m at next level, right associativity) : method_scope.
Notation "m ;;; k" := (bind m (fun _ => k))
  (at level 61, right associativity) : method_scope.

(** [str.lower()] on the letters A-Z. *)
Definition lower_ascii (c : ascii) : ascii :=
  let n := nat_of_ascii c in
  if ((65 <=? n) && (n <=? 90))%nat then ascii_of_nat (n + 32) else c.

Fixpoint lower (s : string) : string :=
  match s with
  | EmptyString => EmptyString
  | String c r => String (lower_ascii c) (lower r)
  end.

(** Whether two arrays have the same shape. *)
Fixpoint nat_list_eqb (a b : list nat) : bool :=
  match a, b with
  | [], [] => true
  | x :: a', y :: b' => (x =? y)%nat && nat_list_eqb a' b'
  | _, _ => false
  end.

Definition shape_eqb {A B} (a : image A) (b : image B) : bool :=
  nat_list_eqb (map (@length A) a) (map (@length B) b).

(** [dst[word] = src[word]] for a boolean image [word]; the three shapes
    must agree. *)
Definition masked_store (dst : image Q) (word : image bool) (src : image Q)
  : res (image Q) :=
  if shape_eqb word src && shape_eqb word dst
  then Ok (map (fun rows =>
                  map (fun px => if fst (snd px) : bool then snd (snd px) else fst px)
                      (combine (fst rows) (combine (fst (snd rows)) (snd (snd rows)))))
               (combine dst (combine word src)))
  else Raise IndexError.

(** [dst[...] = src] for two-dimensional arrays: numpy broadcasts [src]
    to the shape of [dst]; along each axis the sizes agree or [src] has
    the size 1, and [ValueError] is raised otherwise.  The rows of an
    array have one length, and an array without rows keeps no number of
    columns in this representation ([shape1] gives 0 for it). *)
Definition broadcast_row (ncol : nat) (row : list Q) : res (list Q) :=
  if (length row =? ncol)%nat then Ok row
  else match row with
       | [x] => Ok (repeat x ncol)
       | _ => Raise ValueError
       end.

Definition broadcast_to (dst src : image Q) : res (image Q) :=
  (let! rows := (if (length src =? shape0 dst)%nat then Ok src
                 else match src with
                      | [row] => Ok (repeat row (shape0 dst))
                      | _ => Raise ValueError
                      end) in
   rfold (fun acc row => let! r := broadcast_row (shape1 dst) row in Ok (acc ++ [r]))
         rows [])%res.

(** [slitmask == slit] *)
Definition equals_slit (sm : image Z) (slit : nat) : image bool :=
  map (map (fun v => (v =? Z.of_nat slit)%Z)) sm.

(** [maskslits & (arc_maskslit == 1)], with the broadcasting of a vector
    of one element. *)
Definition mask_and (maskslits : list bool) (arc_maskslit : list Z) : res (list bool) :=
  let arcbad := map (fun v => (v =? 1)%Z) arc_maskslit in
  if (length maskslits =? length arcbad)%nat
  then Ok (map (fun p => andb (fst p) (snd p)) (combine maskslits arcbad))
  else match maskslits, arcbad with
       | [x], _ => Ok (map (andb x) arcbad)
       | _, [y] => Ok (map (fun x => andb x y) maskslits)
       | _, _ => Raise ValueError
       end.

(** [np.where(mask == 0)[0]] *)
Definition where_unmasked (mask : list bool) : list nat :=
  bool_index (arange (length mask)) (map negb mask).

(** [np.zeros((a, b, n))] as [n] planes of [a] rows and [b] columns. *)
Definition zeros3 (a b : Z) (n : nat) : res (list (image Q)) :=
  if ((a <? 0) || (b <? 0))%Z then Raise ValueError
  else Ok (repeat (repeat (repeat 0 (Z.to_nat b)) (Z.to_nat a)) n).

(** [lst[i] = v] on a Python list. *)
Definition py_setitem {A} (l : list A) (i : nat) (v : A) : res (list A) :=
  if (i <? length l)%nat then Ok (set_at l i v) else Raise IndexError.

(** [a[idx]] for a vector of indices. *)
Definition take_index (a : list Q) (idx : list Z) : res (list Q) :=
  rfold (fun acc i => (let! x := py_index a i in Ok (acc ++ [x]))%res) idx [].

(** A tuple returned by [run]. *)
Inductive pyobj : Type :=
| ONone
| OImage (img : image Q)
| OTiltsDict (d : tilts_dict_t)
| OMask (m : list bool).

Section Methods.
Variable E : collaborators.
Variable wv_calib_t : Type.

(** The attributes set by [__init__] that no method assigns. *)
Variable par : WaveTiltsPar.
Variable msarc : image Q.
Variable bpm : option (image Q).
Variable tslits_dict : option tslits.
Variable det : option Z.
Variable detector : list detector_par.

(** [self.nslit], lines 93-96. *)
Definition nslit : nat :=
  match tslits_dict with
  | Some t => shape1 (lcen t)
  | None => 0%nat
  end.

(** [self.tslits_dict[...]]: [None] is not subscriptable. *)
Definition the_tslits : res tslits :=
  match tslits_dict with
  | Some t => Ok t
  | None => Raise TypeError
  end.

Definition append_step (name : string) : method unit :=
  assign (fun s => set_steps (steps s ++ [name]) s).

(** [_extract_arcs], lines 197-215. *)
Definition _extract_arcs : method (image Q * list Z) :=
  (s <- get ;;
   let inmask := option_map (map (map (fun v => Qeq_bool v 0))) bpm in
   ts <- lift the_tslits ;;
   r <- lift (arc_get_censpec E (lcen ts) (rcen ts) (slitmask s) msarc inmask) ;;
   assign (set_arcs (fst r) (snd r)) ;;;
   append_step "_extract_arcs" ;;;
   ret r)%method.

(** [_analyze_lines], lines 170-195.  The two targets of line 185 are
    assigned from left to right: [self.badlines] is stored before the
    item of [self.all_ttilts], which may raise, is. *)
Definition _analyze_lines (slit : nat) : method Z :=
  (s <- get ;;
   td <- lift (py_index (all_trcdict s) (Z.of_nat slit)) ;;
   ts <- lift the_tslits ;;
   r <- lift (tracewave_analyze_lines E msarc td slit (pixcen ts)
                (par_order par) (par_function par)) ;;
   assign (set_badlines (fst r)) ;;;
   tt <- lift (py_setitem (all_ttilts s) slit (Some (snd r))) ;;
   assign (set_analysis (fst r) tt) ;;;
   append_step "_analyze_lines" ;;;
   ret (fst r))%method.

(** [_fit_tilts], lines 217-242. *)
Definition _fit_tilts (slit : nat) (doqa : bool) : method (image Q * image Q) :=
  (s <- get ;;
   tt <- lift (py_index (all_ttilts s) (Z.of_nat slit)) ;;
   r <- lift (tracewave_fit_tilts E msarc slit tt (par_order par) (par_yorder par)
                (par_func2D par) doqa) ;;
   assign (set_fit (fst (fst r)) (snd r)) ;;;
   append_step "_fit_tilts" ;;;
   ret (fst r))%method.

(** Lines 261-267: the threshold of the slit, or [ValueError]. *)
Definition tracethresh_of (slit : nat) : res Q :=
  match par_tracethresh par with
  | PyFloat x => Ok x
  | PyInt n => Ok (inject_Z n)
  | PyBool b => Ok (if b then 1 else 0)
  | PyList l | PyNdarray l => py_index l (Z.of_nat slit)
  | PyNone | PyStr _ | PyTuple _ => Raise ValueError
  end.

(** Lines 269-270. *)
Definition nonlinear_counts_of : res Q :=
  match det with
  | None => Raise TypeError
  | Some d =>
      (let! sat := py_index detector (d - 1)%Z in
       let! nl := py_index detector (d - 1)%Z in
       Ok (saturation sat * nonlinear nl))%res
  end.

(** [arcimg * thismask] *)
Definition mask_image (img : image Q) (m : image bool) : res (image Q) :=
  if shape_eqb img m
  then Ok (map (fun rows => map (fun px => if snd px : bool then fst px * 1 else fst px * 0)
                                (combine (fst rows) (snd rows)))
               (combine img m))
  else Raise ValueError.

(** One turn of the loop of line 381. *)
Definition trace_line (nspat nsub : nat) (arcimg_trans inmask : image Q)
           (trace_int : Z) (acc : list LineTracer.columns) (line : Q * Z)
  : res (list LineTracer.columns) :=
  let spat_min := LineTracer.spat_min_of (snd line) trace_int in
  let spat_max := LineTracer.spat_max_of (snd line) trace_int in
  let a := Some (LineTracer.row_lo spat_min) in
  let b := Some (LineTracer.row_hi nspat spat_max) in
  let sub_img := slice arcimg_trans a b in
  let sub_inmask := slice inmask a b in
  (let! trace_out := trace_crude_init E sub_img (fst line)
                       ((Z.of_nat (shape0 sub_img) - 1) / 2)%Z sub_inmask in
   let! c := LineTracer.record_trace nspat nsub spat_min spat_max
               (fst trace_out) (snd trace_out) in
   Ok (acc ++ [c]))%res.

(** Lines 355-443, entered when some line is usable: the window
    geometry, the tracing loop, the interactive displays, and then the
    call of line 419 whose first argument, [msarc_trans], is a name
    that nothing binds.  Nothing below that line is reached. *)
Definition trace_usable_lines (slit : nat) (slit_left slit_righ : list Q)
           (thismask : image bool) (lines_spec : list Q) : res (option trcdict) :=
  let nspat := shape1 msarc in
  let nspec := shape0 msarc in
  (let! slit_sum := broadcast2 Qplus slit_left slit_righ in
   let slit_cen := map (fun v => v / 2) slit_sum in
   let! trace_int := LineTracer.trace_int_of slit_left slit_righ in
   let nsub := LineTracer.nsub_of trace_int in
   let! lines_spat :=
     (if ((length slit_cen =? nspec)%nat && negb (nspec =? 0)%nat)%bool
      then Ok (map (np_interp_arange slit_cen) lines_spec)
      else Raise ValueError) in
   let lines_spat_int := map np_round lines_spat in
   let! _ := (if (nsub <? 0)%Z then Raise ValueError else Ok tt) in
   let! masked := mask_image msarc thismask in
   let arcimg_trans := transpose masked in
   let inmask := transpose (map (map (fun b => if b : bool then 1 else 0)) thismask) in
   let! cols := rfold (trace_line nspat (Z.to_nat nsub) arcimg_trans inmask trace_int)
                      (combine lines_spec lines_spat_int) [] in
   let! _ := ipython_embed E in
   let! _ := ginga_show_image E masked in
   let! _ := ginga_show_tilts E cols in
   Raise NameError)%res.

(** [_trace_tilts], lines 244-457.  Lines 290-303 overwrite the
    threshold with 10.0 and fix [n_neigh = 15] and
    [only_these_lines = None]. *)
Definition _trace_tilts (slit : nat) (wv_calib : option wv_calib_t)
  : method (option trcdict) :=
  (_ <- lift (tracethresh_of slit) ;;
   nonlinear_counts <- lift nonlinear_counts_of ;;
   s <- get ;;
   cen <- lift (match arccen s with
                | Some c => Ok c
                | None => Raise AttributeError
                end) ;;
   arc_spec <- lift (column cen (Z.of_nat slit)) ;;
   ts <- lift the_tslits ;;
   slit_left <- lift (column (lcen ts) (Z.of_nat slit)) ;;
   slit_righ <- lift (column (rcen ts) (Z.of_nat slit)) ;;
   sm <- lift (pixels_slit_pixels E (lcen ts) (rcen ts) (shape1 msarc)) ;;
   let thismask := equals_slit sm slit in
   let tracethresh := 10 in
   let n_neigh := 15 in
   det_out <- lift (arc_detect_lines E arc_spec nonlinear_counts) ;;
   let tcent_tot := fst (fst det_out) in
   let wgood := snd (fst det_out) in
   let nsig_tot := snd det_out in
   arcdet <- lift (take_index tcent_tot wgood) ;;
   nsig <- lift (take_index nsig_tot wgood) ;;
   aduse <- lift (LineSelector.select_lines arcdet nsig tracethresh n_neigh None) ;;
   let lines_spec := bool_index arcdet aduse in
   if (length lines_spec =? 0)%nat
   then ret None
   else lift (trace_usable_lines slit slit_left slit_righ thismask lines_spec))%method.

(** The slit [slit] yields no peak at or above the tracing threshold
    (the 10.0 of line 290): the statements before the detection succeed
    on the spectra [cen], and every detected good peak has a
    significance below 10. *)
Definition finds_no_line (slit : nat) (cen : image Q) : Prop :=
  exists (thr nlc : Q) (arc_spec slit_left slit_righ : list Q) (ts : tslits)
         (sm : image Z) (tcent_tot nsig_tot : list Q) (wgood : list Z)
         (arcdet nsig : list Q),
    tracethresh_of slit = Ok thr /\
    nonlinear_counts_of = Ok nlc /\
    column cen (Z.of_nat slit) = Ok arc_spec /\
    tslits_dict = Some ts /\
    column (lcen ts) (Z.of_nat slit) = Ok slit_left /\
    column (rcen ts) (Z.of_nat slit) = Ok slit_righ /\
    pixels_slit_pixels E (lcen ts) (rcen ts) (shape1 msarc) = Ok sm /\
    arc_detect_lines E arc_spec nlc = Ok (tcent_tot, wgood, nsig_tot) /\
    take_index tcent_tot wgood = Ok arcdet /\
    take_index nsig_tot wgood = Ok nsig /\
    Forall (fun v => v < 10) nsig.

(** The statements of [_trace_tilts] before the selection of the lines
    succeed on the spectra [cen] for the slit [slit], and the detected
    good peaks have the positions [arcdet] and the significances
    [nsig]. *)
Definition detects_peaks (slit : nat) (cen : image Q) (arcdet nsig : list Q) : Prop :=
  exists (thr nlc : Q) (arc_spec slit_left slit_righ : list Q) (ts : tslits)
         (sm : image Z) (tcent_tot nsig_tot : list Q) (wgood : list Z),
    tracethresh_of slit = Ok thr /\
    nonlinear_counts_of = Ok nlc /\
    column cen (Z.of_nat slit) = Ok arc_spec /\
    tslits_dict = Some ts /\
    column (lcen ts) (Z.of_nat slit) = Ok slit_left /\
    column (rcen ts) (Z.of_nat slit) = Ok slit_righ /\
    pixels_slit_pixels E (lcen ts) (rcen ts) (shape1 msarc) = Ok sm /\
    arc_detect_lines E arc_spec nlc = Ok (tcent_tot, wgood, nsig_tot) /\
    take_index tcent_tot wgood = Ok arcdet /\
    take_index nsig_tot wgood = Ok nsig.

(** One turn of the loop of line 505. *)
Definition run_slit (doqa : bool) (wv_calib : option wv_calib_t) (slit : nat)
  : method unit :=
  (_ <- _trace_tilts slit wv_calib ;;
   _ <- _analyze_lines slit ;;
   fit <- _fit_tilts slit doqa ;;
   assign (set_tilts (fst fit)) ;;;
   s <- get ;;
   cf <- lift (match coeffs s with
               | Some c => Ok c
               | None => Raise TypeError
               end) ;;
   plane <- lift (py_index cf (Z.of_nat slit)) ;;
   cf' <- lift (let! v := broadcast_to plane (snd fit) in py_setitem cf slit v)%res ;;
   assign (set_coeffs cf') ;;;
   sm <- lift (match slitmask s with
               | Some m => Ok m
               | None => Raise TypeError
               end) ;;
   let word := equals_slit sm slit in
   ft <- lift (match final_tilts s with
               | Some f => masked_store f word (fst fit)
               | None => Raise TypeError
               end) ;;
   assign (set_final_tilts ft))%method.

(** What the analysis and the fit give for the slit [slit] when the
    dictionaries stored are [trc]: the two calls of [_analyze_lines]
    and [_fit_tilts] in a row, with the tilts and the coefficients that
    a turn of the loop stores. *)
Definition slit_fit (doqa : bool) (slit : nat) (trc : list (option trcdict))
  : res (image Q * image Q) :=
  (let! td := py_index trc (Z.of_nat slit) in
   let! ts := the_tslits in
   let! r := tracewave_analyze_lines E msarc td slit (pixcen ts)
               (par_order par) (par_function par) in
   let! f := tracewave_fit_tilts E msarc slit (Some (snd r)) (par_order par)
               (par_yorder par) (par_func2D par) doqa in
   Ok (fst f))%res.

(** [run], lines 489-490: the default of [maskslits]. *)
Definition given_mask (maskslits : option (list bool)) : list bool :=
  match maskslits with
  | None => repeat false nslit
  | Some m => m
  end.

(** [run], lines 489-503: the masks and the empty outputs; the value
    is [maskslits] with [gdslits]. *)
Definition run_setup (maskslits : option (list bool)) : method (list bool * list nat) :=
  (let maskslits := given_mask maskslits in
   sm <- lift (spectrograph_slitmask E tslits_dict) ;;
   assign (set_slitmask (Some sm)) ;;;
   arcs <- _extract_arcs ;;
   assign (set_arcs (fst arcs) (snd arcs)) ;;;
   m <- lift (mask_and maskslits (snd arcs)) ;;
   assign (set_mask m) ;;;
   let gdslits := where_unmasked m in
   assign (set_final_tilts (zeros_like msarc)) ;;;
   cf <- lift (zeros3 (par_order par + 2) (par_yorder par + 1) nslit) ;;
   assign (set_coeffs cf) ;;;
   ret (maskslits, gdslits))%method.

(** The attributes that lines 489-503 leave when nothing raises: [sm]
    is the membership image, [cen] and [am] the spectra and the flags
    of the extraction, [m] the mask and [cf] the zero coefficients. *)
Definition after_setup (sm : image Z) (cen : image Q) (am : list Z) (m : list bool)
           (cf : list (image Q)) (s : attrs) : attrs :=
  set_coeffs cf
    (set_final_tilts (zeros_like msarc)
       (set_mask m
          (set_arcs cen am
             (set_steps (steps s ++ ["_extract_arcs"%string])
                (set_arcs cen am (set_slitmask (Some sm) s)))))).

(** What [run] needs from its collaborators to reach the loop over
    the slits: slits, their membership image [sm], the spectra [cen]
    with the flags [am], a mask [m] and the zero coefficients [cf]. *)
Definition reaches_loop (maskslits : option (list bool)) (ts : tslits) (sm : image Z)
           (cen : image Q) (am : list Z) (m : list bool) (cf : list (image Q)) : Prop :=
  tslits_dict = Some ts /\
  spectrograph_slitmask E tslits_dict = Ok sm /\
  arc_get_censpec E (lcen ts) (rcen ts) (Some sm) msarc
    (option_map (map (map (fun v => Qeq_bool v 0))) bpm) = Ok (cen, am) /\
  mask_and (given_mask maskslits) am = Ok m /\
  zeros3 (par_order par + 2) (par_yorder par + 1) nslit = Ok cf.

(** [run], lines 520-521. *)
Definition run_finish (maskslits : list bool) : method (list pyobj) :=
  (s <- get ;;
   let td := {| td_tilts := match final_tilts s with
                            | Some f => Array2 f
                            | None => NoArray
                            end;
                td_coeffs := match coeffs s with
                             | Some c => Array3 c
                             | None => NoArray
                             end;
                td_func2D := par_func2D par |} in
   assign (set_tilts_dict td) ;;;
   ret [OTiltsDict td; OMask maskslits])%method.

(** [run], lines 459-521. *)
Definition run (maskslits : option (list bool)) (doqa : bool)
           (wv_calib : option wv_calib_t) (gen_satmask : bool)
  : method (list pyobj) :=
  if String.eqb (lower (par_method par)) "zero" then
    (let ramp := values (outer (linspace (f64_of_Z 0) (f64_of_Z 1) (shape0 msarc))
                               (ones (shape1 msarc))) in
     assign (set_final_tilts ramp) ;;;
     ret [OImage ramp; ONone; ONone])%method
  else
    (mg <- run_setup maskslits ;;
     for_each (snd mg) (run_slit doqa wv_calib) ;;;
     run_finish (fst mg))%method.

(** [save_master], lines 586-616: the extension of one slit, appended
    unless the slit is masked. *)
Definition save_slit (s : attrs) (hdul : list hdu) (slit : nat) : res (list hdu) :=
  (let! m := match mask s with
             | Some m => Ok m
             | None => Raise TypeError
             end in
   let! bad := py_index m (Z.of_nat slit) in
   if bad : bool then Ok hdul
   else
     let! entry := py_index (all_trcdict s) (Z.of_nat slit) in
     let! d := match entry with
               | Some d => Ok d
               | None => Raise TypeError
               end in
     let tup := (let! o := py_index (all_ttilts s) (Z.of_nat slit) in
                match o with
                | Some t => Ok t
                | None => Raise TypeError
                end) in
     let! img := pack d tup in
     Ok (hdul ++ [{| hdu_name := fwm_name slit; hdu_header := [];
                     hdu_data := ArrayFwm img |}]))%res.

(** [save_master], lines 561-619; [ms_name] is the attribute of that
    name and the result is the file system after [writeto]. *)
Definition save_master (ms_name : string) (outfile : option string) (s : attrs)
           (fs : filesystem) : res filesystem :=
  let outfile := match outfile with
                 | None => ms_name
                 | Some f => f
                 end in
  match final_tilts s with
  | None => Ok fs
  | Some ft =>
      let hdu0 := {| hdu_name := "PRIMARY"; hdu_header := []; hdu_data := Array2 ft |} in
      let hdu_coeff :=
        {| hdu_name := ""; hdu_header := [("FUNC2D"%string, par_func2D par)];
           hdu_data := match coeffs s with
                       | Some c => Array3 c
                       | None => NoArray
                       end |} in
      (let! hdul := rfold (save_slit s) (arange nslit) [hdu0; hdu_coeff] in
       Ok (fun name => if String.eqb name outfile then Some (FitsFile hdul)
                       else fs name))%res
  end.
End Methods.

(** [from_master_files], lines 146-165: one turn of the loop over
    [hdul[2:]], with the counter [islit].  An extension of the expected
    name holds the array that [save_master] wrote; any other content
    under that name is outside the model and given as an [IndexError]. *)
Definition read_slit (acc : list (option trcdict) * nat) (h : hdu)
  : res (list (option trcdict) * nat) :=
  if String.eqb (hdu_name h) (fwm_name (snd acc)) then
    match hdu_data h with
    | ArrayFwm img =>
        (let! d := unpack img in Ok (fst acc ++ [Some d], S (snd acc)))%res
    | _ => Raise IndexError
    end
  else Ok (fst acc ++ [None], S (snd acc)).

(** [from_master_files], lines 144-166: [all_trcdict] as read from the
    HDUs of the master file.  (Lines 128-141, before, are not embedded:
    the method is marked as unfinished and reads an attribute, [slf.hdu],
    that this class does not assign.) *)
Definition read_trcdicts (hdul : list hdu) : res (list (option trcdict)) :=
  (let! r := rfold read_slit (slice hdul (Some 2%Z) None) ([], 0%nat) in Ok (fst r))%res.

(** [txt[:hi]] on a string. *)
Definition str_slice_to (txt : string) (hi : Z) : string :=
  substring 0 (slice_bound (String.length txt) hi) txt.

(** [__repr__], lines 689-698; [cls_name] is
    [self.__class__.__name__]. *)
Definition __repr__ (cls_name : string) (s : attrs) : string :=
  let txt := ("<" ++ cls_name ++ ": ")%string in
  let txt :=
    if (0 <? length (steps s))%nat then
      let txt := (txt ++ " steps: [")%string in
      let txt := fold_left (fun t step => (t ++ step ++ ", ")%string) (steps s) txt in
      (str_slice_to txt (-2) ++ "]")%string
    else txt in
  (txt ++ ">")%string.
End WaveTilts.

(** ** Sample inputs, for the concrete runs below *)

Module Sample.
Import WaveTilts.

(** An exposure of two spectral rows and nine spatial columns with one
    slit over the columns 3 to 5. *)
Definition msarc : image Q :=
  [[1; 1; 1; 5; 6; 7; 1; 1; 1]; [1; 1; 1; 8; 9; 10; 1; 1; 1]].


Definition slits : tslits :=
  {| lcen := [[3]; [3]]; rcen := [[5]; [5]]; pixcen := [[4]; [4]] |}.

Definition membership : image Z :=
  [[-1; -1; -1; 0; 0; 0; -1; -1; -1]; [-1; -1; -1; 0; 0; 0; -1; -1; -1]]%Z.

(** Collaborators that find the peaks [peaks] in every slit and give the
    slits the extraction flags [flags].  [analyze_lines] rejects a missing
    dictionary unless [lenient]; the fitted tilts are 0.5 everywhere. *)
Definition collab (peaks : list Q * list Z * list Q) (flags : list Z) (lenient : bool)
  : collaborators :=
  {| spectrograph_slitmask := fun _ => Ok membership;
     arc_get_censpec := fun _ _ _ _ _ => Ok ([[6]; [9]], flags);
     pixels_slit_pixels := fun _ _ _ => Ok membership;
     arc_detect_lines := fun _ _ => Ok peaks;
     trace_crude_init := fun sub x _ _ =>
                           Ok (repeat x (shape0 sub), repeat 0.1 (shape0 sub));
     ipython_embed := Ok tt;
     ginga_show_image := fun _ => Ok tt;
     ginga_show_tilts := fun _ => Ok tt;
     tracewave_analyze_lines := fun _ td _ _ _ _ =>
                                  match td with
                                  | None => if lenient then Ok (0%Z, []) else Raise TypeError
                                  | Some _ => Ok (0%Z, [])
                                  end;
     tracewave_fit_tilts := fun img _ _ _ _ _ _ =>
                              Ok (map (map (fun _ => 0.5)) img,
                                  repeat (repeat 1 3) 3, Outpar []) |}.

(** The collaborators [E] with a fit that gives the coefficients [cf]. *)
Definition with_coeffs (E : collaborators) (cf : image Q) : collaborators :=
  {| spectrograph_slitmask := spectrograph_slitmask E;
     arc_get_censpec := arc_get_censpec E;
     pixels_slit_pixels := pixels_slit_pixels E;
     arc_detect_lines := arc_detect_lines E;
     trace_crude_init := trace_crude_init E;
     ipython_embed := ipython_embed E;
     ginga_show_image := ginga_show_image E;
     ginga_show_tilts := ginga_show_tilts E;
     tracewave_analyze_lines := tracewave_analyze_lines E;
     tracewave_fit_tilts := fun img _ _ _ _ _ _ =>
                              Ok (map (map (fun _ => 0.5)) img, cf, Outpar []) |}.

(** An instance of one slit whose list [all_ttilts] has lost its item. *)
Definition no_tilt_slots : attrs :=
  {| steps := []; slitmask := None; arccen := None; arc_maskslit := None;
     mask := None; all_trcdict := [None]; tilts := None; all_ttilts := [];
     final_tilts := None; coeffs := None; tilts_dict := None; badlines := None;
     outpar := None |}.

Definition no_peaks : list Q * list Z * list Q := ([], [], []).
Definition one_peak : list Q * list Z * list Q := ([1], [0%Z], [20]).
Definition faint_peak : list Q * list Z * list Q := ([1], [0%Z], [8]).

(** The spectra that the sample extraction returns and the zero
    coefficients of one slit for the orders of [par_of]. *)
Definition spectra : image Q := [[6]; [9]].
Definition zero_coeffs : list (image Q) := [[[0; 0; 0]; [0; 0; 0]; [0; 0; 0]]].

Definition par_of (method : string) (thresh : pyval) : WaveTiltsPar :=
  {| par_method := method; par_tracethresh := thresh; par_order := 1; par_yorder := 2;
     par_func2D := "legendre"; par_function := "legendre"; par_idsonly := false |}.

Definition detector : list detector_par := [{| saturation := 65535; nonlinear := 0.9 |}].

(** [run] on the sample exposure. *)
Definition run_sample (peaks : list Q * list Z * list Q) (flags : list Z) (lenient : bool)
           (method : string) (thresh : pyval) (maskslits : option (list bool))
  : outcome (list pyobj) :=
  run (collab peaks flags lenient) (par_of method thresh) msarc None (Some slits)
      (Some 1%Z) detector maskslits true (@None unit) false (init 1).

(** The dictionary of a slit with three lines of raw-trace lengths 5, 9
    and 3, of which the first and the third have a model, and the tilts
    of the slit: [all_ttilts[slit][1][r, k]] is [100 * (k + 1) + r]. *)
Definition three_lines : TraceStateCodec.trcdict :=
  {| TraceStateCodec.xtfit :=
       [Some [1; 2; 3; 4; 5]; Some [1; 2; 3; 4; 5; 6; 7; 8; 9]; Some [1; 2; 3]];
     TraceStateCodec.ytfit :=
       [Some [11; 12; 13; 14; 15]; Some [21; 22; 23; 24; 25; 26; 27; 28; 29];
        Some [31; 32; 33]];
     TraceStateCodec.xmodel := [[1; 2; 3; 4; 5]; [1; 2; 3]];
     TraceStateCodec.ymodel := [[11; 12; 13; 14; 15]; [31; 32; 33]];
     TraceStateCodec.ycen := [];
     TraceStateCodec.aduse := [true; false; true] |}.

Definition three_lines_tilts : list (image Q) :=
  [ [];
    map (fun r => [100 + inject_Z (Z.of_nat r); 200 + inject_Z (Z.of_nat r);
                   300 + inject_Z (Z.of_nat r)])
        (arange 10) ].

(** The attributes of an instance with [nslit] slits that all hold the
    three lines, after a run that left the slits masked as [mask]. *)
Definition traced (nslit : nat) (mask : list bool) : attrs :=
  {| steps := []; slitmask := None; arccen := None; arc_maskslit := None;
     mask := Some mask; all_trcdict := repeat (Some three_lines) nslit; tilts := None;
     all_ttilts := repeat (Some three_lines_tilts) nslit; final_tilts := Some msarc;
     coeffs := None; tilts_dict := None; badlines := None; outpar := None |}.

(** What [from_master_files] reads of the file that [save_master] writes
    for these attributes; [lcen] has one column per slit. *)
Definition saved_and_read (nslit : nat) (mask : list bool) : res (list (option TraceStateCodec.trcdict)) :=
  (let! fs := save_master (par_of "spca" (PyFloat 10))
                (Some {| lcen := [repeat 0 nslit]; rcen := [repeat 2 nslit];
                         pixcen := [repeat 1 nslit] |})
                "MasterTilts_A_01_aa.fits" None (traced nslit mask) (fun _ => None) in
   match fs "MasterTilts_A_01_aa.fits"%string with
   | Some (FitsFile hdul) => read_trcdicts hdul
   | _ => Raise OSError
   end)%res.

(** The array that [save_master] writes for the three lines, and the
    dictionary that [from_master_files] reads from it. *)
Definition three_lines_array : TraceStateCodec.fwm_img :=
  match TraceStateCodec.pack three_lines (Ok three_lines_tilts) with
  | Ok img => img
  | Raise _ => []
  end.

Definition three_lines_read : TraceStateCodec.trcdict :=
  match TraceStateCodec.unpack three_lines_array with
  | Ok d => d
  | Raise _ => TraceStateCodec.trcdict_empty
  end.

(** The file system after [save_master] on these attributes, from an
    empty one. *)
Definition saved (nslit : nat) (mask : list bool) : filesystem :=
  match save_master (par_of "spca" (PyFloat 10))
          (Some {| lcen := [repeat 0 nslit]; rcen := [repeat 2 nslit];
                   pixcen := [repeat 1 nslit] |})
          "MasterTilts_A_01_aa.fits" None (traced nslit mask) (fun _ => None) with
  | Ok fs => fs
  | Raise _ => fun _ => None
  end.

(** A master file of tilts, and one with a primary HDU only. *)
Definition tilts_file : file :=
  FitsFile [ {| hdu_name := "PRIMARY"; hdu_header := []; hdu_data := Array2 msarc |};
             {| hdu_name := ""; hdu_header := [("FUNC2D", "legendre")];
                hdu_data := Array3 [] |} ]%string.

Definition arc_file : file :=
  FitsFile [ {| hdu_name := "PRIMARY"; hdu_header := []; hdu_data := Array2 msarc |} ]%string.

Definition disk : filesystem :=
  fun name => if String.eqb name "MasterTilts_A_01_aa.fits" then Some tilts_file
              else if String.eqb name "MasterArc_A_01_aa.fits" then Some arc_file
              else None.
End Sample.

(** ** An exposure with two slits *)

Module TwoSlits.
Import WaveTilts.

(** The sample exposure with one slit over the columns 1 to 3 and one
    over the columns 5 to 7. *)
Definition slits : tslits :=
  {| lcen := [[1; 5]; [1; 5]]; rcen := [[3; 7]; [3; 7]]; pixcen := [[2; 6]; [2; 6]] |}.

Definition membership : image Z :=
  [[-1; 0; 0; 0; -1; 1; 1; 1; -1]; [-1; 0; 0; 0; -1; 1; 1; 1; -1]]%Z.

(** Collaborators that detect no peak and give the slits the extraction
    flags [flags]; the analysis accepts a missing dictionary, and the
    fitted tilts of the slit [slit] are [slit + 0.5] everywhere. *)
Definition collab (flags : list Z) : collaborators :=
  {| spectrograph_slitmask := fun _ => Ok membership;
     arc_get_censpec := fun _ _ _ _ _ => Ok ([[6; 4]; [9; 7]], flags);
     pixels_slit_pixels := fun _ _ _ => Ok membership;
     arc_detect_lines := fun _ _ => Ok Sample.no_peaks;
     trace_crude_init := fun sub x _ _ =>
                           Ok (repeat x (shape0 sub), repeat 0.1 (shape0 sub));
     ipython_embed := Ok tt;
     ginga_show_image := fun _ => Ok tt;
     ginga_show_tilts := fun _ => Ok tt;
     tracewave_analyze_lines := fun _ _ _ _ _ _ => Ok (0%Z, []);
     tracewave_fit_tilts := fun img slit _ _ _ _ _ =>
                              Ok (map (map (fun _ => inject_Z (Z.of_nat slit) + 0.5)) img,
                                  repeat (repeat 1 3) 3, Outpar []) |}.

(** [run] on the exposure, from the attributes that [__init__] leaves. *)
Definition run_two (flags : list Z) (thresh : pyval) (maskslits : option (list bool))
  : outcome (list pyobj) :=
  run (collab flags) (Sample.par_of "spca" thresh) Sample.msarc None (Some slits)
      (Some 1%Z) Sample.detector maskslits true (@None unit) false (init 2).
End TwoSlits.

Unset Implicit Arguments.
(** Case analysis on every expression of a hypothesis that may raise. *)
Ltac case_res H :=
  repeat match type of H with
         | context [match ?r with Ok _ => _ | Raise _ => _ end] =>
             let E := fresh "E" in destruct r eqn:E; cbv beta iota zeta in H
         end.

(** * Facts about vectors *)

Module VectorFacts.
Section Masks.
Context {A : Type}.

Lemma bool_index_nil_r (a : list A) : bool_index a [] = [].
Proof. destruct a; reflexivity. Qed.

(** A mask that is false everywhere selects nothing. *)
Lemma bool_index_all_false (a : list A) (m : list bool) :
  Forall (fun b => b = false) m -> bool_index a m = [].
Proof.
  intros H. revert a. induction H as [| b m Hb _ IH]; intros a.
  - apply bool_index_nil_r.
  - destruct a as [| x a]; [reflexivity |]. simpl. rewrite Hb. apply IH.
Qed.

Lemma set_at_length (a : list A) i v : length (set_at a i v) = length a.
Proof.
  revert i. induction a as [| x a IH]; intros [| i]; simpl; auto.
Qed.

Lemma nth_set_at_same (a : list A) i v d :
  (i < length a)%nat -> nth i (set_at a i v) d = v.
Proof.
  revert i. induction a as [| x a IH]; intros [| i] H; simpl in *; try lia; auto.
  apply IH. lia.
Qed.

Lemma nth_set_at_other (a : list A) i j v d :
  i <> j -> nth j (set_at a i v) d = nth j a d.
Proof.
  revert i j. induction a as [| x a IH]; intros [| i] [| j] H; simpl; auto; try lia.
Qed.
End Masks.

(** Indexing with a natural number. *)
Lemma py_index_of_nat {A} (a : list A) (i : nat) :
  py_index a (Z.of_nat i)
  = match nth_error a i with
    | Some x => Ok x
    | None => Raise IndexError
    end.
Proof.
  unfold py_index.
  destruct (Z.ltb_spec (Z.of_nat i) 0) as [Hneg | _]; [lia |].
  rewrite Nat2Z.id.
  destruct (Z.leb_spec 0 (Z.of_nat i)) as [_ | Hneg]; [| lia].
  destruct (Z.ltb_spec (Z.of_nat i) (Z.of_nat (length a))) as [Hlt | Hge]; cbn [andb].
  - reflexivity.
  - assert (Hn : nth_error a i = None) by (apply nth_error_None; lia).
    rewrite Hn. reflexivity.
Qed.

(** The last element, [a[-1]]. *)
Lemma py_index_last {A} (a : list A) (x : A) : py_index (a ++ [x]) (-1) = Ok x.
Proof.
  unfold py_index. rewrite length_app. cbn [length].
  replace (Z.of_nat (length a + 1)) with (Z.of_nat (length a) + 1)%Z by lia.
  change (-1 <? 0)%Z with true. cbv iota.
  replace (-1 + (Z.of_nat (length a) + 1))%Z with (Z.of_nat (length a)) by lia.
  destruct (Z.leb_spec 0 (Z.of_nat (length a))) as [_ | Hneg]; [| lia].
  destruct (Z.ltb_spec (Z.of_nat (length a)) (Z.of_nat (length a) + 1)) as [_ | Hge]; [| lia].
  cbn [andb]. rewrite Nat2Z.id. rewrite nth_error_app2 by lia.
  rewrite Nat.sub_diag. reflexivity.
Qed.

(** The indices that a mask selects: those at which it holds. *)
Lemma In_bool_index_seq (m : list bool) (k i : nat) :
  In i (bool_index (seq k (length m)) m)
  <-> (k <= i < k + length m)%nat /\ nth (i - k) m false = true.
Proof.
  revert k. induction m as [| b m IH]; intros k; simpl.
  - split; [contradiction | lia].
  - destruct b; simpl; rewrite IH.
    + split.
      * intros [<- | [Hr Hn]].
        -- split; [lia |]. now rewrite Nat.sub_diag.
        -- split; [lia |]. destruct (i - k)%nat as [| p] eqn:Hp; [lia |].
           replace p with (i - S k)%nat by lia. exact Hn.
      * intros [Hr Hn]. destruct (i - k)%nat as [| p] eqn:Hp.
        -- left. lia.
        -- right. split; [lia |]. replace (i - S k)%nat with p by lia. exact Hn.
    + split.
      * intros [Hr Hn]. split; [lia |]. destruct (i - k)%nat as [| p] eqn:Hp; [lia |].
        replace p with (i - S k)%nat by lia. exact Hn.
      * intros [Hr Hn]. destruct (i - k)%nat as [| p] eqn:Hp; [discriminate |].
        split; [lia |]. replace (i - S k)%nat with p by lia. exact Hn.
Qed.

Lemma In_bool_index_arange (m : list bool) (i : nat) :
  In i (bool_index (arange (length m)) m) <-> (i < length m)%nat /\ nth i m false = true.
Proof.
  unfold arange. rewrite In_bool_index_seq. rewrite Nat.sub_0_r. intuition lia.
Qed.
End VectorFacts.

(** * Facts about slices *)

Module SliceFacts.
Lemma slice_bound_le (n : nat) (i : Z) : (slice_bound n i <= n)%nat.
Proof.
  unfold slice_bound. destruct (Z.ltb_spec i 0); lia.
Qed.

Lemma slice_start_le (n : nat) (lo : option Z) : (slice_start n lo <= n)%nat.
Proof.
  destruct lo; simpl; [apply slice_bound_le | lia].
Qed.

Lemma slice_stop_le (n : nat) (hi : option Z) : (slice_stop n hi <= n)%nat.
Proof.
  destruct hi; simpl; [apply slice_bound_le | lia].
Qed.

Section Slices.
Context {A : Type}.
Implicit Types (a vs : list A) (lo hi : option Z).

Lemma length_slice a lo hi :
  length (slice a lo hi) = (slice_stop (length a) hi - slice_start (length a) lo)%nat.
Proof.
  unfold slice. rewrite length_firstn, length_skipn.
  pose proof (slice_stop_le (length a) hi). lia.
Qed.

Lemma length_fill_slice a lo hi v : length (fill_slice a lo hi v) = length a.
Proof.
  unfold fill_slice. rewrite !length_app, length_firstn, repeat_length, length_skipn.
  pose proof (slice_stop_le (length a) hi). pose proof (slice_start_le (length a) lo). lia.
Qed.

Lemma length_assign_slice a lo hi vs a' :
  assign_slice a lo hi vs = Ok a' -> length a' = length a.
Proof.
  unfold assign_slice.
  destruct (Nat.eqb_spec (length vs)
              (slice_stop (length a) hi - slice_start (length a) lo)) as [Heq | Hne].
  - intros H. inversion H. subst a'.
    rewrite !length_app, length_firstn, length_skipn, Heq.
    pose proof (slice_stop_le (length a) hi). pose proof (slice_start_le (length a) lo).
    lia.
  - destruct vs as [| v [| w vs]]; try discriminate.
    intros H. inversion H. apply length_fill_slice.
Qed.

(** A vector that fits neither the slice nor the broadcasting rule. *)
Lemma assign_slice_mismatch a lo hi vs :
  length vs <> (slice_stop (length a) hi - slice_start (length a) lo)%nat ->
  length vs <> 1%nat ->
  assign_slice a lo hi vs = Raise ValueError.
Proof.
  intros Hne H1. unfold assign_slice.
  destruct (Nat.eqb_spec (length vs)
              (slice_stop (length a) hi - slice_start (length a) lo)); [contradiction |].
  destruct vs as [| v [| w vs]]; try reflexivity. simpl in H1. lia.
Qed.

Lemma nth_splice_outside a (mid : list A) (b e i : nat) (d : A) :
  (b <= length a)%nat -> length mid = (e - b)%nat ->
  (i < b \/ e <= i)%nat ->
  nth i (firstn b a ++ mid ++ skipn (b + (e - b)) a) d = nth i a d.
Proof.
  intros Hb Hmid Hi.
  destruct (Nat.lt_ge_cases i b) as [Hlt | Hge].
  - rewrite app_nth1 by (rewrite length_firstn; lia).
    rewrite nth_firstn. destruct (Nat.ltb_spec i b); [reflexivity | lia].
  - assert (He : (e <= i)%nat) by lia.
    rewrite app_nth2 by (rewrite length_firstn; lia).
    rewrite length_firstn, Nat.min_l by exact Hb.
    rewrite app_nth2 by lia. rewrite Hmid, nth_skipn. f_equal. lia.
Qed.

(** An assignment to a slice leaves the elements outside of it. *)
Lemma nth_assign_slice_outside a lo hi vs a' (i : nat) (d : A) :
  assign_slice a lo hi vs = Ok a' ->
  (i < slice_start (length a) lo \/ slice_stop (length a) hi <= i)%nat ->
  nth i a' d = nth i a d.
Proof.
  unfold assign_slice. intros H Hi.
  pose proof (slice_start_le (length a) lo) as Hb.
  destruct (Nat.eqb_spec (length vs)
              (slice_stop (length a) hi - slice_start (length a) lo)) as [Heq | Hne].
  - inversion H. subst a'. apply nth_splice_outside; assumption.
  - destruct vs as [| v [| w vs]]; try discriminate.
    inversion H. subst a'. unfold fill_slice.
    apply nth_splice_outside; [assumption | apply repeat_length | assumption].
Qed.
End Slices.
End SliceFacts.

(** * Line tracing at the edges of the detector *)

Module LineTracerFacts.
Import LineTracer.

Lemma store_tilts_mask nspat spat_min spat_max lo hi tilts_now err_now c c' :
  store nspat spat_min spat_max lo hi tilts_now err_now c = Ok c' ->
  exists vs,
    assign_slice (tilts_mask c) (Some (row_lo spat_min)) (Some (row_hi nspat spat_max)) vs
    = Ok (tilts_mask c').
Proof.
  unfold store, rbind. intros H.
  case_res H; try discriminate.
  inversion H. simpl. eexists. eassumption.
Qed.

Lemma store_sub_length nspat spat_min spat_max lo hi tilts_now err_now c c' :
  store nspat spat_min spat_max lo hi tilts_now err_now c = Ok c' ->
  exists sub,
    assign_slice (tilts_sub c) lo hi tilts_now = Ok sub
    /\ exists t, assign_slice (tilts c) (Some (row_lo spat_min))
                   (Some (row_hi nspat spat_max)) (slice sub lo hi) = Ok t.
Proof.
  unfold store, rbind. intros H.
  case_res H; try discriminate.
  eexists. split; [reflexivity |]. eexists. eassumption.
Qed.

Lemma record_trace_store nspat nsub spat_min spat_max tilts_now err_now c :
  record_trace nspat nsub spat_min spat_max tilts_now err_now = Ok c ->
  exists lo hi,
    store nspat spat_min spat_max lo hi tilts_now err_now (columns_init nsub nspat) = Ok c.
Proof.
  unfold record_trace. intros H.
  destruct (spat_min <? 0)%Z; [| destruct (spat_max >? Z.of_nat nspat - 1)%Z];
    do 2 eexists; exact H.
Qed.

(** What the code does keep of the claim: a row marked valid lies in
    the clipped window, from [fmax(spat_min, 0)] up to but not including
    [fmin(spat_max, nspat-1)]; rows outside of it are never valid. *)
Lemma valid_rows_in_clipped_window nspat nsub spat_min spat_max tilts_now err_now c r :
  record_trace nspat nsub spat_min spat_max tilts_now err_now = Ok c ->
  nth r (tilts_mask c) false = true ->
  (slice_bound nspat (row_lo spat_min) <= r < slice_bound nspat (row_hi nspat spat_max))%nat.
Proof.
  intros H Hvalid.
  apply record_trace_store in H as (lo & hi & Hst).
  apply store_tilts_mask in Hst as (vs & Hvs).
  destruct (Nat.lt_ge_cases r (slice_bound nspat (row_lo spat_min))) as [Hlow | Hlow];
    [| destruct (Nat.lt_ge_cases r (slice_bound nspat (row_hi nspat spat_max)))
        as [Hhigh | Hhigh]; [lia |]].
  - rewrite SliceFacts.nth_assign_slice_outside with (1 := Hvs) in Hvalid.
    + simpl in Hvalid. rewrite nth_repeat in Hvalid. discriminate.
    + left. simpl. rewrite repeat_length. exact Hlow.
  - rewrite SliceFacts.nth_assign_slice_outside with (1 := Hvs) in Hvalid.
    + simpl in Hvalid. rewrite nth_repeat in Hvalid. discriminate.
    + right. simpl. rewrite repeat_length. exact Hhigh.
Qed.

(** C6 (the code departs from the claim): the rows kept of a window end
    at [np.fmin(spat_max, nspat-1)], an exclusive bound, so that the last
    row of the detector, [nspat-1], is never traced nor marked valid
    though it is in bounds; and a window that starts left of the detector
    and reaches its last row or beyond is not clipped at all: the
    assignment of line 395 raises [ValueError], whatever the tracer
    returned. *)
Theorem edge_clipping_off_by_one :
  forall (nspat nsub : nat) (spat_min spat_max : Z) (tilts_now err_now : list Q),
    (forall c : columns,
        (0 < nspat)%nat ->
        record_trace nspat nsub spat_min spat_max tilts_now err_now = Ok c ->
        nth (nspat - 1) (tilts_mask c) false = false)
    /\ ((spat_min < 0)%Z -> (Z.of_nat nspat <= spat_max)%Z -> (2 <= nspat)%nat ->
        Z.of_nat nsub = (spat_max - spat_min)%Z ->
        record_trace nspat nsub spat_min spat_max tilts_now err_now = Raise ValueError).
Proof.
  intros nspat nsub spat_min spat_max tilts_now err_now. split.
  - intros c Hpos H.
    apply record_trace_store in H as (lo & hi & Hst).
    apply store_tilts_mask in Hst as (vs & Hvs).
    rewrite SliceFacts.nth_assign_slice_outside with (1 := Hvs).
    + simpl. apply nth_repeat_lt. lia.
    + right. simpl. rewrite repeat_length. unfold slice_bound, row_hi.
      destruct (Z.ltb_spec (Z.min spat_max (Z.of_nat nspat - 1)) 0); lia.
  - intros Hmin Hmax Hn Hsub. unfold record_trace.
    destruct (Z.ltb_spec spat_min 0) as [_ | Hge]; [| lia].
    destruct (store nspat spat_min spat_max (Some (- spat_min)%Z) None tilts_now err_now
                (columns_init nsub nspat)) as [c | e] eqn:Hst.
    + exfalso. apply store_sub_length in Hst as (sub & Hs & t & Ht).
      apply SliceFacts.length_assign_slice in Hs. simpl in Hs. rewrite repeat_length in Hs.
      rewrite SliceFacts.assign_slice_mismatch in Ht; [discriminate | |].
      * rewrite SliceFacts.length_slice, Hs. simpl. rewrite repeat_length.
        unfold slice_bound, row_lo, row_hi.
        repeat match goal with
               | |- context [(?x <? 0)%Z] => destruct (Z.ltb_spec x 0)
               end; lia.
      * rewrite SliceFacts.length_slice, Hs. simpl.
        unfold slice_bound.
        repeat match goal with
               | |- context [(?x <? 0)%Z] => destruct (Z.ltb_spec x 0)
               end; lia.
    + unfold store, rbind in Hst.
      case_res Hst; try discriminate.
      all: match goal with
           | E : assign_slice _ _ _ _ = Raise ?x |- _ =>
               unfold assign_slice in E;
               repeat match type of E with
                      | context [if ?b then _ else _] => destruct b
                      | context [match ?l with [] => _ | _ :: _ => _ end] => destruct l
                      end; try discriminate; inversion E; subst
           end; inversion Hst; reflexivity.
Qed.

(** The window [-3, 12) on a detector of 12 rows, and the window [5, 20)
    on one of 15 rows. *)
Lemma edge_clipping_off_by_one_witness :
  record_trace 12 15 (-3) 12 (repeat 50 11) (repeat 0.1 11) = Raise ValueError
  /\ exists c,
      record_trace 15 15 5 20 (repeat 50 9) (repeat 0.1 9) = Ok c
      /\ nth 14 (tilts_mask c) false = false.
Proof.
  split.
  - apply (proj2 (edge_clipping_off_by_one 12 15 (-3) 12 (repeat 50 11) (repeat 0.1 11)));
      [reflexivity | discriminate | repeat constructor | reflexivity].
  - eexists. split; [reflexivity |].
    apply (proj1 (edge_clipping_off_by_one 15 15 5 20 (repeat 50 9) (repeat 0.1 9)));
      [repeat constructor | reflexivity].
Defined.

(** The window [-3, 12) on a detector of 13 rows or more: exactly the
    rows 0 to 11 are valid, the three rows left of the detector are not. *)
Lemma left_edge_window (nspat : nat) (tilts_now err_now : list Q) :
  (13 <= nspat)%nat -> length tilts_now = 12%nat -> length err_now = 12%nat ->
  exists c,
    record_trace nspat 15 (-3) 12 tilts_now err_now = Ok c
    /\ tilts_sub_mask c = repeat false 3 ++ repeat true 12
    /\ tilts_mask c = repeat true 12 ++ repeat false (nspat - 12).
Proof.
  intros Hn Ht He.
  do 13 (destruct tilts_now as [| ? tilts_now]; try discriminate).
  do 13 (destruct err_now as [| ? err_now]; try discriminate).
  do 13 (destruct nspat as [| nspat]; [lia |]).
  eexists. split; [| split].
  - unfold record_trace. cbn [Z.ltb Z.compare].
    unfold store, rbind, assign_slice, fill_slice, slice, slice_start, slice_stop,
      slice_bound, row_lo, row_hi, columns_init.
    cbn [tilts_sub tilts_sub_err tilts_sub_mask tilts tilts_err tilts_mask].
    rewrite !repeat_length.
    repeat match goal with
           | |- context [Z.min 12 ?x] => replace (Z.min 12 x) with 12%Z by lia
           end.
    lazy. reflexivity.
  - reflexivity.
  - lazy. reflexivity.
Qed.
End LineTracerFacts.

(** * Line selection without candidates *)

Module NoCandidateFacts.
Import LineSelector.

Lemma aduse_init_below (nsig : list Q) (thresh : Q) :
  Forall (fun v => v < thresh) nsig ->
  Forall (fun b => b = false) (aduse_init nsig thresh).
Proof.
  intros H. unfold aduse_init. apply Forall_map.
  eapply Forall_impl; [| exact H]. intros v Hv. unfold Qgeb.
  destruct (Qle_bool thresh v) eqn:Hle; [| reflexivity].
  apply Qle_bool_iff in Hle. exfalso. apply (Qlt_not_le _ _ Hv). exact Hle.
Qed.

Lemma np_sum_bool_all_false (m : list bool) :
  Forall (fun b => b = false) m -> np_sum_bool m = 0%nat.
Proof.
  intros H. unfold np_sum_bool. induction H as [| b m Hb _ IH]; [reflexivity |].
  simpl. rewrite Hb. exact IH.
Qed.

(** Without a peak at or above the threshold no line is selected. *)
Lemma select_lines_below (arcdet nsig : list Q) (thresh n_neigh : Q) :
  Forall (fun v => v < thresh) nsig ->
  exists aduse, select_lines arcdet nsig thresh n_neigh None = Ok aduse
                /\ bool_index arcdet aduse = [].
Proof.
  intros H. exists (aduse_init nsig thresh). split.
  - unfold select_lines, restrict_to_ids, suppress_neighbours.
    rewrite np_sum_bool_all_false by (apply aduse_init_below; exact H). reflexivity.
  - apply VectorFacts.bool_index_all_false. apply aduse_init_below. exact H.
Qed.
End NoCandidateFacts.
(** * Properties of [run] *)

Module RunFacts.
Import WaveTilts.

Section Run.
Variable E : collaborators.
Variable wv_calib_t : Type.
Variable par : WaveTiltsPar.
Variable msarc : image Q.
Variable bpm : option (image Q).
Variable tslits_dict : option tslits.
Variable det : option Z.
Variable detector : list detector_par.

Local Abbreviation run_ := (@run E wv_calib_t par msarc bpm tslits_dict det detector).
Local Abbreviation setup_ := (run_setup E par msarc bpm tslits_dict).
Local Abbreviation slit_ := (@run_slit E wv_calib_t par msarc tslits_dict det detector).
Local Abbreviation trace_ := (@_trace_tilts E wv_calib_t par msarc tslits_dict det detector).
Local Abbreviation given_ := (given_mask tslits_dict).

Lemma run_zero_mode maskslits doqa wv gen s :
  lower (par_method par) = "zero"%string ->
  run_ maskslits doqa wv gen s
  = Returns [OImage (values (outer (linspace (f64_of_Z 0) (f64_of_Z 1) (shape0 msarc))
                                    (ones (shape1 msarc))));
             ONone; ONone]
            (set_final_tilts
               (values (outer (linspace (f64_of_Z 0) (f64_of_Z 1) (shape0 msarc))
                              (ones (shape1 msarc)))) s).
Proof.
  intros Hz. unfold run. rewrite Hz. reflexivity.
Qed.

Lemma run_setup_returns maskslits s ts sm cen am m cf :
  reaches_loop E par msarc bpm tslits_dict maskslits ts sm cen am m cf ->
  setup_ maskslits s
  = Returns (given_ maskslits, where_unmasked m) (after_setup msarc sm cen am m cf s).
Proof.
  intros (Hts & Hsm & Hcen & Hm & Hcf).
  unfold run_setup, _extract_arcs, bind, lift, assign, get, ret, append_step, the_tslits.
  rewrite Hsm. rewrite Hts at 1. cbn [slitmask set_slitmask].
  rewrite Hcen. unfold assign. cbn [fst snd]. rewrite Hm. rewrite Hcf. reflexivity.
Qed.

(** The first statement of [_trace_tilts] raises on a threshold of an
    invalid type, whatever the attributes. *)
Lemma trace_tilts_invalid_thresh slit wv s :
  is_scalar_numeric (par_tracethresh par) = false ->
  is_list_or_array (par_tracethresh par) = false ->
  trace_ slit wv s = Raises ValueError s.
Proof.
  intros Hn Hl. unfold _trace_tilts, bind, lift, tracethresh_of.
  destruct (par_tracethresh par); simpl in Hn, Hl; try discriminate; reflexivity.
Qed.

Lemma run_nonzero maskslits doqa wv gen s :
  lower (par_method par) <> "zero"%string ->
  run_ maskslits doqa wv gen s
  = bind (setup_ maskslits)
         (fun mg => bind (for_each (snd mg) (slit_ doqa wv))
                         (fun _ => run_finish par (fst mg))) s.
Proof.
  intros Hz. unfold run.
  destruct (String.eqb_spec (lower (par_method par)) "zero"); [contradiction | reflexivity].
Qed.

(** [run_setup] hands back the mask it was given. *)
Lemma run_setup_mask maskslits s mg s' :
  setup_ maskslits s = Returns mg s' -> fst mg = given_ maskslits.
Proof.
  cbv beta iota zeta delta [run_setup _extract_arcs bind lift assign get ret append_step].
  intros H.
  case_res H; try discriminate.
  inversion H. reflexivity.
Qed.

Lemma run_returns_pair maskslits doqa wv gen s v s' :
  lower (par_method par) <> "zero"%string ->
  run_ maskslits doqa wv gen s = Returns v s' ->
  exists td, v = [OTiltsDict td; OMask (given_ maskslits)].
Proof.
  intros Hz. rewrite run_nonzero by exact Hz. unfold bind.
  destruct (setup_ maskslits s) as [mg s1 | e s1] eqn:Hs; [| discriminate].
  destruct (for_each (snd mg) (slit_ doqa wv) s1) as [u s2 | e s2]; [| discriminate].
  unfold run_finish, bind, get, assign, ret. intros H. inversion H; subst.
  apply run_setup_mask in Hs. rewrite Hs. eexists. reflexivity.
Qed.

(** An exception in the first slit of the loop leaves [run]. *)
Lemma run_raises_in_first_slit maskslits doqa wv gen s ts sm cen am m cf slit rest e s' :
  lower (par_method par) <> "zero"%string ->
  reaches_loop E par msarc bpm tslits_dict maskslits ts sm cen am m cf ->
  where_unmasked m = slit :: rest ->
  slit_ doqa wv slit (after_setup msarc sm cen am m cf s) = Raises e s' ->
  run_ maskslits doqa wv gen s = Raises e s'.
Proof.
  intros Hz Hr Hgd Hraise. rewrite run_nonzero by exact Hz. unfold bind at 1.
  rewrite run_setup_returns with (1 := Hr). cbn [fst snd]. rewrite Hgd.
  unfold bind at 1. cbn [for_each]. unfold bind at 1. rewrite Hraise. reflexivity.
Qed.
End Run.
End RunFacts.

(** * The zero-tilt mode *)

Module ZeroTiltFacts.
Import WaveTilts.













End ZeroTiltFacts.

(** * What [run] does with masks, failures and parameters *)

Module RunClaims.
Import WaveTilts.

Section Run.
Variable E : collaborators.
Variable wv_calib_t : Type.
Variable par : WaveTiltsPar.
Variable msarc : image Q.
Variable bpm : option (image Q).
Variable tslits_dict : option tslits.
Variable det : option Z.
Variable detector : list detector_par.

Local Abbreviation run_ := (@run E wv_calib_t par msarc bpm tslits_dict det detector).
Local Abbreviation slit_ := (@run_slit E wv_calib_t par msarc tslits_dict det detector).
Local Abbreviation trace_ := (@_trace_tilts E wv_calib_t par msarc tslits_dict det detector).
Local Abbreviation given_ := (given_mask tslits_dict).
Local Abbreviation reaches_ := (reaches_loop E par msarc bpm tslits_dict).

(** With every slit masked [run] returns the empty outputs. *)
Lemma run_returns_when_all_masked maskslits doqa wv gen s ts sm cen am m cf :
  lower (par_method par) <> "zero"%string ->
  reaches_ maskslits ts sm cen am m cf ->
  where_unmasked m = [] ->
  exists td s',
    run_ maskslits doqa wv gen s = Returns [OTiltsDict td; OMask (given_ maskslits)] s'
    /\ steps s' = steps s ++ ["_extract_arcs"%string]
    /\ td_tilts td = Array2 (zeros_like msarc).
Proof.
  intros Hz Hr Hgd. rewrite RunFacts.run_nonzero by exact Hz. unfold bind at 1.
  rewrite RunFacts.run_setup_returns with (1 := Hr). cbn [fst snd]. rewrite Hgd.
  cbv beta iota zeta delta [for_each ret bind run_finish get assign].
  do 2 eexists. split; [reflexivity |]. split; reflexivity.
Qed.

(** [_trace_tilts] on a slit without a peak at the threshold returns
    [None] and assigns nothing. *)
Lemma trace_tilts_no_line slit wv s cen :
  arccen s = Some cen ->
  finds_no_line E par msarc tslits_dict det detector slit cen ->
  trace_ slit wv s = Returns None s.
Proof.
  intros Hcen (thr & nlc & arc_spec & sl & sr & ts & sm & tc & ns & wg & arcdet & nsig
               & Hthr & Hnlc & Hspec & Hts & Hsl & Hsr & Hsm & Hdet & Hpos & Hsig & Hlow).
  destruct (NoCandidateFacts.select_lines_below arcdet nsig 10 15 Hlow)
    as (aduse & Hsel & Hnone).
  unfold _trace_tilts, bind, lift, get, ret, the_tslits.
  rewrite Hthr, Hnlc, Hcen, Hspec, Hts, Hsl, Hsr, Hsm, Hdet. cbn [fst snd].
  rewrite Hpos, Hsig, Hsel, Hnone. reflexivity.
Qed.

(** The path of [_trace_tilts] through the tracing loop ends in an
    exception, at the latest in the [NameError] of line 419. *)
Lemma trace_usable_lines_raises slit slit_left slit_righ thismask lines_spec :
  exists e, trace_usable_lines E msarc slit slit_left slit_righ thismask lines_spec
            = Raise e.
Proof.
  cbv beta iota zeta delta [trace_usable_lines rbind].
  repeat match goal with
         | |- context [match ?r with Ok _ => _ | Raise _ => _ end] => destruct r
         end; eexists; reflexivity.
Qed.

(** Whenever [_trace_tilts] returns, it returns [None] and has
    assigned nothing. *)
Lemma trace_tilts_returns_none slit wv s r s' :
  trace_ slit wv s = Returns r s' -> r = None /\ s' = s.
Proof.
  cbv beta iota zeta delta [_trace_tilts bind lift get ret].
  intros H.
  repeat match type of H with
         | context [match ?r with Ok _ => _ | Raise _ => _ end] =>
             lazymatch r with
             | trace_usable_lines _ _ _ _ _ _ _ => fail
             | _ => destruct r; cbv beta iota zeta in H
             end
         end; try discriminate.
  match type of H with
  | context [if ?b then _ else _] => destruct b
  end.
  - inversion H. split; reflexivity.
  - match type of H with
    | context [trace_usable_lines ?a ?b ?c ?d ?e ?f ?g] =>
        destruct (trace_usable_lines_raises c d e f g) as [x Hx]; rewrite Hx in H
    end.
    discriminate.
Qed.

(** After a [None] from [_trace_tilts], [_analyze_lines] is given the
    dictionary stored for the slit. *)
Lemma run_slit_after_none doqa wv slit s ts e :
  trace_ slit wv s = Returns None s ->
  tslits_dict = Some ts ->
  py_index (all_trcdict s) (Z.of_nat slit) = Ok None ->
  tracewave_analyze_lines E msarc None slit (pixcen ts) (par_order par) (par_function par)
  = Raise e ->
  slit_ doqa wv slit s = Raises e s.
Proof.
  intros Htr Hts Hidx Han. unfold run_slit. unfold bind at 1. rewrite Htr.
  unfold bind at 1. unfold _analyze_lines, bind, get, lift, the_tslits.
  rewrite Hidx, Hts, Han. reflexivity.
Qed.
End Run.

Lemma mask_and_nth (maskslits : list bool) (am : list Z) (m : list bool) (i : nat) :
  length maskslits = length am ->
  mask_and maskslits am = Ok m ->
  length m = length am
  /\ nth i m false = nth i maskslits false && (nth i am 0 =? 1)%Z.
Proof.
  intros Hlen. unfold mask_and. rewrite length_map. rewrite Hlen, Nat.eqb_refl.
  intros H. inversion H as [Hm]. clear H Hm. split.
  - rewrite length_map, length_combine, length_map. lia.
  - revert am i Hlen. induction maskslits as [| b ms IH]; intros [| a am] i Hlen;
      simpl in Hlen; try discriminate.
    + destruct i; reflexivity.
    + destruct i; simpl; [reflexivity |]. apply IH. lia.
Qed.

Lemma In_where_unmasked (m : list bool) (i : nat) :
  In i (where_unmasked m) <-> (i < length m)%nat /\ nth i m false = false.
Proof.
  unfold where_unmasked. rewrite <- (length_map negb m).
  rewrite VectorFacts.In_bool_index_arange. rewrite length_map.
  split; intros [Hi Hn]; split; try exact Hi.
  - rewrite (nth_indep _ false (negb true)) in Hn by (rewrite length_map; exact Hi).
    rewrite map_nth in Hn. rewrite (nth_indep _ false true) by exact Hi.
    now apply negb_true_iff.
  - rewrite (nth_indep _ false (negb true)) by (rewrite length_map; exact Hi).
    rewrite map_nth. rewrite (nth_indep _ false true) in Hn by exact Hi.
    now apply negb_true_iff.
Qed.

(** C1 (the code departs from the claim): a slit whose entry of
    [maskslits] is true, and whose spectrum was extracted (flag other
    than 1), is among the slits that the loop of [run] processes: line 498
    combines the two masks with [&], so that the slit is left unmasked. *)
Theorem masked_slit_is_processed :
  forall (E : collaborators) (wv_calib_t : Type) (par : WaveTiltsPar) (msarc : image Q)
         (bpm : option (image Q)) (tslits_dict : option tslits) (det : option Z)
         (detector : list detector_par) (maskslits : option (list bool)) (doqa : bool)
         (wv_calib : option wv_calib_t) (gen_satmask : bool) (s : attrs)
         (ts : tslits) (sm : image Z) (cen : image Q) (am : list Z) (m : list bool)
         (cf : list (image Q)) (slit : nat),
    lower (par_method par) <> "zero"%string ->
    reaches_loop E par msarc bpm tslits_dict maskslits ts sm cen am m cf ->
    length (given_mask tslits_dict maskslits) = length am ->
    (slit < length am)%nat ->
    nth slit (given_mask tslits_dict maskslits) false = true ->
    nth slit am 0%Z <> 1%Z ->
    exists gdslits : list nat,
      In slit gdslits
      /\ run E par msarc bpm tslits_dict det detector maskslits doqa wv_calib gen_satmask s
         = bind (for_each gdslits (run_slit E par msarc tslits_dict det detector doqa wv_calib))
                (fun _ => run_finish par (given_mask tslits_dict maskslits))
                (after_setup msarc sm cen am m cf s).
Proof.
  intros E W par msarc bpm tsd det detector maskslits doqa wv gen s ts sm cen am m cf slit
         Hz Hr Hlen Hslit Hmasked Hflag.
  exists (where_unmasked m). split.
  - destruct Hr as (_ & _ & _ & Hm & _).
    destruct (mask_and_nth _ _ _ slit Hlen Hm) as [Hlm Hnth].
    apply In_where_unmasked. split; [lia |]. rewrite Hnth, Hmasked.
    destruct (Z.eqb_spec (nth slit am 0%Z) 1); [contradiction | reflexivity].
  - rewrite RunFacts.run_nonzero by exact Hz. unfold bind at 1.
    rewrite RunFacts.run_setup_returns with (1 := Hr). reflexivity.
Qed.

(** C2 (the code departs from the claim): when the first slit of the loop
    yields no peak at the threshold, [_trace_tilts] returns [None], which
    [run] discards; [_analyze_lines] is then called on the missing
    dictionary of the slit, and an exception of it leaves [run]; and if
    [run] returns at all, the mask it returns is the mask it was given,
    with no entry set. *)
Theorem zero_peak_slit_left_unmasked :
  forall (E : collaborators) (wv_calib_t : Type) (par : WaveTiltsPar) (msarc : image Q)
         (bpm : option (image Q)) (tslits_dict : option tslits) (det : option Z)
         (detector : list detector_par) (maskslits : option (list bool)) (doqa : bool)
         (wv_calib : option wv_calib_t) (gen_satmask : bool) (s : attrs)
         (ts : tslits) (sm : image Z) (cen : image Q) (am : list Z) (m : list bool)
         (cf : list (image Q)) (slit : nat) (rest : list nat),
    lower (par_method par) <> "zero"%string ->
    reaches_loop E par msarc bpm tslits_dict maskslits ts sm cen am m cf ->
    where_unmasked m = slit :: rest ->
    finds_no_line E par msarc tslits_dict det detector slit cen ->
    py_index (all_trcdict s) (Z.of_nat slit) = Ok None ->
    _trace_tilts E par msarc tslits_dict det detector slit wv_calib
      (after_setup msarc sm cen am m cf s)
    = Returns None (after_setup msarc sm cen am m cf s)
    /\ (forall e : exn,
          tracewave_analyze_lines E msarc None slit (pixcen ts) (par_order par)
            (par_function par) = Raise e ->
          run E par msarc bpm tslits_dict det detector maskslits doqa wv_calib gen_satmask s
          = Raises e (after_setup msarc sm cen am m cf s))
    /\ (forall (v : list pyobj) (s' : attrs),
          run E par msarc bpm tslits_dict det detector maskslits doqa wv_calib gen_satmask s
          = Returns v s' ->
          exists td, v = [OTiltsDict td; OMask (given_mask tslits_dict maskslits)]).
Proof.
  intros E W par msarc bpm tsd det detector maskslits doqa wv gen s ts sm cen am m cf slit rest
         Hz Hr Hgd Hnone Hidx.
  assert (Htr : _trace_tilts E par msarc tsd det detector slit wv
                  (after_setup msarc sm cen am m cf s)
                = Returns None (after_setup msarc sm cen am m cf s)).
  { eapply trace_tilts_no_line; [reflexivity | exact Hnone]. }
  split; [exact Htr |]. split.
  - intros e Han.
    eapply RunFacts.run_raises_in_first_slit; [exact Hz | exact Hr | exact Hgd |].
    eapply run_slit_after_none; [exact Htr | | exact Hidx | exact Han].
    destruct Hr as (Hts & _). exact Hts.
  - intros v s' Hret. eapply RunFacts.run_returns_pair; [exact Hz | exact Hret].
Qed.

(** C7, as amended: with a tracing threshold of an invalid type and a
    method other than "zero", [ValueError] is raised when the loop of
    [run] enters [_trace_tilts] for the first unmasked slit: the arc
    spectra are extracted by then ([steps] has [_extract_arcs], the
    spectra, the masks and the empty outputs are assigned), and nothing
    of that slit is detected or traced.  With every slit masked, or with
    the method "zero", [run] returns and raises nothing. *)
Theorem invalid_tracethresh_after_extraction :
  forall (E : collaborators) (wv_calib_t : Type) (par : WaveTiltsPar) (msarc : image Q)
         (bpm : option (image Q)) (tslits_dict : option tslits) (det : option Z)
         (detector : list detector_par) (maskslits : option (list bool)) (doqa : bool)
         (wv_calib : option wv_calib_t) (gen_satmask : bool) (s : attrs),
    is_scalar_numeric (par_tracethresh par) = false ->
    is_list_or_array (par_tracethresh par) = false ->
    (forall ts sm cen am m cf slit rest,
        lower (par_method par) <> "zero"%string ->
        reaches_loop E par msarc bpm tslits_dict maskslits ts sm cen am m cf ->
        where_unmasked m = slit :: rest ->
        run E par msarc bpm tslits_dict det detector maskslits doqa wv_calib gen_satmask s
        = Raises ValueError (after_setup msarc sm cen am m cf s)
        /\ steps (after_setup msarc sm cen am m cf s) = steps s ++ ["_extract_arcs"%string]
        /\ arccen (after_setup msarc sm cen am m cf s) = Some cen)
    /\ (forall ts sm cen am m cf,
           lower (par_method par) <> "zero"%string ->
           reaches_loop E par msarc bpm tslits_dict maskslits ts sm cen am m cf ->
           where_unmasked m = [] ->
           exists v s',
             run E par msarc bpm tslits_dict det detector maskslits doqa wv_calib
               gen_satmask s = Returns v s')
    /\ (lower (par_method par) = "zero"%string ->
        exists v s',
          run E par msarc bpm tslits_dict det detector maskslits doqa wv_calib
            gen_satmask s = Returns v s').
Proof.
  intros E W par msarc bpm tsd det detector maskslits doqa wv gen s Hnum Hlist.
  split; [| split].
  - intros ts sm cen am m cf slit rest Hz Hr Hgd. split; [| split; reflexivity].
    eapply RunFacts.run_raises_in_first_slit; [exact Hz | exact Hr | exact Hgd |].
    unfold run_slit. unfold bind at 1.
    rewrite RunFacts.trace_tilts_invalid_thresh by assumption. reflexivity.
  - intros ts sm cen am m cf Hz Hr Hgd.
    destruct (run_returns_when_all_masked E W par msarc bpm tsd det detector maskslits doqa wv gen s
                ts sm cen am m cf Hz Hr Hgd)
      as (td & s' & Hrun & _).
    eauto.
  - intros Hz. do 2 eexists. apply RunFacts.run_zero_mode. exact Hz.
Qed.

(** C10: with the method "zero" [run] returns the three-element tuple
    (image, None, None); with any other method it returns, whenever it
    returns, the two-element tuple of the dictionary of tilts and the mask
    it was given, and it does return when its collaborators let it reach
    the loop with every slit masked. *)
Theorem run_result_shape :
  forall (E : collaborators) (wv_calib_t : Type) (par : WaveTiltsPar) (msarc : image Q)
         (bpm : option (image Q)) (tslits_dict : option tslits) (det : option Z)
         (detector : list detector_par) (maskslits : option (list bool)) (doqa : bool)
         (wv_calib : option wv_calib_t) (gen_satmask : bool) (s : attrs),
    (lower (par_method par) = "zero"%string ->
     exists img s',
       run E par msarc bpm tslits_dict det detector maskslits doqa wv_calib gen_satmask s
       = Returns [OImage img; ONone; ONone] s')
    /\ (lower (par_method par) <> "zero"%string ->
        (forall v s',
            run E par msarc bpm tslits_dict det detector maskslits doqa wv_calib gen_satmask s
            = Returns v s' ->
            exists td, v = [OTiltsDict td; OMask (given_mask tslits_dict maskslits)])
        /\ (forall ts sm cen am m cf,
               reaches_loop E par msarc bpm tslits_dict maskslits ts sm cen am m cf ->
               where_unmasked m = [] ->
               exists td s',
                 run E par msarc bpm tslits_dict det detector maskslits doqa wv_calib
                   gen_satmask s
                 = Returns [OTiltsDict td; OMask (given_mask tslits_dict maskslits)] s')).
Proof.
  intros E W par msarc bpm tsd det detector maskslits doqa wv gen s. split.
  - intros Hz. do 2 eexists. apply RunFacts.run_zero_mode. exact Hz.
  - intros Hz. split.
    + intros v s' Hret. eapply RunFacts.run_returns_pair; [exact Hz | exact Hret].
    + intros ts sm cen am m cf Hr Hgd.
      destruct (run_returns_when_all_masked E W par msarc bpm tsd det detector maskslits doqa wv gen
                  s ts sm cen am m cf Hz Hr Hgd) as (td & s' & Hrun & _).
      eauto.
Qed.
End RunClaims.

(** * Runs of the sample exposure *)

Module RunSamples.
Import WaveTilts.

Lemma spca_is_not_zero : lower "spca" <> "zero"%string.
Proof. intros H; vm_compute in H; discriminate H. Qed.

Lemma sample_reaches_loop (peaks : list Q * list Z * list Q) (lenient : bool)
      (thresh : pyval) (flag : Z) (given : bool) :
  reaches_loop (Sample.collab peaks [flag] lenient) (Sample.par_of "spca" thresh)
    Sample.msarc None (Some Sample.slits) (Some [given]) Sample.slits Sample.membership
    Sample.spectra [flag] [given && (flag =? 1)%Z] Sample.zero_coeffs.
Proof. repeat split; reflexivity. Qed.

(** The sample slit, masked by the caller, is in the loop of [run]. *)
Lemma masked_slit_is_processed_witness :
  nth 0 [true] false = true /\ nth 0 [0%Z] 0%Z <> 1%Z /\
  exists gdslits : list nat,
    In 0%nat gdslits
    /\ Sample.run_sample Sample.no_peaks [0%Z] false "spca" (PyFloat 10) (Some [true])
       = bind (for_each gdslits
                 (run_slit (Sample.collab Sample.no_peaks [0%Z] false)
                    (Sample.par_of "spca" (PyFloat 10)) Sample.msarc (Some Sample.slits)
                    (Some 1%Z) Sample.detector true (@None unit)))
              (fun _ => run_finish (Sample.par_of "spca" (PyFloat 10)) [true])
              (after_setup Sample.msarc Sample.membership Sample.spectra [0%Z] [false]
                 Sample.zero_coeffs (init 1)).
Proof.
  split; [reflexivity |]. split; [discriminate |].
  apply (RunClaims.masked_slit_is_processed
           (Sample.collab Sample.no_peaks [0%Z] false) unit
           (Sample.par_of "spca" (PyFloat 10)) Sample.msarc None (Some Sample.slits)
           (Some 1%Z) Sample.detector (Some [true]) true None false (init 1)
           Sample.slits Sample.membership Sample.spectra [0%Z] [false] Sample.zero_coeffs
           0%nat).
  - exact spca_is_not_zero.
  - exact (sample_reaches_loop Sample.no_peaks false (PyFloat 10) 0 true).
  - reflexivity.
  - simpl. lia.
  - reflexivity.
  - discriminate.
Defined.

(** With collaborators that let the stages complete, the pixels of the
    slit masked by the caller are overwritten with the fitted tilts. *)
Lemma masked_slit_pixels_written :
  exists td s',
    Sample.run_sample Sample.no_peaks [0%Z] true "spca" (PyFloat 10) (Some [true])
    = Returns [OTiltsDict td; OMask [true]] s'
    /\ final_tilts s' = Some [[0; 0; 0; 0.5; 0.5; 0.5; 0; 0; 0];
                               [0; 0; 0; 0.5; 0.5; 0.5; 0; 0; 0]]
    /\ steps s' = ["_extract_arcs"; "_analyze_lines"; "_fit_tilts"]%string.
Proof. do 2 eexists. split; [vm_compute; reflexivity |]. split; reflexivity. Qed.

(** With a strong peak in the masked slit, its tracing is started and
    ends in the [NameError] of line 419. *)
Lemma masked_slit_traced :
  Sample.run_sample Sample.one_peak [0%Z] false "spca" (PyFloat 10) (Some [true])
  = Raises NameError (after_setup Sample.msarc Sample.membership Sample.spectra [0%Z]
                        [false] Sample.zero_coeffs (init 1)).
Proof. vm_compute. reflexivity. Qed.

Lemma sample_finds_no_line (lenient : bool) :
  finds_no_line (Sample.collab Sample.faint_peak [0%Z] lenient)
    (Sample.par_of "spca" (PyFloat 10)) Sample.msarc (Some Sample.slits) (Some 1%Z)
    Sample.detector 0 Sample.spectra.
Proof.
  unfold finds_no_line.
  exists 10, (65535 * 0.9), [6; 9], [3; 3], [5; 5], Sample.slits, Sample.membership,
    [1], [8], [0%Z], [1], [8].
  repeat split; try reflexivity.
  constructor; [reflexivity | constructor].
Qed.

(** The sample slit with one peak of significance 8: the exception of
    [analyze_lines] on the missing dictionary reaches the caller; with
    lenient collaborators [run] returns the mask [False] it was given and
    a slit region that is not zero. *)
Lemma zero_peak_slit_left_unmasked_witness :
  Sample.run_sample Sample.faint_peak [0%Z] false "spca" (PyFloat 10) (Some [false])
  = Raises TypeError (after_setup Sample.msarc Sample.membership Sample.spectra [0%Z]
                        [false] Sample.zero_coeffs (init 1))
  /\ exists td s',
      Sample.run_sample Sample.faint_peak [0%Z] true "spca" (PyFloat 10) (Some [false])
      = Returns [OTiltsDict td; OMask [false]] s'
      /\ final_tilts s' = Some [[0; 0; 0; 0.5; 0.5; 0.5; 0; 0; 0];
                                 [0; 0; 0; 0.5; 0.5; 0.5; 0; 0; 0]].
Proof.
  split.
  - destruct (RunClaims.zero_peak_slit_left_unmasked
                (Sample.collab Sample.faint_peak [0%Z] false) unit
                (Sample.par_of "spca" (PyFloat 10)) Sample.msarc None (Some Sample.slits)
                (Some 1%Z) Sample.detector (Some [false]) true None false (init 1)
                Sample.slits Sample.membership Sample.spectra [0%Z] [false]
                Sample.zero_coeffs 0%nat [] spca_is_not_zero
                (sample_reaches_loop Sample.faint_peak false (PyFloat 10) 0 false)
                eq_refl (sample_finds_no_line false) eq_refl) as (_ & Hraise & _).
    apply (Hraise TypeError). reflexivity.
  - destruct (RunClaims.zero_peak_slit_left_unmasked
                (Sample.collab Sample.faint_peak [0%Z] true) unit
                (Sample.par_of "spca" (PyFloat 10)) Sample.msarc None (Some Sample.slits)
                (Some 1%Z) Sample.detector (Some [false]) true None false (init 1)
                Sample.slits Sample.membership Sample.spectra [0%Z] [false]
                Sample.zero_coeffs 0%nat [] spca_is_not_zero
                (sample_reaches_loop Sample.faint_peak true (PyFloat 10) 0 false)
                eq_refl (sample_finds_no_line true) eq_refl) as (_ & _ & Hret).
    do 2 eexists. split; [vm_compute; reflexivity |]. reflexivity.
Defined.

(** C7 (the claim fails): with a threshold that is a string, the sample
    run raises [ValueError] only after the arc spectra were extracted and
    assigned; with its only slit masked, or with the method "zero", it
    returns and raises nothing. *)
Lemma invalid_tracethresh_raised_late :
  (exists s',
      Sample.run_sample Sample.no_peaks [0%Z] false "spca" (PyStr "high") None
      = Raises ValueError s'
      /\ steps s' = ["_extract_arcs"%string]
      /\ arccen s' = Some Sample.spectra)
  /\ (exists v s',
         Sample.run_sample Sample.no_peaks [1%Z] false "spca" (PyStr "high") (Some [true])
         = Returns v s')
  /\ (exists v s',
         Sample.run_sample Sample.no_peaks [0%Z] false "zero" (PyStr "high") None
         = Returns v s').
Proof.
  split; [| split].
  - eexists. split; [vm_compute; reflexivity |]. split; reflexivity.
  - do 2 eexists. vm_compute. reflexivity.
  - do 2 eexists. vm_compute. reflexivity.
Qed.

(** The three cases of the amended C7 on the sample exposure. *)
Lemma invalid_tracethresh_after_extraction_witness :
  is_scalar_numeric (PyStr "high") = false /\ is_list_or_array (PyStr "high") = false /\
  Sample.run_sample Sample.no_peaks [0%Z] false "spca" (PyStr "high") (Some [false])
  = Raises ValueError (after_setup Sample.msarc Sample.membership Sample.spectra [0%Z]
                         [false] Sample.zero_coeffs (init 1))
  /\ (exists v s',
         Sample.run_sample Sample.no_peaks [1%Z] false "spca" (PyStr "high") (Some [true])
         = Returns v s')
  /\ (exists v s',
         Sample.run_sample Sample.no_peaks [0%Z] false "zero" (PyStr "high") None
         = Returns v s').
Proof.
  split; [reflexivity |]. split; [reflexivity |]. split; [| split].
  - exact (proj1 (proj1 (RunClaims.invalid_tracethresh_after_extraction
             (Sample.collab Sample.no_peaks [0%Z] false) unit
             (Sample.par_of "spca" (PyStr "high")) Sample.msarc None (Some Sample.slits)
             (Some 1%Z) Sample.detector (Some [false]) true None false (init 1)
             eq_refl eq_refl)
             Sample.slits Sample.membership Sample.spectra [0%Z] [false]
             Sample.zero_coeffs 0%nat [] spca_is_not_zero
             (sample_reaches_loop Sample.no_peaks false (PyStr "high") 0 false) eq_refl)).
  - exact (proj1 (proj2 (RunClaims.invalid_tracethresh_after_extraction
             (Sample.collab Sample.no_peaks [1%Z] false) unit
             (Sample.par_of "spca" (PyStr "high")) Sample.msarc None (Some Sample.slits)
             (Some 1%Z) Sample.detector (Some [true]) true None false (init 1)
             eq_refl eq_refl))
             Sample.slits Sample.membership Sample.spectra [1%Z] [true]
             Sample.zero_coeffs spca_is_not_zero
             (sample_reaches_loop Sample.no_peaks false (PyStr "high") 1 true) eq_refl).
  - exact (proj2 (proj2 (RunClaims.invalid_tracethresh_after_extraction
             (Sample.collab Sample.no_peaks [0%Z] false) unit
             (Sample.par_of "zero" (PyStr "high")) Sample.msarc None (Some Sample.slits)
             (Some 1%Z) Sample.detector None true None false (init 1)
             eq_refl eq_refl)) eq_refl).
Defined.

(** The two shapes of the result on the sample exposure. *)
Lemma run_result_shape_witness :
  (exists img s',
      Sample.run_sample Sample.one_peak [0%Z] false "ZERO" (PyFloat 10) None
      = Returns [OImage img; ONone; ONone] s')
  /\ (exists td s',
         Sample.run_sample Sample.one_peak [1%Z] false "spca" (PyFloat 10) (Some [true])
         = Returns [OTiltsDict td; OMask [true]] s').
Proof.
  split.
  - exact (proj1 (RunClaims.run_result_shape
             (Sample.collab Sample.one_peak [0%Z] false) unit
             (Sample.par_of "ZERO" (PyFloat 10)) Sample.msarc None (Some Sample.slits)
             (Some 1%Z) Sample.detector None true None false (init 1)) eq_refl).
  - exact (proj2 (proj2 (RunClaims.run_result_shape
             (Sample.collab Sample.one_peak [1%Z] false) unit
             (Sample.par_of "spca" (PyFloat 10)) Sample.msarc None (Some Sample.slits)
             (Some 1%Z) Sample.detector (Some [true]) true None false (init 1))
             spca_is_not_zero)
             Sample.slits Sample.membership Sample.spectra [1%Z] [true]
             Sample.zero_coeffs
             (sample_reaches_loop Sample.one_peak false (PyFloat 10) 1 true) eq_refl).
Defined.
End RunSamples.

(** * Loading a master file *)

Module LoadMasterFacts.
Import WaveTilts.

(** C9 (the claim fails): the sample master file of the arc exists and
    has a primary HDU only; [load_master] raises on it, at [hdu[1]]. *)
Lemma load_master_existing_file_raises :
  Sample.disk "MasterArc_A_01_aa.fits"%string = Some Sample.arc_file
  /\ load_master Sample.disk "MasterArc_A_01_aa.fits" 0 false = Raise IndexError.
Proof. split; reflexivity. Qed.

(** C9, as amended: on a path without a file [load_master] returns
    [None] unless [force], and raises with [force]; on a FITS file with
    two HDUs or more whose second header has [FUNC2D] it returns the
    dictionary of the two arrays and of that entry; on every other
    existing file it raises. *)
Theorem load_master_cases :
  forall (fs : filesystem) (filename : string) (exten : Z),
    (fs filename = None ->
     load_master fs filename exten false = Ok None
     /\ load_master fs filename exten true = Raise PypeItError)
    /\ (forall (force : bool) (h0 h1 : hdu) (rest : list hdu) (f2d : string),
           fs filename = Some (FitsFile (h0 :: h1 :: rest)) ->
           header_get (hdu_header h1) "FUNC2D" = Ok f2d ->
           load_master fs filename exten force
           = Ok (Some {| td_tilts := hdu_data h0; td_coeffs := hdu_data h1;
                         td_func2D := f2d |}))
    /\ (forall (force : bool) (f : file) (r : option tilts_dict_t),
           fs filename = Some f ->
           load_master fs filename exten force = Ok r ->
           exists h0 h1 rest f2d,
             f = FitsFile (h0 :: h1 :: rest)
             /\ header_get (hdu_header h1) "FUNC2D" = Ok f2d).
Proof.
  intros fs filename exten. split; [| split].
  - intros Hnone. unfold load_master. rewrite Hnone. split; reflexivity.
  - intros force h0 h1 rest f2d Hsome Hkey. unfold load_master. rewrite Hsome.
    cbn [fits_open rbind]. change 0%Z with (Z.of_nat 0). change 1%Z with (Z.of_nat 1).
    rewrite !VectorFacts.py_index_of_nat. cbn [nth_error rbind]. rewrite Hkey. reflexivity.
  - intros force f r Hsome. unfold load_master. rewrite Hsome.
    destruct f as [| hdul]; [discriminate |].
    cbn [fits_open rbind]. change 0%Z with (Z.of_nat 0). change 1%Z with (Z.of_nat 1).
    rewrite !VectorFacts.py_index_of_nat.
    destruct hdul as [| h0 [| h1 rest]]; cbn [nth_error rbind]; try discriminate.
    destruct (header_get (hdu_header h1) "FUNC2D") as [f2d | e] eqn:Hkey; [| discriminate].
    intros _. exists h0, h1, rest, f2d. split; [reflexivity | exact Hkey].
Qed.

(** The three cases on the sample disk. *)
Lemma load_master_cases_witness :
  (load_master Sample.disk "absent.fits" 0 false = Ok None
   /\ load_master Sample.disk "absent.fits" 0 true = Raise PypeItError)
  /\ load_master Sample.disk "MasterTilts_A_01_aa.fits" 0 false
     = Ok (Some {| td_tilts := Array2 Sample.msarc; td_coeffs := Array3 [];
                   td_func2D := "legendre" |}).
Proof.
  split.
  - exact (proj1 (load_master_cases Sample.disk "absent.fits" 0) eq_refl).
  - exact (proj1 (proj2 (load_master_cases Sample.disk "MasterTilts_A_01_aa.fits" 0))
             false _ _ _ _ eq_refl eq_refl).
Defined.
End LoadMasterFacts.

(** * Line selection *)

Module LineSelectorFacts.
Import LineSelector.

(** ** Boolean masks and loops over the selected indices *)

Lemma bool_index_as_map {A} (d : A) (a : list A) (m : list bool) (k : nat) :
  length a = length m ->
  bool_index a m = map (fun i => nth (i - k) a d) (bool_index (seq k (length m)) m).
Proof.
  revert m k. induction a as [| x a IH]; intros [| b m] k Hlen; simpl in Hlen;
    try discriminate; [reflexivity |].
  simpl. rewrite (IH m (S k)) by lia.
  assert (Hmap : map (fun i => nth (i - S k) a d) (bool_index (seq (S k) (length m)) m)
                 = map (fun i => nth (i - k) (x :: a) d)
                       (bool_index (seq (S k) (length m)) m)).
  { apply map_ext_in. intros i Hi. apply VectorFacts.In_bool_index_seq in Hi.
    destruct Hi as [Hr _]. replace (i - k)%nat with (S (i - S k)) by lia. reflexivity. }
  destruct b; simpl.
  - rewrite Nat.sub_diag. simpl. f_equal. exact Hmap.
  - exact Hmap.
Qed.

Lemma np_sum_bool_index (m : list bool) (k : nat) :
  np_sum_bool m = length (bool_index (seq k (length m)) m).
Proof.
  unfold np_sum_bool. revert k. induction m as [| b m IH]; intros k; [reflexivity |].
  simpl. destruct b; simpl; now rewrite (IH (S k)).
Qed.

Lemma fold_left_ext_in {A B} (f g : A -> B -> A) (l : list B) (a : A) :
  (forall x y, In y l -> f x y = g x y) -> fold_left f l a = fold_left g l a.
Proof.
  revert a. induction l as [| y l IH]; intros a H; [reflexivity |].
  simpl. rewrite H by (left; reflexivity). apply IH. intros x z Hz. apply H. now right.
Qed.

(** A loop over the positions of a list is a loop over its elements. *)
Lemma fold_left_positions {A} (g : A -> nat -> A) (idx pre : list nat) (a : A) :
  fold_left (fun acc s => g acc (nth s (pre ++ idx) 0%nat)) (seq (length pre) (length idx)) a
  = fold_left g idx a.
Proof.
  revert pre a. induction idx as [| i idx IH]; intros pre a; [reflexivity |].
  simpl. rewrite app_nth2 by lia. rewrite Nat.sub_diag. simpl.
  specialize (IH (pre ++ [i]) (g a i)).
  rewrite length_app in IH. simpl in IH. rewrite Nat.add_1_r in IH.
  rewrite <- IH. apply fold_left_ext_in. intros x s _.
  now rewrite <- app_assoc.
Qed.

Lemma clear_flagged_length flag idx aduse :
  length (fold_left (clear_flagged flag) idx aduse) = length aduse.
Proof.
  revert aduse. induction idx as [| j idx IH]; intros aduse; [reflexivity |].
  simpl. rewrite IH. unfold clear_flagged.
  destruct (flag j); [apply VectorFacts.set_at_length | reflexivity].
Qed.

Lemma clear_flagged_nth flag idx aduse i :
  (i < length aduse)%nat ->
  nth i (fold_left (clear_flagged flag) idx aduse) false
  = nth i aduse false && negb (existsb (Nat.eqb i) idx && flag i).
Proof.
  revert aduse. induction idx as [| j idx IH]; intros aduse Hi.
  - simpl. now rewrite andb_true_r.
  - simpl. rewrite IH.
    + unfold clear_flagged. destruct (Nat.eqb_spec i j) as [<- | Hne].
      * destruct (flag i) eqn:Hf.
        -- rewrite VectorFacts.nth_set_at_same by exact Hi. simpl.
           now rewrite andb_false_r.
        -- simpl. now rewrite !andb_false_r.
      * destruct (flag j); [| reflexivity].
        rewrite VectorFacts.nth_set_at_other by (intros ->; now apply Hne). reflexivity.
    + unfold clear_flagged. destruct (flag j); [| exact Hi].
      now rewrite VectorFacts.set_at_length.
Qed.

Lemma existsb_eqb_In (i : nat) (l : list nat) : existsb (Nat.eqb i) l = true <-> In i l.
Proof.
  rewrite existsb_exists. split.
  - intros (x & Hx & Heq). apply Nat.eqb_eq in Heq. now subst.
  - intros H. exists i. split; [exact H | apply Nat.eqb_refl].
Qed.

(** Clearing along the indices that the vector itself selects. *)
Lemma clear_flagged_selected flag aduse i :
  (i < length aduse)%nat ->
  nth i (fold_left (clear_flagged flag) (bool_index (arange (length aduse)) aduse) aduse) false
  = nth i aduse false && negb (flag i).
Proof.
  intros Hi. rewrite clear_flagged_nth by exact Hi.
  destruct (nth i aduse false) eqn:Hn; [| reflexivity].
  assert (Hin : existsb (Nat.eqb i) (bool_index (arange (length aduse)) aduse) = true).
  { apply existsb_eqb_In. apply VectorFacts.In_bool_index_arange. now split. }
  now rewrite Hin.
Qed.

(** ** Neighbour suppression *)

Section Suppression.
Variables (arcdet nsig : list Q).
Variables (tracethresh n_neigh : Q).
Hypothesis same_length : length arcdet = length nsig.

Local Abbreviation olduse := (aduse_init nsig tracethresh).

Lemma aduse_init_length : length olduse = length arcdet.
Proof. unfold aduse_init. now rewrite length_map. Qed.

Lemma nth_aduse_init i :
  (i < length arcdet)%nat ->
  nth i olduse false = Qle_bool tracethresh (nth i nsig 0).
Proof.
  intros Hi. unfold aduse_init.
  rewrite (nth_indep _ false (Qgeb 0 tracethresh)) by (rewrite length_map; lia).
  now rewrite (map_nth (fun v => Qgeb v tracethresh)).
Qed.

Lemma suppress_step_selected aduse s :
  (s < length (bool_index (arange (length arcdet)) olduse))%nat ->
  suppress_step arcdet nsig n_neigh olduse aduse s
  = clear_flagged (outshone arcdet nsig n_neigh) aduse
      (nth s (bool_index (arange (length arcdet)) olduse) 0%nat).
Proof.
  intros Hs. unfold suppress_step, clear_flagged, outshone.
  set (idx := bool_index (arange (length arcdet)) olduse) in *.
  assert (Hdet : nth s (bool_index arcdet olduse) 0 = nth (nth s idx 0%nat) arcdet 0).
  { rewrite (bool_index_as_map 0 arcdet olduse 0) by (now rewrite aduse_init_length).
    rewrite aduse_init_length. fold (arange (length arcdet)). fold idx.
    rewrite (nth_indep _ 0 (nth (0 - 0) arcdet 0)) by (rewrite length_map; exact Hs).
    rewrite (map_nth (fun i => nth (i - 0) arcdet 0)). now rewrite Nat.sub_0_r. }
  assert (Hsig : nth s (bool_index nsig olduse) 0 = nth (nth s idx 0%nat) nsig 0).
  { rewrite (bool_index_as_map 0 nsig olduse 0)
      by (rewrite aduse_init_length; now symmetry).
    rewrite aduse_init_length. fold (arange (length arcdet)). fold idx.
    rewrite (nth_indep _ 0 (nth (0 - 0) nsig 0)) by (rewrite length_map; exact Hs).
    rewrite (map_nth (fun i => nth (i - 0) nsig 0)). now rewrite Nat.sub_0_r. }
  rewrite Hdet, Hsig. reflexivity.
Qed.

(** The loop of lines 329-334 clears the candidates that are
    outshone. *)
Lemma suppress_neighbours_as_clear :
  suppress_neighbours arcdet nsig tracethresh n_neigh
  = fold_left (clear_flagged (outshone arcdet nsig n_neigh)) (bool_index (arange (length olduse)) olduse) olduse.
Proof.
  unfold suppress_neighbours.
  rewrite (np_sum_bool_index olduse 0). rewrite aduse_init_length.
  fold (arange (length arcdet)).
  set (idx := bool_index (arange (length arcdet)) olduse).
  rewrite <- (fold_left_positions (clear_flagged (outshone arcdet nsig n_neigh)) idx [] olduse).
  unfold arange. simpl (length []). simpl ([] ++ idx).
  apply fold_left_ext_in. intros aduse s Hs. apply in_seq in Hs.
  apply suppress_step_selected. fold idx. lia.
Qed.

Lemma suppress_neighbours_length :
  length (suppress_neighbours arcdet nsig tracethresh n_neigh) = length arcdet.
Proof.
  rewrite suppress_neighbours_as_clear, clear_flagged_length. apply aduse_init_length.
Qed.

Lemma nth_suppress_neighbours i :
  (i < length arcdet)%nat ->
  nth i (suppress_neighbours arcdet nsig tracethresh n_neigh) false
  = Qle_bool tracethresh (nth i nsig 0) && negb (outshone arcdet nsig n_neigh i).
Proof.
  intros Hi. rewrite suppress_neighbours_as_clear.
  rewrite clear_flagged_selected by (rewrite aduse_init_length; exact Hi).
  now rewrite nth_aduse_init.
Qed.

Lemma outshone_spec i :
  outshone arcdet nsig n_neigh i = true
  <-> exists j, (j < length arcdet)%nat
                /\ 1 <= Qabs (nth j arcdet 0 - nth i arcdet 0) <= n_neigh
                /\ nth i nsig 0 < nth j nsig 0.
Proof.
  unfold outshone, brighter, near. rewrite existsb_exists. split.
  - intros (j & Hj & Hgt). apply filter_In in Hj. destruct Hj as [Hj Hd].
    apply in_seq in Hj. apply andb_true_iff in Hd. destruct Hd as [Hle Hge].
    unfold Qgeb in Hge. apply Qle_bool_iff in Hle, Hge.
    unfold Qgtb in Hgt. apply negb_true_iff in Hgt.
    exists j. split; [lia |]. split; [split; assumption |].
    apply Qnot_le_lt. intros Hc. apply Qle_bool_iff in Hc. congruence.
  - intros (j & Hj & [Hge Hle] & Hgt). exists j. split.
    + apply filter_In. split; [apply in_seq; lia |].
      apply andb_true_iff. split; [| unfold Qgeb]; now apply Qle_bool_iff.
    + unfold Qgtb. apply negb_true_iff.
      destruct (Qle_bool (nth j nsig 0) (nth i nsig 0)) eqn:Hc; [| reflexivity].
      apply Qle_bool_iff in Hc. exfalso. now apply (Qlt_not_le _ _ Hgt).
Qed.
End Suppression.

(** ** Restriction to expected positions *)

Lemma rfold_total {A B} (body : A -> B -> res A) (g : A -> B -> A) (xs : list B) (a : A) :
  (forall x y, body x y = Ok (g x y)) -> rfold body xs a = Ok (fold_left g xs a).
Proof.
  intros H. revert a. induction xs as [| y xs IH]; intros a; [reflexivity |].
  simpl. rewrite H. simpl. apply IH.
Qed.

Lemma fold_left_Qmin_le (l : list Q) (x y : Q) :
  y = x \/ In y l -> fold_left Qmin l x <= y.
Proof.
  revert x y. induction l as [| z l IH]; intros x y [-> | Hin]; simpl.
  - apply Qle_refl.
  - contradiction.
  - eapply Qle_trans; [apply IH; now left | apply Q.le_min_l].
  - destruct Hin as [-> | Hin].
    + eapply Qle_trans; [apply IH; now left | apply Q.le_min_r].
    + apply IH. now right.
Qed.

Lemma fold_left_Qmin_In (l : list Q) (x : Q) :
  fold_left Qmin l x = x \/ In (fold_left Qmin l x) l.
Proof.
  revert x. induction l as [| z l IH]; intros x; [now left |].
  simpl. destruct (IH (Qmin x z)) as [Heq | Hin].
  - rewrite Heq. unfold Qmin, GenericMinMax.gmin.
    destruct (x ?= z); [now left | now left | right; now left].
  - right. now right.
Qed.

Section Restriction.
Variables (arcdet : list Q) (ids_pix : list Q).
Hypothesis some_position : ids_pix <> [].

Local Abbreviation gap := (fun (s : nat) (p : Q) => Qabs (nth s arcdet 0 - p)).

Lemma restrict_step_total aduse s :
  restrict_step arcdet ids_pix aduse s
  = Ok (clear_flagged (unidentified arcdet ids_pix) aduse s).
Proof.
  unfold restrict_step, clear_flagged, unidentified.
  destruct ids_pix as [| p r]; [contradiction |]. cbn [np_min map rbind].
  destruct (Qgtb _ 2); reflexivity.
Qed.

Lemma unidentified_far s :
  (forall p, In p ids_pix -> 2 < gap s p) -> unidentified arcdet ids_pix s = true.
Proof.
  intros Hfar. unfold unidentified.
  destruct ids_pix as [| p r]; [contradiction |]. cbn [np_min map rbind].
  unfold Qgtb. apply negb_true_iff.
  destruct (Qle_bool _ 2) eqn:Hle; [| reflexivity]. apply Qle_bool_iff in Hle.
  exfalso. revert Hle. apply Qlt_not_le.
  destruct (fold_left_Qmin_In (map (gap s) r) (gap s p)) as [Heq | Hin].
  - rewrite Heq. apply Hfar. now left.
  - apply in_map_iff in Hin. destruct Hin as (q & Hq & Hin). rewrite <- Hq.
    apply Hfar. now right.
Qed.

Lemma unidentified_near s p :
  In p ids_pix -> gap s p <= 2 -> unidentified arcdet ids_pix s = false.
Proof.
  intros Hin Hnear. unfold unidentified.
  destruct ids_pix as [| p0 r]; [contradiction |]. cbn [np_min map rbind].
  unfold Qgtb. apply negb_false_iff. apply Qle_bool_iff.
  eapply Qle_trans; [| exact Hnear]. apply fold_left_Qmin_le.
  destruct Hin as [-> | Hin]; [now left | right].
  apply in_map_iff. exists p. now split.
Qed.

Lemma restrict_to_ids_total aduse :
  length aduse = length arcdet ->
  exists final,
    restrict_to_ids arcdet (Some ids_pix) aduse = Ok final
    /\ length final = length arcdet
    /\ forall i, (i < length arcdet)%nat ->
                 nth i final false
                 = nth i aduse false && negb (unidentified arcdet ids_pix i).
Proof.
  intros Hlen. unfold restrict_to_ids.
  rewrite (rfold_total _ (clear_flagged (unidentified arcdet ids_pix)))
    by (intros; apply restrict_step_total).
  eexists. split; [reflexivity |]. split.
  - now rewrite clear_flagged_length.
  - intros i Hi. rewrite <- Hlen. apply clear_flagged_selected. lia.
Qed.
End Restriction.

(** C5 (the claim fails): two candidates of equal significance two
    pixels apart both stay usable; of two candidates half a pixel apart
    the fainter stays usable; and of the candidates at 100 and 110 the
    brighter, at 110, is dropped as well, for the peak at 120. *)
Lemma neighbour_suppression_pairs_fail :
  suppress_neighbours [100; 102] [12; 12] 10 15 = [true; true]
  /\ suppress_neighbours [100; 100.5] [12; 20] 10 15 = [true; true]
  /\ suppress_neighbours [100; 110; 120] [12; 20; 30] 10 15 = [false; false; true].
Proof. repeat split; reflexivity. Qed.

(** C5, as amended: after the loop of lines 329-334 a peak is usable
    exactly when its significance is at or above the threshold and no
    detected peak at a distance of at least 1.0 and at most [n_neigh] has
    a strictly higher significance.  So of two candidates at such a
    distance the one of lower significance is dropped; two of equal
    significance do not drop each other, nor do two that are closer than
    one pixel.  For the peaks at 100.0 and 102.0 with the significances
    8.0 and 12.0, the radius 15 and a threshold up to 12, only the peak at
    102.0 is usable. *)
Theorem neighbour_suppression_rule :
  (forall (arcdet nsig : list Q) (tracethresh n_neigh : Q),
      length arcdet = length nsig ->
      length (suppress_neighbours arcdet nsig tracethresh n_neigh) = length arcdet
      /\ forall i : nat,
          (i < length arcdet)%nat ->
          (nth i (suppress_neighbours arcdet nsig tracethresh n_neigh) false = true
           <-> tracethresh <= nth i nsig 0
               /\ forall j : nat,
                   (j < length arcdet)%nat ->
                   1 <= Qabs (nth j arcdet 0 - nth i arcdet 0) <= n_neigh ->
                   nth j nsig 0 <= nth i nsig 0))
  /\ (forall tracethresh : Q,
         tracethresh <= 12 ->
         suppress_neighbours [100; 102] [8; 12] tracethresh 15 = [false; true]).
Proof.
  split.
  - intros arcdet nsig thresh n_neigh Hlen. split.
    + apply suppress_neighbours_length. exact Hlen.
    + intros i Hi. rewrite nth_suppress_neighbours by assumption.
      rewrite andb_true_iff, negb_true_iff, Qle_bool_iff. split.
      * intros [Hthr Hno]. split; [exact Hthr |]. intros j Hj Hd.
        apply Qnot_lt_le. intros Hlt.
        assert (Hout : outshone arcdet nsig n_neigh i = true)
          by (apply (proj2 (outshone_spec arcdet nsig n_neigh Hlen i)); exists j; auto).
        congruence.
      * intros [Hthr Hall]. split; [exact Hthr |].
        destruct (outshone arcdet nsig n_neigh i) eqn:Hout; [| reflexivity].
        apply (proj1 (outshone_spec arcdet nsig n_neigh Hlen i)) in Hout.
        destruct Hout as (j & Hj & Hd & Hlt).
        exfalso. apply (Qlt_not_le _ _ Hlt). now apply Hall.
  - intros thresh Hthr.
    pose proof (suppress_neighbours_length [100; 102] [8; 12] thresh 15 eq_refl) as Hlen.
    pose proof (nth_suppress_neighbours [100; 102] [8; 12] thresh 15 eq_refl 0) as H0.
    pose proof (nth_suppress_neighbours [100; 102] [8; 12] thresh 15 eq_refl 1) as H1.
    destruct (suppress_neighbours [100; 102] [8; 12] thresh 15) as [| a [| b [| c l]]];
      try discriminate.
    simpl in H0, H1. rewrite H0, H1 by (simpl; lia).
    change (outshone [100; 102] [8; 12] 15 0) with true.
    change (outshone [100; 102] [8; 12] 15 1) with false.
    apply Qle_bool_iff in Hthr. rewrite Hthr. now rewrite andb_false_r.
Qed.

(** The rule on three peaks ten pixels apart, and the example of the
    specification at the threshold 10.0 of line 290. *)
Lemma neighbour_suppression_rule_witness :
  length [100; 110; 120] = length [12; 20; 30]
  /\ length (suppress_neighbours [100; 110; 120] [12; 20; 30] 10 15) = 3%nat
  /\ suppress_neighbours [100; 102] [8; 12] 10 15 = [false; true].
Proof.
  split; [reflexivity |]. split.
  - exact (proj1 (proj1 neighbour_suppression_rule [100; 110; 120] [12; 20; 30] 10 15
                    eq_refl)).
  - apply (proj2 neighbour_suppression_rule 10). discriminate.
Defined.

(** C8: with a list of expected positions (one at least) the selection
    returns a vector in which every candidate left by the neighbour
    suppression that is farther than 2.0 from all expected positions is
    unusable, every such candidate within 2.0 of some expected position is
    usable, and no other peak is usable. *)
Theorem expected_positions_filter :
  forall (arcdet nsig : list Q) (tracethresh n_neigh : Q) (only_these_lines : list Q),
    length arcdet = length nsig ->
    only_these_lines <> [] ->
    exists aduse : list bool,
      select_lines arcdet nsig tracethresh n_neigh (Some only_these_lines) = Ok aduse
      /\ length aduse = length arcdet
      /\ forall i : nat,
          (i < length arcdet)%nat ->
          let candidate := nth i (suppress_neighbours arcdet nsig tracethresh n_neigh) false in
          (candidate = true ->
           (forall p, In p only_these_lines -> 2 < Qabs (nth i arcdet 0 - p)) ->
           nth i aduse false = false)
          /\ (candidate = true ->
              (exists p, In p only_these_lines /\ Qabs (nth i arcdet 0 - p) <= 2) ->
              nth i aduse false = true)
          /\ (candidate = false -> nth i aduse false = false).
Proof.
  intros arcdet nsig thresh n_neigh ids Hlen Hids. unfold select_lines.
  destruct (restrict_to_ids_total arcdet ids Hids
              (suppress_neighbours arcdet nsig thresh n_neigh)
              (suppress_neighbours_length arcdet nsig thresh n_neigh Hlen))
    as (final & Hrun & Hflen & Hnth).
  exists final. split; [exact Hrun |]. split; [exact Hflen |].
  intros i Hi. rewrite (Hnth i Hi). split; [| split].
  - intros Hc Hfar. rewrite (unidentified_far arcdet ids Hids i Hfar). now rewrite andb_false_r.
  - intros Hc (p & Hin & Hnear). rewrite (unidentified_near arcdet ids Hids i p Hin Hnear).
    now rewrite Hc.
  - intros Hc. now rewrite Hc.
Qed.

(** Four peaks of which the one at 120 is the only candidate near an
    expected position. *)
Lemma expected_positions_filter_witness :
  length [100; 110; 120; 200] = length [12; 20; 30; 11] /\ [118.5; 203] <> [] /\
  exists aduse : list bool,
    select_lines [100; 110; 120; 200] [12; 20; 30; 11] 10 15 (Some [118.5; 203]) = Ok aduse
    /\ nth 2 aduse false = true /\ nth 3 aduse false = false.
Proof.
  split; [reflexivity |]. split; [discriminate |].
  destruct (expected_positions_filter [100; 110; 120; 200] [12; 20; 30; 11] 10 15
              [118.5; 203] eq_refl) as (aduse & Hrun & _ & Hnth); [discriminate |].
  exists aduse. split; [exact Hrun |]. split.
  - apply (proj1 (proj2 (Hnth 2%nat ltac:(simpl; lia)))); [reflexivity |].
    exists 118.5. split; [now left | discriminate].
  - apply (proj1 (Hnth 3%nat ltac:(simpl; lia))); [reflexivity |].
    intros p [<- | [<- | []]]; reflexivity.
Defined.
End LineSelectorFacts.

(** * The per-slit diagnostic array *)

Module TraceStateCodecFacts.
Import TraceStateCodec.

Lemma slice_bound_of_nat (len n : nat) :
  (n <= len)%nat -> slice_bound len (Z.of_nat n) = n.
Proof.
  intros H. unfold slice_bound. destruct (Z.ltb_spec (Z.of_nat n) 0); lia.
Qed.

Lemma skipn_repeat {A} (x : A) (n m : nat) : skipn n (repeat x m) = repeat x (m - n).
Proof.
  revert m. induction n as [| n IH]; intros m.
  - now rewrite Nat.sub_0_r.
  - destruct m as [| m]; [reflexivity |]. simpl. apply IH.
Qed.

Lemma firstn_repeat {A} (x : A) (n m : nat) :
  (n <= m)%nat -> firstn n (repeat x m) = repeat x n.
Proof.
  revert m. induction n as [| n IH]; intros m H; [reflexivity |].
  destruct m as [| m]; [lia |]. simpl. f_equal. apply IH. lia.
Qed.

(** Assigning a raw trace to the head of a blank channel pads it. *)
Lemma assign_head_blank (rows : nat) (xs : list Q) :
  (length xs <= rows)%nat ->
  assign_slice (repeat sentinel rows) (Some 0%Z) (Some (Z.of_nat (length xs))) xs
  = Ok (padded rows xs).
Proof.
  intros H. unfold assign_slice, slice_start, slice_stop. rewrite repeat_length.
  change 0%Z with (Z.of_nat 0). rewrite !slice_bound_of_nat by lia.
  rewrite Nat.sub_0_r, Nat.eqb_refl. simpl (firstn 0 _). simpl (0 + _)%nat.
  unfold padded. now rewrite skipn_repeat.
Qed.

Lemma length_padded (rows : nat) (v : list Q) :
  (length v <= rows)%nat -> length (padded rows v) = rows.
Proof.
  intros H. unfold padded. rewrite length_app, repeat_length. lia.
Qed.

(** Dropping the last row of a padded channel. *)
Lemma but_last_padded (maxx : nat) (v : list Q) :
  (length v <= maxx)%nat -> but_last (padded (S maxx) v) = padded maxx v.
Proof.
  intros H. unfold but_last, slice, slice_start, slice_stop.
  rewrite length_padded by lia. unfold slice_bound.
  change (-1 <? 0)%Z with true. cbv iota.
  replace (Z.to_nat (Z.max 0 (-1 + Z.of_nat (S maxx)))) with maxx by lia.
  rewrite Nat.sub_0_r. simpl (skipn 0 _). unfold padded.
  rewrite firstn_app. rewrite firstn_all2 by exact H.
  rewrite firstn_repeat by lia. reflexivity.
Qed.

Lemma py_index_minus_one {A} (a : list A) (n : nat) (d : A) :
  length a = S n -> py_index a (-1) = Ok (nth n a d).
Proof.
  intros Hlen.
  destruct (exists_last (l := a)) as (b & x & ->);
    [intros ->; discriminate |].
  rewrite length_app in Hlen. simpl in Hlen.
  rewrite VectorFacts.py_index_last. rewrite app_nth2 by lia.
  replace (n - length b)%nat with 0%nat by lia. reflexivity.
Qed.

Lemma fold_left_max_bound (l : list nat) (x : nat) :
  (x <= fold_left Nat.max l x)%nat
  /\ Forall (fun n => (n <= fold_left Nat.max l x)%nat) l.
Proof.
  revert x. induction l as [| y l IH]; intros x; simpl; [split; [lia | constructor] |].
  destruct (IH (Nat.max x y)) as [Hx Hl]. split; [lia |].
  constructor; [lia | exact Hl].
Qed.

Lemma np_max_nat_bound (l : list nat) (m : nat) :
  np_max_nat l = Ok m -> Forall (fun n => (n <= m)%nat) l.
Proof.
  destruct l as [| x l]; [discriminate |]. simpl. intros H. inversion H.
  destruct (fold_left_max_bound l x) as [Hx Hl]. constructor; assumption.
Qed.

Section Pack.
Variables (d : trcdict) (all_ttilts_slit : res (list (image Q))) (maxx : nat).

Lemma pack_line_packed kk model_cnt x l cnt' :
  (length (raw_of x) <= maxx)%nat ->
  pack_line d all_ttilts_slit maxx kk model_cnt x = Ok (l, cnt') ->
  line_packed d all_ttilts_slit maxx kk x l.
Proof.
  intros Hlen. unfold pack_line, line_packed.
  destruct x as [xs |]; simpl raw_of in *.
  - cbn [fwm_blank ch0 ch1 ch2 ch3].
    rewrite assign_head_blank by lia. cbn [rbind].
    rewrite VectorFacts.py_index_of_nat.
    destruct (nth_error (ytfit d) kk) as [[ys |] |]; cbn [rbind]; try discriminate.
    destruct (assign_slice (repeat sentinel (S maxx)) (Some 0%Z)
                (Some (Z.of_nat (length xs))) ys) as [c1 | e] eqn:Hc1;
      cbn [rbind]; [| discriminate].
    assert (Hl1 : length c1 = S maxx).
    { apply SliceFacts.length_assign_slice in Hc1. now rewrite repeat_length in Hc1. }
    assert (Hn1 : nth maxx c1 0 = sentinel).
    { rewrite SliceFacts.nth_assign_slice_outside with (1 := Hc1).
      - apply nth_repeat_lt. lia.
      - right. simpl. rewrite repeat_length. rewrite slice_bound_of_nat; lia. }
    rewrite VectorFacts.py_index_of_nat.
    destruct (nth_error (aduse d) kk) as [[|] |] eqn:Huse; cbn [rbind]; try discriminate.
    + intros H. unfold rbind in H.
      case_res H; try discriminate.
      inversion H; subst. cbn [ch0 ch1]. split; [reflexivity |].
      split; [now rewrite VectorFacts.set_at_length |]. split.
      * intros xs' y Hx _ Hy. inversion Hx. subst xs'.
        rewrite VectorFacts.nth_set_at_same by lia. congruence.
      * intros xs' _ Hf. discriminate.
    + intros H. inversion H; subst. cbn [ch0 ch1]. split; [reflexivity |].
      split; [exact Hl1 |]. split.
      * intros xs' y _ Hf. discriminate.
      * intros xs' _ _. exact Hn1.
  - intros H. inversion H; subst. cbn [fwm_blank ch0 ch1]. split; [reflexivity |].
    split; [apply repeat_length |]. split; intros; discriminate.
Qed.

Lemma pack_lines_packed xtfits kk model_cnt img :
  Forall (fun x => (length (raw_of x) <= maxx)%nat) xtfits ->
  pack_lines d all_ttilts_slit maxx kk model_cnt xtfits = Ok img ->
  length img = length xtfits
  /\ forall j x l,
      nth_error xtfits j = Some x -> nth_error img j = Some l ->
      line_packed d all_ttilts_slit maxx (kk + j) x l.
Proof.
  intros Hall. revert kk model_cnt img.
  induction Hall as [| x rest Hx _ IH]; intros kk model_cnt img.
  - simpl. intros H. inversion H. split; [reflexivity |].
    intros [| j] ? ? Hn; discriminate.
  - simpl. unfold rbind at 1.
    destruct (pack_line d all_ttilts_slit maxx kk model_cnt x) as [[l cnt'] | e] eqn:Hline;
      [| discriminate].
    cbn [fst snd]. unfold rbind at 1.
    destruct (pack_lines d all_ttilts_slit maxx (S kk) cnt' rest) as [ls | e] eqn:Hrest;
      [| discriminate].
    intros H. inversion H. subst img.
    destruct (IH _ _ _ Hrest) as [Hlen Hnth]. split; [simpl; now rewrite Hlen |].
    intros [| j] y l' Hy Hl'; simpl in Hy, Hl'.
    + inversion Hy. inversion Hl'. subst y l'. rewrite Nat.add_0_r.
      eapply pack_line_packed; eassumption.
    + replace (kk + S j)%nat with (S kk + j)%nat by lia. eapply Hnth; eassumption.
Qed.
End Pack.

(** Reading back lines of [maxx + 1] rows. *)
Lemma unpack_lines (maxx : nat) (img : fwm_img) (d0 : trcdict) :
  Forall (fun l => length (ch1 l) = S maxx) img ->
  exists d',
    rfold unpack_line img d0 = Ok d'
    /\ xtfit d' = xtfit d0 ++ map (fun l => Some (but_last (ch0 l))) img
    /\ ycen d' = ycen d0 ++ map (fun l => nth maxx (ch1 l) 0) img.
Proof.
  intros Hall. revert d0. induction Hall as [| l img Hl _ IH]; intros d0.
  - exists d0. simpl. now rewrite !app_nil_r.
  - simpl. unfold unpack_line at 1. rewrite (py_index_minus_one (ch1 l) maxx 0 Hl).
    cbn [rbind].
    match goal with
    | |- context [rfold unpack_line img ?d1] => destruct (IH d1) as (d' & Hrun & Hx & Hy)
    end.
    exists d'. split; [exact Hrun |]. cbn [xtfit ycen] in Hx, Hy.
    rewrite Hx, Hy, <- !app_assoc. split; reflexivity.
Qed.

Lemma xszs_bound (xtfits : list (option (list Q))) (maxx : nat) :
  np_max_nat (xszs xtfits) = Ok maxx ->
  Forall (fun x => (length (raw_of x) <= maxx)%nat) xtfits.
Proof.
  intros H. apply np_max_nat_bound in H. unfold xszs in H.
  rewrite Forall_map in H. eapply Forall_impl; [| exact H].
  intros [xs |]; simpl; auto.
Qed.

(** C4 (the claim fails): for the sample slit with raw traces of the
    lengths 5, 9 and 3, the first line is read back with nine entries,
    its five centres and four sentinels, so that the dictionary read is
    not the one written; and in the array the row 5 of channel 1, the row
    just past the raw trace of that line, holds the sentinel, while its
    [ycen], 103, is in the last row, 9. *)
Lemma padded_round_trip_differs :
  exists (img : fwm_img) (d' : trcdict) (l : fwm_line),
    pack Sample.three_lines (Ok Sample.three_lines_tilts) = Ok img
    /\ unpack img = Ok d'
    /\ nth_error (xtfit Sample.three_lines) 0 = Some (Some [1; 2; 3; 4; 5])
    /\ nth_error (xtfit d') 0 = Some (Some ([1; 2; 3; 4; 5] ++ repeat sentinel 4))
    /\ xtfit d' <> xtfit Sample.three_lines
    /\ nth_error img 0 = Some l
    /\ nth 5 (ch1 l) 0 = sentinel
    /\ nth 9 (ch1 l) 0 == 103.
Proof.
  do 3 eexists. split; [vm_compute; reflexivity |].
  split; [vm_compute; reflexivity |].
  split; [reflexivity |]. split; [reflexivity |].
  split; [intros H; discriminate H |].
  split; [reflexivity |]. split; reflexivity.
Qed.

(** Through the file: the extension that [save_master] writes for the
    only slit is read back with the padded traces; with a masked slit
    before it, the extension of the second slit, [FWM001], is met when
    the counter of the reader is still 0, and the dictionary of the slit
    is read as [None]. *)
Lemma saved_and_read_one_slit :
  exists d',
    Sample.saved_and_read 1 [false] = Ok [Some d']
    /\ nth_error (xtfit d') 0 = Some (Some (padded 9 [1; 2; 3; 4; 5])).
Proof. eexists. split; [vm_compute; reflexivity | reflexivity]. Qed.

Lemma saved_and_read_after_masked_slit :
  Sample.saved_and_read 2 [true; false] = Ok [None].
Proof. vm_compute. reflexivity. Qed.

(** C4, as amended: whenever the array of a slit is packed, reading it
    back gives one record per line; the raw centres of every line come
    back padded with the sentinel to the longest raw trace of the slit,
    [maxx] (the centres are the head of what is read; their number is not
    kept); the [ycen] of every line in use comes back, from the last row
    of channel 1, the row [maxx], where the packing put it; a line not in
    use reads the sentinel as its [ycen]. *)
Theorem padded_round_trip :
  forall (d : trcdict) (all_ttilts_slit : res (list (image Q))) (img : fwm_img),
    pack d all_ttilts_slit = Ok img ->
    exists (maxx : nat) (d' : trcdict),
      np_max_nat (xszs (xtfit d)) = Ok maxx
      /\ unpack img = Ok d'
      /\ length (xtfit d') = length (xtfit d)
      /\ length (ycen d') = length (xtfit d)
      /\ (forall k x,
             nth_error (xtfit d) k = Some x ->
             nth_error (xtfit d') k = Some (Some (padded maxx (raw_of x))))
      /\ (forall k xs y,
             nth_error (xtfit d) k = Some (Some xs) ->
             nth_error (aduse d) k = Some true ->
             ycen_of all_ttilts_slit xs k = Ok y ->
             nth_error (ycen d') k = Some y
             /\ exists l, nth_error img k = Some l
                          /\ length (ch1 l) = S maxx
                          /\ nth maxx (ch1 l) 0 = y)
      /\ (forall k xs,
             nth_error (xtfit d) k = Some (Some xs) ->
             nth_error (aduse d) k = Some false ->
             nth_error (ycen d') k = Some sentinel).
Proof.
  intros d tt img. unfold pack, rbind.
  destruct (np_max_nat (xszs (xtfit d))) as [maxx | e] eqn:Hmax; [| discriminate].
  intros Hpack. pose proof (xszs_bound _ _ Hmax) as Hbound.
  destruct (pack_lines_packed d tt maxx (xtfit d) 0 0 img Hbound Hpack) as [Hlen Hline].
  assert (Hrows : Forall (fun l => length (ch1 l) = S maxx) img).
  { apply Forall_forall. intros l Hin. apply In_nth_error in Hin. destruct Hin as [j Hj].
    destruct (nth_error (xtfit d) j) as [x |] eqn:Hx.
    - apply (Hline j x l Hx Hj).
    - apply nth_error_None in Hx. assert (j < length img)%nat; [| lia].
      apply nth_error_Some. congruence. }
  destruct (unpack_lines maxx img trcdict_empty Hrows) as (d' & Hrun & Hxt & Hyc).
  simpl in Hxt, Hyc.
  assert (Hsome : forall k x, nth_error (xtfit d) k = Some x ->
                              exists l, nth_error img k = Some l
                                        /\ line_packed d tt maxx k x l).
  { intros k x Hx. destruct (nth_error img k) as [l |] eqn:Hl.
    - exists l. split; [reflexivity |]. apply (Hline k x l Hx Hl).
    - apply nth_error_None in Hl. assert (k < length (xtfit d))%nat; [| lia].
      apply nth_error_Some. congruence. }
  exists maxx, d'. split; [reflexivity |]. split; [exact Hrun |].
  split; [rewrite Hxt, length_map; exact Hlen |].
  split; [rewrite Hyc, length_map; exact Hlen |].
  split; [| split].
  - intros k x Hx. destruct (Hsome k x Hx) as (l & Hl & Hch0 & _).
    rewrite Hxt, nth_error_map, Hl. simpl. rewrite Hch0.
    rewrite but_last_padded; [reflexivity |].
    eapply Forall_forall in Hbound; [exact Hbound |]. eapply nth_error_In. exact Hx.
  - intros k xs y Hx Huse Hy.
    destruct (Hsome k (Some xs) Hx) as (l & Hl & _ & Hl1 & Hused & _).
    pose proof (Hused xs y eq_refl Huse Hy) as Hlast. split.
    + rewrite Hyc, nth_error_map, Hl. simpl. now rewrite Hlast.
    + exists l. repeat split; assumption.
  - intros k xs Hx Huse.
    destruct (Hsome k (Some xs) Hx) as (l & Hl & _ & _ & _ & Hunused).
    rewrite Hyc, nth_error_map, Hl. simpl. now rewrite (Hunused xs eq_refl Huse).
Qed.

(** The sample slit with raw traces of the lengths 5, 9 and 3. *)
Lemma padded_round_trip_witness :
  exists (img : fwm_img) (d' : trcdict),
    pack Sample.three_lines (Ok Sample.three_lines_tilts) = Ok img
    /\ unpack img = Ok d'
    /\ length (xtfit d') = 3%nat
    /\ nth_error (xtfit d') 2 = Some (Some (padded 9 [1; 2; 3]))
    /\ nth_error (ycen d') 2 = Some (300 + inject_Z 2).
Proof.
  destruct (pack Sample.three_lines (Ok Sample.three_lines_tilts)) as [img | e] eqn:Hpack;
    [| discriminate Hpack].
  destruct (padded_round_trip Sample.three_lines (Ok Sample.three_lines_tilts) img Hpack)
    as (maxx & d' & Hmax & Hrun & Hlen & _ & Hraw & Hycen & _).
  injection Hmax as <-.
  exists img, d'. split; [reflexivity |]. split; [exact Hrun |]. split; [exact Hlen |].
  split.
  - exact (Hraw 2%nat (Some [1; 2; 3]) eq_refl).
  - exact (proj1 (Hycen 2%nat [1; 2; 3] (300 + inject_Z 2) eq_refl eq_refl eq_refl)).
Defined.
End TraceStateCodecFacts.

(** * What [run] leaves in the attributes *)

Module RunInvariants.
Import WaveTilts.

Ltac split_res :=
  repeat match goal with
         | |- context [match ?r with Ok _ => _ | Raise _ => _ end] =>
             destruct r eqn:?; cbv beta iota zeta
         end.

(** ** Stores under a boolean image *)

Lemma nat_list_eqb_eq (a b : list nat) : nat_list_eqb a b = true -> a = b.
Proof.
  revert b. induction a as [|x a IH]; intros [|y b]; simpl; try discriminate; try reflexivity.
  intros H. apply andb_prop in H as [Hx Hr]. apply Nat.eqb_eq in Hx.
  f_equal; [exact Hx | apply IH; exact Hr].
Qed.

Lemma nth_map_combine {A B C} (f : A * B -> C) (l : list A) (l' : list B)
      (da : A) (db : B) (dc : C) (n : nat) :
  length l = length l' -> f (da, db) = dc ->
  nth n (map f (combine l l')) dc = f (nth n l da, nth n l' db).
Proof.
  intros Hlen Hd. subst dc. rewrite map_nth. rewrite combine_nth by exact Hlen. reflexivity.
Qed.

Lemma length_nth_row {A} (img : image A) (r : nat) :
  length (nth r img []) = nth r (map (@length A) img) 0%nat.
Proof.
  change 0%nat with (@length A []). rewrite map_nth. reflexivity.
Qed.

Lemma masked_store_shapes (dst : image Q) (word : image bool) (src out : image Q) :
  masked_store dst word src = Ok out ->
  map (@length bool) word = map (@length Q) src
  /\ map (@length bool) word = map (@length Q) dst.
Proof.
  unfold masked_store, shape_eqb. intros H.
  destruct (nat_list_eqb _ _) eqn:Hs; [|discriminate].
  destruct (nat_list_eqb (map (@length bool) word) (map (@length Q) dst)) eqn:Hd;
    [|discriminate].
  split; apply nat_list_eqb_eq; assumption.
Qed.

(** A pixel of the result is the pixel of the source where the word
    holds and the pixel of the destination elsewhere. *)
Lemma masked_store_nth (dst : image Q) (word : image bool) (src out : image Q) (r c : nat) :
  masked_store dst word src = Ok out ->
  nth c (nth r out []) 0
  = if nth c (nth r word []) false then nth c (nth r src []) 0 else nth c (nth r dst []) 0.
Proof.
  intros H. destruct (masked_store_shapes _ _ _ _ H) as [Hs Hd].
  unfold masked_store in H.
  destruct (shape_eqb word src && shape_eqb word dst); [|discriminate].
  inversion H; subst out; clear H.
  assert (Hls : length word = length src)
    by (rewrite <- (length_map (@length bool) word), Hs; apply length_map).
  assert (Hld : length word = length dst)
    by (rewrite <- (length_map (@length bool) word), Hd; apply length_map).
  rewrite nth_map_combine with (da := []) (db := ([], []));
    [ | rewrite length_combine; lia | reflexivity ].
  cbn [fst snd]. rewrite combine_nth by exact Hls. cbn [fst snd].
  assert (Hrs : length (nth r word []) = length (nth r src []))
    by (rewrite !length_nth_row, Hs; reflexivity).
  assert (Hrd : length (nth r word []) = length (nth r dst []))
    by (rewrite !length_nth_row, Hd; reflexivity).
  rewrite nth_map_combine with (da := 0) (db := (false, 0));
    [ | rewrite length_combine; lia | reflexivity ].
  cbn [fst snd]. rewrite combine_nth by exact Hrs. reflexivity.
Qed.

Lemma masked_store_shape (dst : image Q) (word : image bool) (src out : image Q) :
  masked_store dst word src = Ok out -> map (@length Q) out = map (@length Q) dst.
Proof.
  intros H. destruct (masked_store_shapes _ _ _ _ H) as [Hs Hd].
  unfold masked_store in H.
  destruct (shape_eqb word src && shape_eqb word dst); [|discriminate].
  inversion H; subst out; clear H.
  revert word src Hs Hd.
  induction dst as [|d dst IH]; intros [|w word] [|x src] Hs Hd;
    simpl in *; try discriminate; try reflexivity.
  injection Hs as Hs0 Hs. injection Hd as Hd0 Hd. f_equal.
  - rewrite length_map, !length_combine. lia.
  - apply IH; assumption.
Qed.

Lemma nth_equals_slit (sm : image Z) (slit r c : nat) :
  nth c (nth r (equals_slit sm slit) []) false
  = (nth c (nth r sm []) (-1) =? Z.of_nat slit)%Z.
Proof.
  unfold equals_slit.
  change (@nil bool) with (map (fun v => (v =? Z.of_nat slit)%Z) []).
  rewrite map_nth.
  rewrite <- (map_nth (fun v => (v =? Z.of_nat slit)%Z) (nth r sm []) (-1)%Z c).
  replace ((-1 =? Z.of_nat slit)%Z) with false by (symmetry; apply Z.eqb_neq; lia).
  reflexivity.
Qed.

Lemma nth_zeros_like (img : image Q) (r c : nat) : nth c (nth r (zeros_like img) []) 0 = 0.
Proof.
  unfold zeros_like.
  change (@nil Q) with (map (fun _ : Q => 0) []) at 1.
  rewrite map_nth.
  change 0 with ((fun _ : Q => 0) 0) at 2. rewrite map_nth. reflexivity.
Qed.

Lemma shape_zeros_like (img : image Q) :
  map (@length Q) (zeros_like img) = map (@length Q) img.
Proof.
  unfold zeros_like. rewrite map_map. apply map_ext. intros row. apply length_map.
Qed.

(** ** The stage methods *)

Section Stages.
Variable E : collaborators.
Variable wv_calib_t : Type.
Variable par : WaveTiltsPar.
Variable msarc : image Q.
Variable bpm : option (image Q).
Variable tslits_dict : option tslits.
Variable det : option Z.
Variable detector : list detector_par.

Local Abbreviation run_ := (@run E wv_calib_t par msarc bpm tslits_dict det detector).
Local Abbreviation setup_ := (run_setup E par msarc bpm tslits_dict).
Local Abbreviation slit_ := (@run_slit E wv_calib_t par msarc tslits_dict det detector).
Local Abbreviation trace_ := (@_trace_tilts E wv_calib_t par msarc tslits_dict det detector).
Local Abbreviation extract_ := (_extract_arcs E msarc bpm tslits_dict).
Local Abbreviation analyze_ := (_analyze_lines E par msarc tslits_dict).
Local Abbreviation fit_ := (_fit_tilts E par msarc).

Lemma trace_tilts_keeps_attrs slit wv s : attrs_of (trace_ slit wv s) = s.
Proof.
  cbv beta iota zeta delta [_trace_tilts bind lift get ret].
  split_res; try reflexivity; destruct (length _ =? 0)%nat; reflexivity.
Qed.

Lemma extract_arcs_effect s :
  match extract_ s with
  | Returns r s' => s' = set_steps (steps s ++ ["_extract_arcs"%string])
                                  (set_arcs (fst r) (snd r) s)
  | Raises _ s' => s' = s
  end.
Proof.
  cbv beta iota zeta delta [_extract_arcs bind lift get ret assign append_step].
  split_res; reflexivity.
Qed.

Lemma analyze_lines_effect slit s :
  match analyze_ slit s with
  | Returns bad s' =>
      exists r tt, py_setitem (all_ttilts s) slit (Some r) = Ok tt
                   /\ s' = set_steps (steps s ++ ["_analyze_lines"%string])
                                     (set_analysis bad tt s)
  | Raises e s' =>
      s' = s
      \/ (e = IndexError /\ (length (all_ttilts s) <= slit)%nat
          /\ exists bad, s' = set_badlines bad s)
  end.
Proof.
  cbv beta iota zeta delta [_analyze_lines bind lift get ret assign append_step].
  split_res; try (left; reflexivity).
  - do 2 eexists. split; [eassumption | reflexivity].
  - right. unfold py_setitem in *.
    destruct (Nat.ltb_spec slit (length (all_ttilts s))) as [|Hle]; [discriminate|].
    split; [congruence|]. split; [exact Hle|]. eexists. reflexivity.
Qed.

Lemma fit_tilts_effect slit doqa s :
  match fit_ slit doqa s with
  | Returns r s' =>
      exists o, s' = set_steps (steps s ++ ["_fit_tilts"%string]) (set_fit (fst r) o s)
  | Raises _ s' => s' = s
  end.
Proof.
  cbv beta iota zeta delta [_fit_tilts bind lift get ret assign append_step].
  split_res; try reflexivity.
  eexists. reflexivity.
Qed.

(** One turn of the loop of [run] that returns: it logs the analysis
    and the fit, stores the fitted tilts under the pixels of the slit
    and the coefficients in the plane of the slit, and assigns nothing
    else that [run] or [save_master] reads. *)
Lemma run_slit_returns doqa wv slit s u s' :
  slit_ doqa wv slit s = Returns u s' ->
  steps s' = steps s ++ ["_analyze_lines"; "_fit_tilts"]%string
  /\ slitmask s' = slitmask s /\ mask s' = mask s /\ all_trcdict s' = all_trcdict s
  /\ exists sm ft ft' tilt cf cfp,
       slitmask s = Some sm /\ final_tilts s = Some ft
       /\ masked_store ft (equals_slit sm slit) tilt = Ok ft'
       /\ final_tilts s' = Some ft'
       /\ coeffs s = Some cf /\ (slit < length cf)%nat
       /\ coeffs s' = Some (set_at cf slit cfp).
Proof.
  unfold run_slit. unfold bind at 1.
  pose proof (trace_tilts_keeps_attrs slit wv s) as Ht.
  destruct (trace_ slit wv s) as [r0 s0 | e0 s0]; [|discriminate].
  cbn [attrs_of] in Ht. subst s0.
  unfold bind at 1.
  pose proof (analyze_lines_effect slit s) as Ha.
  destruct (analyze_ slit s) as [bad s1 | e1 s1]; [|discriminate].
  destruct Ha as (r1 & tt1 & Htt & Hs1).
  unfold bind at 1.
  pose proof (fit_tilts_effect slit doqa s1) as Hf.
  destruct (fit_ slit doqa s1) as [fit s2 | e2 s2]; [|discriminate].
  destruct Hf as (o & Hs2).
  cbv beta iota zeta delta [bind lift get assign].
  intros H. case_res H; try discriminate.
  inversion H; subst s'; clear H.
  rewrite Hs2, Hs1 in *. cbn in *.
  destruct (coeffs s) as [cf0|] eqn:Hcf; [|discriminate].
  destruct (slitmask s) as [sm0|] eqn:Hsm; [|discriminate].
  destruct (final_tilts s) as [ft0|] eqn:Hft; [|discriminate].
  inversion E0; subst a; clear E0. inversion E3; subst a2; clear E3.
  destruct (broadcast_to a0 (snd fit)) as [cfp|]; [|discriminate].
  unfold py_setitem in E2.
  destruct (Nat.ltb_spec slit (length cf0)) as [Hlt|]; [|discriminate].
  inversion E2; subst a1; clear E2.
  repeat split; try reflexivity.
  - rewrite <- app_assoc. reflexivity.
  - exists sm0, ft0, a3, (fst fit), cf0, cfp.
    repeat split; try reflexivity; assumption.
Qed.

Ltac log_suffix suf :=
  exists suf; split;
  [ rewrite <- ?app_assoc, ?app_nil_r; reflexivity
  | intros x Hx; cbn in Hx |- *; tauto ].

(** One turn of the loop, whether it returns or raises: the log only
    grows, by the names of the analysis and of the fit, and the slit
    image, the mask and the trace dictionaries stay as they were. *)
Lemma run_slit_frame doqa wv slit s :
  slitmask (attrs_of (slit_ doqa wv slit s)) = slitmask s
  /\ mask (attrs_of (slit_ doqa wv slit s)) = mask s
  /\ all_trcdict (attrs_of (slit_ doqa wv slit s)) = all_trcdict s
  /\ exists suf, steps (attrs_of (slit_ doqa wv slit s)) = steps s ++ suf
                 /\ incl suf ["_analyze_lines"; "_fit_tilts"]%string.
Proof.
  remember (attrs_of (slit_ doqa wv slit s)) as s' eqn:Hs'.
  unfold run_slit in Hs'. unfold bind at 1 in Hs'.
  pose proof (trace_tilts_keeps_attrs slit wv s) as Ht.
  destruct (trace_ slit wv s) as [r0 s0 | e0 s0]; cbn [attrs_of] in Ht; subst s0;
    [| subst s'; cbn [attrs_of]; repeat split; log_suffix constr:(@nil string) ].
  unfold bind at 1 in Hs'.
  pose proof (analyze_lines_effect slit s) as Ha.
  destruct (analyze_ slit s) as [bad s1 | e1 s1];
    [| subst s'; cbn [attrs_of]; destruct Ha as [Ha | (_ & _ & bad & Ha)]; subst s1;
       repeat split; log_suffix constr:(@nil string) ].
  destruct Ha as (r1 & tt1 & Htt & Hs1).
  unfold bind at 1 in Hs'.
  pose proof (fit_tilts_effect slit doqa s1) as Hf.
  destruct (fit_ slit doqa s1) as [fit s2 | e2 s2];
    [| subst s2 s'; rewrite Hs1; cbn; repeat split;
       log_suffix constr:(["_analyze_lines"%string]) ].
  destruct Hf as (o & Hs2).
  cbv beta iota zeta delta [bind lift get assign] in Hs'.
  case_res Hs'; subst s'; rewrite Hs2, Hs1; cbn; repeat split;
    log_suffix constr:(["_analyze_lines"; "_fit_tilts"]%string).
Qed.

(** A turn that raises has not touched the image of the final tilts. *)
Lemma run_slit_raises_final_tilts doqa wv slit s e s' :
  slit_ doqa wv slit s = Raises e s' -> final_tilts s' = final_tilts s.
Proof.
  unfold run_slit. unfold bind at 1.
  pose proof (trace_tilts_keeps_attrs slit wv s) as Ht.
  destruct (trace_ slit wv s) as [r0 s0 | e0 s0]; cbn [attrs_of] in Ht; subst s0;
    [| intros H; inversion H; reflexivity ].
  unfold bind at 1.
  pose proof (analyze_lines_effect slit s) as Ha.
  destruct (analyze_ slit s) as [bad s1 | e1 s1];
    [| intros H; inversion H; subst;
       destruct Ha as [Ha | (_ & _ & bad & Ha)]; subst s'; reflexivity ].
  destruct Ha as (r1 & tt1 & Htt & Hs1).
  unfold bind at 1.
  pose proof (fit_tilts_effect slit doqa s1) as Hf.
  destruct (fit_ slit doqa s1) as [fit s2 | e2 s2];
    [| intros H; inversion H; subst; reflexivity ].
  destruct Hf as (o & Hs2).
  cbv beta iota zeta delta [bind lift get assign].
  intros H. case_res H; try discriminate; inversion H; subst; reflexivity.
Qed.

(** ** The loop over the slits *)

Lemma for_each_frame doqa wv slits s :
  slitmask (attrs_of (for_each slits (slit_ doqa wv) s)) = slitmask s
  /\ mask (attrs_of (for_each slits (slit_ doqa wv) s)) = mask s
  /\ all_trcdict (attrs_of (for_each slits (slit_ doqa wv) s)) = all_trcdict s
  /\ exists suf, steps (attrs_of (for_each slits (slit_ doqa wv) s)) = steps s ++ suf
                 /\ incl suf ["_analyze_lines"; "_fit_tilts"]%string.
Proof.
  revert s. induction slits as [|slit slits IH]; intros s.
  - cbn. repeat split. log_suffix constr:(@nil string).
  - cbn [for_each]. unfold bind.
    destruct (run_slit_frame doqa wv slit s) as (Hsm & Hm & Hd & suf & Hst & Hin).
    destruct (slit_ doqa wv slit s) as [u s1 | e s1]; cbn [attrs_of] in *.
    + destruct (IH s1) as (Hsm' & Hm' & Hd' & suf' & Hst' & Hin').
      rewrite Hsm', Hm', Hd', Hst', Hsm, Hm, Hd, Hst. repeat split.
      exists (suf ++ suf'). split; [symmetry; apply app_assoc |].
      apply incl_app; assumption.
    + repeat split; try assumption. exists suf. split; assumption.
Qed.

(** A loop that returns has logged two names per slit, kept the shape
    of the image of the final tilts and written only pixels of the
    slits it went through; of the coefficients it has written only the
    planes of these slits. *)
Lemma for_each_returns doqa wv slits s u s' :
  for_each slits (slit_ doqa wv) s = Returns u s' ->
  steps s' = steps s
             ++ flat_map (fun _ => ["_analyze_lines"; "_fit_tilts"]%string) slits
  /\ (forall sm ft, slitmask s = Some sm -> final_tilts s = Some ft ->
      exists ft', final_tilts s' = Some ft'
                  /\ map (@length Q) ft' = map (@length Q) ft
                  /\ forall r c,
                       ~ In (nth c (nth r sm []) (-1)%Z) (map Z.of_nat slits) ->
                       nth c (nth r ft' []) 0 = nth c (nth r ft []) 0)
  /\ (forall cf, coeffs s = Some cf ->
      exists cf', coeffs s' = Some cf'
                  /\ length cf' = length cf
                  /\ (forall j, ~ In j slits -> nth j cf' [] = nth j cf [])
                  /\ forall j, In j slits -> (j < length cf)%nat).
Proof.
  revert s. induction slits as [|slit slits IH]; intros s H.
  - cbn in H. inversion H; subst s'. split; [symmetry; apply app_nil_r|].
    split.
    + intros sm ft _ Hft. exists ft. split; [exact Hft|].
      split; [reflexivity | intros; reflexivity].
    + intros cf Hcf. exists cf. split; [exact Hcf|].
      split; [reflexivity|]. split; [intros; reflexivity | intros j []].
  - cbn [for_each] in H. unfold bind in H.
    destruct (slit_ doqa wv slit s) as [u1 s1 | e s1] eqn:Hslit; [|discriminate].
    apply run_slit_returns in Hslit
      as (Hst & Hsm & Hm & Hd & sm0 & ft0 & ft1 & tilt & cf0 & cfp
          & Hsm0 & Hft0 & Hstore & Hft1 & Hcf0 & Hlt & Hcf1).
    destruct (IH s1 H) as (Hst' & Hpix & Hco).
    split; [rewrite Hst', Hst; cbn [flat_map]; rewrite <- app_assoc; reflexivity|].
    split.
    + intros sm ft Hsm1 Hft. rewrite Hsm0 in Hsm1. rewrite Hft0 in Hft.
      inversion Hsm1; subst sm0. inversion Hft; subst ft0.
      destruct (Hpix sm ft1) as (ft' & Hft' & Hshape & Hout);
        [rewrite Hsm; exact Hsm0 | exact Hft1 |].
      exists ft'. split; [exact Hft'|]. split.
      * rewrite Hshape. eapply masked_store_shape. exact Hstore.
      * intros r c Hnot. cbn [map In] in Hnot. rewrite Hout by tauto.
        rewrite (masked_store_nth _ _ _ _ r c Hstore). rewrite nth_equals_slit.
        destruct (Z.eqb_spec (nth c (nth r sm []) (-1)%Z) (Z.of_nat slit)) as [Heq|];
          [exfalso; apply Hnot; left; symmetry; exact Heq | reflexivity].
    + intros cf Hcf. rewrite Hcf0 in Hcf. inversion Hcf; subst cf0.
      destruct (Hco _ Hcf1) as (cf' & Hcf' & Hlen & Hother & Hin).
      exists cf'. split; [exact Hcf'|]. split; [|split].
      * rewrite Hlen. apply VectorFacts.set_at_length.
      * intros j Hj. rewrite Hother by (intros Hin'; apply Hj; right; exact Hin').
        apply VectorFacts.nth_set_at_other. intros Heq. apply Hj. left. exact Heq.
      * intros j [Hj | Hj]; [subst j; exact Hlt|].
        apply Hin in Hj. rewrite VectorFacts.set_at_length in Hj. exact Hj.
Qed.

(** ** The statements before the loop *)

Lemma run_setup_returns_inv maskslits s mg s' :
  setup_ maskslits s = Returns mg s' ->
  exists ts sm cen am m cf,
    reaches_loop E par msarc bpm tslits_dict maskslits ts sm cen am m cf
    /\ mg = (given_mask tslits_dict maskslits, where_unmasked m)
    /\ s' = after_setup msarc sm cen am m cf s.
Proof.
  cbv beta iota zeta delta [run_setup _extract_arcs bind lift assign get ret append_step].
  intros H. case_res H; try discriminate.
  inversion H; subst mg s'; clear H.
  unfold the_tslits in *. destruct tslits_dict as [ts|] eqn:Hts; [|discriminate].
  inversion E1; subst a0; clear E1.
  cbn [slitmask set_slitmask] in *.
  destruct a1 as [cen am]. cbn [fst snd] in *.
  exists ts, a, cen, am, a2, a3. unfold reaches_loop.
  repeat split; try assumption; try reflexivity.
Qed.

Lemma run_setup_frame maskslits s :
  all_trcdict (attrs_of (setup_ maskslits s)) = all_trcdict s
  /\ exists suf, steps (attrs_of (setup_ maskslits s)) = steps s ++ suf
                 /\ incl suf ["_extract_arcs"%string].
Proof.
  remember (attrs_of (setup_ maskslits s)) as s' eqn:Hs'.
  cbv beta iota zeta delta [run_setup _extract_arcs bind lift assign get ret append_step]
    in Hs'.
  case_res Hs'; subst s'; cbn; split; try reflexivity;
    first [ log_suffix constr:(@nil string) | log_suffix constr:(["_extract_arcs"%string]) ].
Qed.

Lemma run_slit_keeps_flags doqa wv slit s :
  arc_maskslit (attrs_of (slit_ doqa wv slit s)) = arc_maskslit s.
Proof.
  remember (attrs_of (slit_ doqa wv slit s)) as s' eqn:Hs'.
  unfold run_slit in Hs'. unfold bind at 1 in Hs'.
  pose proof (trace_tilts_keeps_attrs slit wv s) as Ht.
  destruct (trace_ slit wv s) as [r0 s0 | e0 s0]; cbn [attrs_of] in Ht; subst s0;
    [| subst s'; reflexivity ].
  unfold bind at 1 in Hs'.
  pose proof (analyze_lines_effect slit s) as Ha.
  destruct (analyze_ slit s) as [bad s1 | e1 s1];
    [| subst s'; destruct Ha as [Ha | (_ & _ & bad & Ha)]; subst s1; reflexivity ].
  destruct Ha as (r1 & tt1 & Htt & Hs1).
  unfold bind at 1 in Hs'.
  pose proof (fit_tilts_effect slit doqa s1) as Hf.
  destruct (fit_ slit doqa s1) as [fit s2 | e2 s2];
    [| subst s2 s'; rewrite Hs1; reflexivity ].
  destruct Hf as (o & Hs2).
  cbv beta iota zeta delta [bind lift get assign] in Hs'.
  case_res Hs'; subst s'; rewrite Hs2, Hs1; reflexivity.
Qed.

Lemma for_each_keeps_flags doqa wv slits s :
  arc_maskslit (attrs_of (for_each slits (slit_ doqa wv) s)) = arc_maskslit s.
Proof.
  revert s. induction slits as [|slit slits IH]; intros s; [reflexivity|].
  cbn [for_each]. unfold bind.
  pose proof (run_slit_keeps_flags doqa wv slit s) as H.
  destruct (slit_ doqa wv slit s) as [u s1 | e s1]; cbn [attrs_of] in *.
  - rewrite IH. exact H.
  - exact H.
Qed.

(** What a returning [run] leaves, in a method other than "zero". *)
Lemma run_returns_inv maskslits doqa wv gen s v s' :
  lower (par_method par) <> "zero"%string ->
  run_ maskslits doqa wv gen s = Returns v s' ->
  exists ts sm cen am m cf u s2,
    reaches_loop E par msarc bpm tslits_dict maskslits ts sm cen am m cf
    /\ for_each (where_unmasked m) (slit_ doqa wv) (after_setup msarc sm cen am m cf s)
       = Returns u s2
    /\ steps s' = steps s2 /\ slitmask s' = slitmask s2 /\ mask s' = mask s2
    /\ all_trcdict s' = all_trcdict s2 /\ final_tilts s' = final_tilts s2
    /\ coeffs s' = coeffs s2 /\ arc_maskslit s' = arc_maskslit s2
    /\ v = [OTiltsDict {| td_tilts := match final_tilts s2 with
                                     | Some f => Array2 f
                                     | None => NoArray
                                     end;
                          td_coeffs := match coeffs s2 with
                                       | Some c => Array3 c
                                       | None => NoArray
                                       end;
                          td_func2D := par_func2D par |};
            OMask (given_mask tslits_dict maskslits)].
Proof.
  intros Hz H. rewrite RunFacts.run_nonzero in H by exact Hz.
  unfold bind in H.
  destruct (setup_ maskslits s) as [mg s1 | e s1] eqn:Hsetup; [|discriminate].
  apply run_setup_returns_inv in Hsetup as (ts & sm & cen & am & m & cf & Hr & Hmg & Hs1).
  subst mg s1. cbn [fst snd] in H.
  destruct (for_each _ _ _) as [u s2 | e s2] eqn:Hloop; [|discriminate].
  unfold run_finish, bind, get, assign, ret in H. inversion H; subst v s'; clear H.
  exists ts, sm, cen, am, m, cf, u, s2.
  split; [exact Hr|]. split; [exact Hloop|]. repeat split.
Qed.

(** X1: when [run] returns in a method other than "zero", the image of
    the final tilts has the shape of the arc image, and every pixel
    that the slit image does not give to a slit of the loop (the slits
    that [self.mask] leaves unmasked) is zero. *)
Theorem run_writes_only_unmasked_regions maskslits doqa wv gen s v s' :
  lower (par_method par) <> "zero"%string ->
  run_ maskslits doqa wv gen s = Returns v s' ->
  exists sm m ft,
    slitmask s' = Some sm /\ mask s' = Some m /\ final_tilts s' = Some ft
    /\ map (@length Q) ft = map (@length Q) msarc
    /\ forall r c,
         ~ In (nth c (nth r sm []) (-1)%Z) (map Z.of_nat (where_unmasked m)) ->
         nth c (nth r ft []) 0 = 0.
Proof.
  intros Hz H.
  apply run_returns_inv in H
    as (ts & sm & cen & am & m & cf & u & s2 & Hr & Hloop & _ & Hsm & Hm & _ & Hft & _);
    [|exact Hz].
  pose proof (for_each_frame doqa wv (where_unmasked m)
                (after_setup msarc sm cen am m cf s)) as Hframe.
  rewrite Hloop in Hframe. cbn [attrs_of] in Hframe.
  destruct Hframe as (Hsm2 & Hm2 & _).
  apply for_each_returns in Hloop as (_ & Hpix & _).
  destruct (Hpix sm (zeros_like msarc) eq_refl eq_refl) as (ft & Hft2 & Hshape & Hout).
  exists sm, m, ft.
  split; [rewrite Hsm, Hsm2; reflexivity|].
  split; [rewrite Hm, Hm2; reflexivity|].
  split; [rewrite Hft; exact Hft2|].
  split; [rewrite Hshape; apply shape_zeros_like|].
  intros r c Hnot. rewrite Hout by exact Hnot. apply nth_zeros_like.
Qed.

Lemma run_returns_log maskslits doqa wv gen s v s' :
  lower (par_method par) <> "zero"%string ->
  run_ maskslits doqa wv gen s = Returns v s' ->
  exists m,
    mask s' = Some m
    /\ steps s' = steps s ++ "_extract_arcs"%string
                             :: flat_map (fun _ => ["_analyze_lines"; "_fit_tilts"]%string)
                                         (where_unmasked m).
Proof.
  intros Hz H.
  apply run_returns_inv in H
    as (ts & sm & cen & am & m & cf & u & s2 & Hr & Hloop & Hst & _ & Hm & _);
    [|exact Hz].
  pose proof (for_each_frame doqa wv (where_unmasked m)
                (after_setup msarc sm cen am m cf s)) as Hframe.
  rewrite Hloop in Hframe. cbn [attrs_of] in Hframe.
  destruct Hframe as (_ & Hm2 & _).
  apply for_each_returns in Hloop as (Hlog & _).
  exists m. split; [rewrite Hm, Hm2; reflexivity|].
  rewrite Hst, Hlog. cbn. rewrite <- app_assoc. reflexivity.
Qed.

(** X2: when [run] returns in a method other than "zero", it has added
    to the log of steps [_extract_arcs] once and then [_analyze_lines]
    and [_fit_tilts] once per slit of the loop, in this order. *)
Theorem run_log_on_return maskslits doqa wv gen s v s' :
  lower (par_method par) <> "zero"%string ->
  run_ maskslits doqa wv gen s = Returns v s' ->
  exists m,
    mask s' = Some m
    /\ steps s' = steps s ++ "_extract_arcs"%string
                             :: flat_map (fun _ => ["_analyze_lines"; "_fit_tilts"]%string)
                                         (where_unmasked m).
Proof. exact (run_returns_log maskslits doqa wv gen s v s'). Qed.

Lemma run_frame maskslits doqa wv gen s :
  all_trcdict (attrs_of (run_ maskslits doqa wv gen s)) = all_trcdict s
  /\ exists suf,
       steps (attrs_of (run_ maskslits doqa wv gen s)) = steps s ++ suf
       /\ incl suf ["_extract_arcs"; "_analyze_lines"; "_fit_tilts"]%string.
Proof.
  remember (attrs_of (run_ maskslits doqa wv gen s)) as s' eqn:Hs'.
  unfold run in Hs'.
  destruct (String.eqb _ _).
  - subst s'. cbn. split; [reflexivity|]. log_suffix constr:(@nil string).
  - unfold bind in Hs'.
    destruct (run_setup_frame maskslits s) as (Hd & suf & Hst & Hin).
    destruct (setup_ maskslits s) as [mg s1 | e s1]; cbn [attrs_of] in *.
    + destruct (for_each_frame doqa wv (snd mg) s1) as (_ & _ & Hd2 & suf2 & Hst2 & Hin2).
      assert (Hfin : all_trcdict s' = all_trcdict s
                     /\ steps s' = (steps s ++ suf) ++ suf2).
      { destruct (for_each _ _ s1) as [u s2 | e s2]; cbn [attrs_of] in *; subst s'.
        - unfold run_finish, bind, get, assign, ret. cbn.
          rewrite Hd2, Hd, Hst2, Hst. split; reflexivity.
        - cbn. rewrite Hd2, Hd, Hst2, Hst. split; reflexivity. }
      destruct Hfin as [Hd3 Hst3]. split; [exact Hd3|].
      exists (suf ++ suf2). split; [rewrite Hst3; symmetry; apply app_assoc|].
      apply incl_app; intros x Hx; [apply Hin in Hx | apply Hin2 in Hx];
        cbn in Hx |- *; tauto.
    + subst s'. cbn. split; [exact Hd|]. exists suf. split; [exact Hst|].
      intros x Hx. apply Hin in Hx. cbn in Hx |- *. tauto.
Qed.

(** X3: whether [run] returns or raises, and in every method, the log
    of steps only grows, by names among [_extract_arcs],
    [_analyze_lines] and [_fit_tilts] ([_trace_tilts], called for every
    slit of the loop, never logs itself), and the list of the trace
    dictionaries is the one found at the call. *)
Theorem run_log_only_grows maskslits doqa wv gen s :
  all_trcdict (attrs_of (run_ maskslits doqa wv gen s)) = all_trcdict s
  /\ exists suf,
       steps (attrs_of (run_ maskslits doqa wv gen s)) = steps s ++ suf
       /\ incl suf ["_extract_arcs"; "_analyze_lines"; "_fit_tilts"]%string.
Proof. exact (run_frame maskslits doqa wv gen s). Qed.

(** X4: [_trace_tilts] assigns no attribute, whether it returns or
    raises.  [_extract_arcs] and [_fit_tilts] either raise and leave
    every attribute as it was, or return.  [_analyze_lines] does so
    too, with one exception: the two targets of line 185 are assigned
    from left to right, so that when the list [all_ttilts] has no item
    for the slit the method raises [IndexError] after it has stored
    [badlines], and has changed nothing else.  The three methods, when
    they return, add their own name to the log of steps and nothing
    else to it. *)
Theorem stage_methods_atomic slit doqa wv s :
  attrs_of (trace_ slit wv s) = s
  /\ match extract_ s with
     | Returns _ s' => steps s' = steps s ++ ["_extract_arcs"%string]
     | Raises _ s' => s' = s
     end
  /\ match analyze_ slit s with
     | Returns _ s' => steps s' = steps s ++ ["_analyze_lines"%string]
     | Raises e s' =>
         s' = s
         \/ (e = IndexError /\ (length (all_ttilts s) <= slit)%nat
             /\ exists bad, s' = set_badlines bad s)
     end
  /\ match fit_ slit doqa s with
     | Returns _ s' => steps s' = steps s ++ ["_fit_tilts"%string]
     | Raises _ s' => s' = s
     end.
Proof.
  split; [apply trace_tilts_keeps_attrs|].
  split; [|split].
  - pose proof (extract_arcs_effect s) as H.
    destruct (extract_ s); [rewrite H; reflexivity | exact H].
  - pose proof (analyze_lines_effect slit s) as H.
    destruct (analyze_ slit s); [|exact H].
    destruct H as (r & tt1 & _ & H). rewrite H. reflexivity.
  - pose proof (fit_tilts_effect slit doqa s) as H.
    destruct (fit_ slit doqa s); [|exact H].
    destruct H as (o & H). rewrite H. reflexivity.
Qed.

Lemma zeros3_planes (a b : Z) (n : nat) (cf : list (image Q)) :
  zeros3 a b n = Ok cf -> cf = repeat (repeat (repeat 0 (Z.to_nat b)) (Z.to_nat a)) n.
Proof.
  unfold zeros3. destruct ((a <? 0) || (b <? 0))%Z; [discriminate|].
  intros H. inversion H. reflexivity.
Qed.

(** X5: when [run] returns in a method other than "zero", the
    coefficients hold one plane per slit, and the plane of every slit
    that the loop left out is the zero plane of [order + 2] rows and
    [yorder + 1] columns. *)
Theorem run_coeffs_planes maskslits doqa wv gen s v s' :
  lower (par_method par) <> "zero"%string ->
  run_ maskslits doqa wv gen s = Returns v s' ->
  exists m cf,
    mask s' = Some m /\ coeffs s' = Some cf
    /\ length cf = nslit tslits_dict
    /\ forall j, (j < nslit tslits_dict)%nat -> ~ In j (where_unmasked m) ->
                 nth j cf []
                 = repeat (repeat 0 (Z.to_nat (par_yorder par + 1)))
                          (Z.to_nat (par_order par + 2)).
Proof.
  intros Hz H.
  apply run_returns_inv in H
    as (ts & sm & cen & am & m & cf & u & s2 & Hr & Hloop & _ & _ & Hm & _ & _ & Hcf & _);
    [|exact Hz].
  pose proof (for_each_frame doqa wv (where_unmasked m)
                (after_setup msarc sm cen am m cf s)) as Hframe.
  rewrite Hloop in Hframe. cbn [attrs_of] in Hframe.
  destruct Hframe as (_ & Hm2 & _).
  apply for_each_returns in Hloop as (_ & _ & Hco).
  destruct (Hco cf eq_refl) as (cf' & Hcf' & Hlen & Hother & _).
  destruct Hr as (_ & _ & _ & _ & Hzero). apply zeros3_planes in Hzero.
  exists m, cf'.
  split; [rewrite Hm, Hm2; reflexivity|].
  split; [rewrite Hcf; exact Hcf'|].
  split; [rewrite Hlen, Hzero; apply repeat_length|].
  intros j Hj Hnot. rewrite Hother by exact Hnot. rewrite Hzero.
  rewrite (nth_indep _ [] (repeat (repeat 0 (Z.to_nat (par_yorder par + 1)))
                                  (Z.to_nat (par_order par + 2))))
    by (rewrite repeat_length; exact Hj).
  apply nth_repeat.
Qed.

Lemma mask_and_default (n : nat) (am : list Z) (m : list bool) :
  mask_and (repeat false n) am = Ok m ->
  m = repeat false (length m) /\ (length am = n -> length m = n).
Proof.
  unfold mask_and. rewrite length_map, repeat_length.
  assert (Hcomb : forall (l : list bool) k,
             map (fun p => fst p && snd p) (combine (repeat false k) l)
             = repeat false (length (combine (repeat false k) l))).
  { intros l k. revert l. induction k as [|k IH]; intros [|x l]; cbn; try reflexivity.
    f_equal. apply IH. }
  assert (Hleft : forall l : list bool, map (andb false) l = repeat false (length l)).
  { induction l as [|x l IH]; cbn; [reflexivity | f_equal; exact IH]. }
  assert (Hright : forall y k, map (fun x : bool => x && y) (repeat false k)
                               = repeat false k).
  { intros y k. induction k as [|k IH]; cbn; [reflexivity | f_equal; exact IH]. }
  destruct (Nat.eqb_spec n (length am)) as [Heq | Hne].
  - intros H. inversion H; subst m; clear H. rewrite length_map. split.
    + apply Hcomb.
    + intros _. rewrite length_combine, repeat_length, length_map. lia.
  - intros H. split; [|intros Hlen; exfalso; apply Hne; symmetry; exact Hlen].
    destruct n as [|[|n]]; cbn [repeat] in H.
    + destruct am as [|y [|z am]]; cbn in H; try discriminate.
      inversion H. reflexivity.
    + inversion H; subst m. rewrite Hleft, repeat_length. reflexivity.
    + destruct am as [|y [|z am]]; cbn [map] in H; try discriminate.
      inversion H; subst m; clear H.
      change (?a :: ?b :: map ?f (repeat false n))
        with (map f (repeat false (S (S n)))).
      rewrite Hright, repeat_length. reflexivity.
Qed.

Lemma where_unmasked_none (n : nat) : where_unmasked (repeat false n) = arange n.
Proof.
  unfold where_unmasked. rewrite repeat_length.
  unfold arange. generalize 0%nat as a.
  induction n as [|n IH]; intros a; cbn; [reflexivity | f_equal; apply IH].
Qed.

(** X6: with the default [maskslits=None], the slits that the
    extraction of the arcs flagged are masked no more than the others:
    when [run] returns and the extraction gave one flag per slit, the
    mask is [False] for every slit and the log shows the analysis and
    the fit of each of the slits 0 to [nslit - 1]. *)
Theorem default_mask_processes_every_slit doqa wv gen s v s' :
  lower (par_method par) <> "zero"%string ->
  run_ None doqa wv gen s = Returns v s' ->
  exists am,
    arc_maskslit s' = Some am
    /\ (length am = nslit tslits_dict ->
        mask s' = Some (repeat false (nslit tslits_dict))
        /\ steps s' = steps s
                       ++ "_extract_arcs"%string
                          :: flat_map (fun _ => ["_analyze_lines"; "_fit_tilts"]%string)
                                      (arange (nslit tslits_dict))).
Proof.
  intros Hz H.
  destruct (run_returns_log None doqa wv gen s v s' Hz H) as (m0 & Hm0 & Hlog).
  apply run_returns_inv in H
    as (ts & sm & cen & am & m & cf & u & s2 & Hr & Hloop & _ & _ & Hm & _ & _ & _ & Ham & _);
    [|exact Hz].
  pose proof (for_each_frame doqa wv (where_unmasked m)
                (after_setup msarc sm cen am m cf s)) as Hframe.
  pose proof (for_each_keeps_flags doqa wv (where_unmasked m)
                (after_setup msarc sm cen am m cf s)) as Hflags.
  rewrite Hloop in Hframe, Hflags. cbn [attrs_of] in Hframe, Hflags.
  destruct Hframe as (_ & Hm2 & _).
  exists am. split; [rewrite Ham, Hflags; reflexivity|].
  intros Hlen.
  destruct Hr as (_ & _ & _ & Hmask & _). cbn [given_mask] in Hmask.
  apply mask_and_default in Hmask as [Hrep Hn]. specialize (Hn Hlen).
  rewrite Hn in Hrep.
  rewrite Hm, Hm2 in Hm0. cbn in Hm0. inversion Hm0; subst m0.
  rewrite Hrep in Hlog. rewrite where_unmasked_none in Hlog.
  split; [rewrite Hm, Hm2; cbn; rewrite Hrep; reflexivity | exact Hlog].
Qed.

(** ** [save_master] after [run] *)

Lemma save_slits_without_dictionary s m (N n a j : nat) (hdul : list hdu) :
  mask s = Some m -> all_trcdict s = repeat None N ->
  (a <= j < a + n)%nat -> (a + n <= N)%nat ->
  (j < length m)%nat -> nth j m false = false ->
  rfold (save_slit s) (seq a n) hdul = Raise TypeError.
Proof.
  intros Hm Hd. revert a hdul.
  induction n as [|n IH]; intros a hdul Hj HN Hlen Hfree; [lia|].
  cbn [seq rfold]. unfold rbind, save_slit at 1. rewrite Hm. unfold rbind.
  rewrite VectorFacts.py_index_of_nat.
  rewrite (nth_error_nth' m false) by lia.
  destruct (nth a m false) eqn:Ha.
  - apply IH; try assumption; try lia.
    destruct (Nat.eq_dec a j) as [Heq|]; [|lia].
    subst a. rewrite Ha in Hfree. discriminate.
  - rewrite Hd. rewrite VectorFacts.py_index_of_nat.
    rewrite (nth_error_nth' (repeat None N) None) by (rewrite repeat_length; lia).
    rewrite nth_repeat. reflexivity.
Qed.

(** X7: [run] followed by [save_master] on an instance that holds no
    trace dictionary (as after [__init__]): when [run] returned in a
    method other than "zero" and its loop went through a slit,
    [save_master] raises [TypeError] at the first such slit, for every
    file name, and writes nothing. *)
Theorem save_master_after_run_raises maskslits doqa wv gen s v s' m ms_name outfile fs :
  all_trcdict s = repeat None (nslit tslits_dict) ->
  lower (par_method par) <> "zero"%string ->
  run_ maskslits doqa wv gen s = Returns v s' ->
  mask s' = Some m ->
  where_unmasked m <> [] ->
  save_master par tslits_dict ms_name outfile s' fs = Raise TypeError.
Proof.
  intros Hd Hz H Hm Hsome.
  destruct (run_frame maskslits doqa wv gen s) as [Hd' _].
  rewrite H in Hd'. cbn [attrs_of] in Hd'.
  apply run_returns_inv in H
    as (ts & sm & cen & am & m0 & cf & u & s2 & Hr & Hloop & _ & _ & Hm0 & _ & Hft & _);
    [|exact Hz].
  pose proof (for_each_frame doqa wv (where_unmasked m0)
                (after_setup msarc sm cen am m0 cf s)) as Hframe.
  rewrite Hloop in Hframe. cbn [attrs_of] in Hframe.
  destruct Hframe as (_ & Hm2 & _).
  rewrite Hm0, Hm2 in Hm. cbn in Hm. inversion Hm; subst m0; clear Hm.
  apply for_each_returns in Hloop as (_ & Hpix & Hco).
  destruct (Hpix sm (zeros_like msarc) eq_refl eq_refl) as (ft & Hft2 & _).
  destruct (Hco cf eq_refl) as (_ & _ & _ & _ & Hin).
  destruct Hr as (_ & _ & _ & _ & Hzero). apply zeros3_planes in Hzero.
  destruct (where_unmasked m) as [|j rest] eqn:Hgd; [contradiction|].
  assert (Hj : In j (where_unmasked m)) by (rewrite Hgd; left; reflexivity).
  specialize (Hin j (or_introl eq_refl)).
  rewrite Hzero, repeat_length in Hin.
  apply RunClaims.In_where_unmasked in Hj as [Hlt Hfree].
  unfold save_master. rewrite Hft, Hft2. unfold arange.
  rewrite (save_slits_without_dictionary s' m (nslit tslits_dict) (nslit tslits_dict) 0 j);
    try assumption; try lia; try reflexivity.
  - rewrite Hm0, Hm2. reflexivity.
  - rewrite Hd'. exact Hd.
Qed.

(** X8: the threshold of the configuration decides only whether
    [_trace_tilts] raises on it: for two configurations whose
    [tracethresh] both give a threshold for the slit, the outcomes of
    [_trace_tilts] are the same, whatever the two values. *)
Theorem tracethresh_value_ignored (par' : WaveTiltsPar) slit wv s t t' :
  tracethresh_of par slit = Ok t ->
  tracethresh_of par' slit = Ok t' ->
  trace_ slit wv s
  = @_trace_tilts E wv_calib_t par' msarc tslits_dict det detector slit wv s.
Proof.
  intros Ht Ht'.
  cbv beta iota zeta delta [_trace_tilts bind lift].
  rewrite Ht, Ht'. reflexivity.
Qed.

(** X9: [run] in the method "zero" followed by [save_master]: the run
    assigns the image of the final tilts but no mask, so that on an
    instance with a slit and without a mask (as after [__init__])
    [save_master] raises [TypeError] at the first slit and writes
    nothing. *)
Theorem save_master_after_zero_run maskslits doqa wv gen s v s' ms_name outfile fs :
  lower (par_method par) = "zero"%string ->
  mask s = None ->
  (0 < nslit tslits_dict)%nat ->
  run_ maskslits doqa wv gen s = Returns v s' ->
  save_master par tslits_dict ms_name outfile s' fs = Raise TypeError.
Proof.
  intros Hz Hm Hn H. rewrite RunFacts.run_zero_mode in H by exact Hz.
  inversion H; subst v s'; clear H.
  unfold save_master. cbn [final_tilts set_final_tilts]. unfold arange.
  destruct (nslit tslits_dict) as [|n]; [lia|].
  cbn [seq rfold]. unfold rbind at 2. unfold save_slit at 1.
  cbn [mask set_final_tilts]. rewrite Hm. reflexivity.
Qed.
End Stages.

(** The exception of [_analyze_lines] after the first of its two
    assignments arises: on an instance whose list [all_ttilts] has no
    item for the slit, the method raises [IndexError] and [badlines] has
    changed. *)
Lemma analyze_lines_stores_badlines_first :
  _analyze_lines (Sample.collab Sample.one_peak [0%Z] true)
                 (Sample.par_of "spca" (PyFloat 10)) Sample.msarc (Some Sample.slits)
                 0 Sample.no_tilt_slots
  = Raises IndexError (set_badlines 0 Sample.no_tilt_slots)
  /\ badlines (set_badlines 0 Sample.no_tilt_slots) <> badlines Sample.no_tilt_slots.
Proof. split; [vm_compute; reflexivity | discriminate]. Qed.

(** ** The exposure with two slits *)

Lemma run_writes_only_unmasked_regions_witness :
  lower "spca" <> "zero"%string
  /\ exists sm m ft,
       slitmask (attrs_of (TwoSlits.run_two [1; 0]%Z (PyFloat 10) (Some [true; false])))
       = Some sm
       /\ mask (attrs_of (TwoSlits.run_two [1; 0]%Z (PyFloat 10) (Some [true; false])))
          = Some m
       /\ final_tilts (attrs_of (TwoSlits.run_two [1; 0]%Z (PyFloat 10)
                                   (Some [true; false])))
          = Some ft
       /\ map (@length Q) ft = map (@length Q) Sample.msarc
       /\ forall r c,
            ~ In (nth c (nth r sm []) (-1)%Z) (map Z.of_nat (where_unmasked m)) ->
            nth c (nth r ft []) 0 = 0.
Proof.
  split; [exact RunSamples.spca_is_not_zero|].
  eapply (run_writes_only_unmasked_regions (TwoSlits.collab [1; 0]%Z) unit
            (Sample.par_of "spca" (PyFloat 10)) Sample.msarc None (Some TwoSlits.slits)
            (Some 1%Z) Sample.detector (Some [true; false]) true None false (init 2)).
  - exact RunSamples.spca_is_not_zero.
  - vm_compute. reflexivity.
Defined.

Lemma run_log_on_return_witness :
  lower "spca" <> "zero"%string
  /\ exists m,
       mask (attrs_of (TwoSlits.run_two [1; 0]%Z (PyFloat 10) (Some [true; false])))
       = Some m
       /\ steps (attrs_of (TwoSlits.run_two [1; 0]%Z (PyFloat 10) (Some [true; false])))
          = steps (init 2)
            ++ "_extract_arcs"%string
               :: flat_map (fun _ => ["_analyze_lines"; "_fit_tilts"]%string)
                           (where_unmasked m).
Proof.
  split; [exact RunSamples.spca_is_not_zero|].
  eapply (run_log_on_return (TwoSlits.collab [1; 0]%Z) unit
            (Sample.par_of "spca" (PyFloat 10)) Sample.msarc None (Some TwoSlits.slits)
            (Some 1%Z) Sample.detector (Some [true; false]) true None false (init 2)).
  - exact RunSamples.spca_is_not_zero.
  - vm_compute. reflexivity.
Defined.

Lemma run_coeffs_planes_witness :
  lower "spca" <> "zero"%string
  /\ exists m cf,
       mask (attrs_of (TwoSlits.run_two [1; 0]%Z (PyFloat 10) (Some [true; false])))
       = Some m
       /\ coeffs (attrs_of (TwoSlits.run_two [1; 0]%Z (PyFloat 10) (Some [true; false])))
          = Some cf
       /\ length cf = nslit (Some TwoSlits.slits)
       /\ forall j, (j < nslit (Some TwoSlits.slits))%nat -> ~ In j (where_unmasked m) ->
                    nth j cf [] = repeat (repeat 0 (Z.to_nat (2 + 1))) (Z.to_nat (1 + 2)).
Proof.
  split; [exact RunSamples.spca_is_not_zero|].
  eapply (run_coeffs_planes (TwoSlits.collab [1; 0]%Z) unit
            (Sample.par_of "spca" (PyFloat 10)) Sample.msarc None (Some TwoSlits.slits)
            (Some 1%Z) Sample.detector (Some [true; false]) true None false (init 2)).
  - exact RunSamples.spca_is_not_zero.
  - vm_compute. reflexivity.
Defined.

(** Both slits flagged by the extraction and no mask given: both are
    analysed and fitted. *)
Lemma default_mask_processes_every_slit_witness :
  lower "spca" <> "zero"%string
  /\ exists am,
       arc_maskslit (attrs_of (TwoSlits.run_two [1; 1]%Z (PyFloat 10) None)) = Some am
       /\ (length am = nslit (Some TwoSlits.slits) ->
           mask (attrs_of (TwoSlits.run_two [1; 1]%Z (PyFloat 10) None))
           = Some (repeat false (nslit (Some TwoSlits.slits)))
           /\ steps (attrs_of (TwoSlits.run_two [1; 1]%Z (PyFloat 10) None))
              = steps (init 2)
                ++ "_extract_arcs"%string
                   :: flat_map (fun _ => ["_analyze_lines"; "_fit_tilts"]%string)
                               (arange (nslit (Some TwoSlits.slits)))).
Proof.
  split; [exact RunSamples.spca_is_not_zero|].
  eapply (default_mask_processes_every_slit (TwoSlits.collab [1; 1]%Z) unit
            (Sample.par_of "spca" (PyFloat 10)) Sample.msarc None (Some TwoSlits.slits)
            (Some 1%Z) Sample.detector true None false (init 2)).
  - exact RunSamples.spca_is_not_zero.
  - vm_compute. reflexivity.
Defined.

Lemma save_master_after_run_raises_witness :
  all_trcdict (init 2) = repeat None (nslit (Some TwoSlits.slits))
  /\ mask (attrs_of (TwoSlits.run_two [1; 0]%Z (PyFloat 10) (Some [true; false])))
     = Some [true; false]
  /\ where_unmasked [true; false] <> []
  /\ save_master (Sample.par_of "spca" (PyFloat 10)) (Some TwoSlits.slits)
       "MasterTilts_A_01_aa.fits" None
       (attrs_of (TwoSlits.run_two [1; 0]%Z (PyFloat 10) (Some [true; false])))
       (fun _ => None)
     = Raise TypeError.
Proof.
  split; [reflexivity|]. split; [reflexivity|]. split; [discriminate|].
  eapply (save_master_after_run_raises (TwoSlits.collab [1; 0]%Z) unit
            (Sample.par_of "spca" (PyFloat 10)) Sample.msarc None (Some TwoSlits.slits)
            (Some 1%Z) Sample.detector (Some [true; false]) true None false (init 2)
            _ _ [true; false]).
  - reflexivity.
  - exact RunSamples.spca_is_not_zero.
  - vm_compute. reflexivity.
  - reflexivity.
  - discriminate.
Defined.

Lemma tracethresh_value_ignored_witness :
  tracethresh_of (Sample.par_of "spca" (PyFloat 10)) 0 = Ok 10
  /\ tracethresh_of (Sample.par_of "spca" (PyList [1000; 2000])) 0 = Ok 1000
  /\ _trace_tilts (Sample.collab Sample.one_peak [0%Z] false)
       (Sample.par_of "spca" (PyFloat 10)) Sample.msarc (Some Sample.slits) (Some 1%Z)
       Sample.detector 0 (@None unit) (set_arcs Sample.spectra [0%Z] (init 1))
     = _trace_tilts (Sample.collab Sample.one_peak [0%Z] false)
         (Sample.par_of "spca" (PyList [1000; 2000])) Sample.msarc (Some Sample.slits)
         (Some 1%Z) Sample.detector 0 (@None unit)
         (set_arcs Sample.spectra [0%Z] (init 1)).
Proof.
  split; [reflexivity|]. split; [reflexivity|].
  apply (tracethresh_value_ignored (Sample.collab Sample.one_peak [0%Z] false) unit
           (Sample.par_of "spca" (PyFloat 10)) Sample.msarc (Some Sample.slits) (Some 1%Z)
           Sample.detector (Sample.par_of "spca" (PyList [1000; 2000])) 0%nat None
           (set_arcs Sample.spectra [0%Z] (init 1)) 10 1000); reflexivity.
Defined.

Lemma save_master_after_zero_run_witness :
  lower "ZERO" = "zero"%string
  /\ save_master (Sample.par_of "ZERO" (PyFloat 10)) (Some TwoSlits.slits)
       "MasterTilts_A_01_aa.fits" None
       (attrs_of (run (TwoSlits.collab [0; 0]%Z) (Sample.par_of "ZERO" (PyFloat 10))
                      Sample.msarc None (Some TwoSlits.slits) (Some 1%Z) Sample.detector
                      None true (@None unit) false (init 2)))
       (fun _ => None)
     = Raise TypeError.
Proof.
  split; [reflexivity|].
  eapply (save_master_after_zero_run (TwoSlits.collab [0; 0]%Z) unit
            (Sample.par_of "ZERO" (PyFloat 10)) Sample.msarc None (Some TwoSlits.slits)
            (Some 1%Z) Sample.detector None true None false (init 2)).
  - reflexivity.
  - reflexivity.
  - cbn. lia.
  - vm_compute. reflexivity.
Defined.
End RunInvariants.

(** * Which peaks are left to trace *)

Module SelectionFacts.
Import LineSelector.

(** A vector that is not empty has a largest entry. *)
Lemma largest_entry (l : list Q) :
  l <> [] ->
  exists k, (k < length l)%nat /\ forall j, (j < length l)%nat -> nth j l 0 <= nth k l 0.
Proof.
  induction l as [|x l IH]; [contradiction|]. intros _.
  destruct l as [|y l].
  - exists 0%nat. split; [simpl; lia|]. intros [|j] Hj; [apply Qle_refl | simpl in Hj; lia].
  - destruct IH as (k & Hk & Hmax); [discriminate|].
    destruct (Qlt_le_dec (nth k (y :: l) 0) x) as [Hlt | Hle].
    + exists 0%nat. split; [simpl; lia|]. intros [|j] Hj; [apply Qle_refl|].
      cbn [nth]. apply Qle_trans with (nth k (y :: l) 0).
      * apply Hmax. simpl in Hj |- *. lia.
      * apply Qlt_le_weak. exact Hlt.
    + exists (S k). split; [simpl in Hk |- *; lia|]. intros [|j] Hj.
      * exact Hle.
      * apply Hmax. simpl in Hj |- *. lia.
Qed.

Lemma bool_index_selects (a : list Q) (m : list bool) :
  length a = length m ->
  (bool_index a m <> [] <-> exists i, (i < length m)%nat /\ nth i m false = true).
Proof.
  intros Hlen.
  rewrite (LineSelectorFacts.bool_index_as_map 0 a m 0 Hlen). split.
  - intros Hne.
    destruct (bool_index (seq 0 (length m)) m) as [|i rest] eqn:Hidx; [contradiction|].
    exists i. apply VectorFacts.In_bool_index_arange. unfold arange. rewrite Hidx.
    left. reflexivity.
  - intros (i & Hi). apply VectorFacts.In_bool_index_arange in Hi. unfold arange in Hi.
    destruct (bool_index (seq 0 (length m)) m); [contradiction | discriminate].
Qed.

Section Suppression.
Variables (arcdet nsig : list Q).
Variables (tracethresh n_neigh : Q).
Hypothesis same_length : length arcdet = length nsig.

Local Abbreviation kept := (suppress_neighbours arcdet nsig tracethresh n_neigh).

(** A peak of the largest significance that reaches the threshold is
    never suppressed. *)
Lemma brightest_is_kept i :
  (i < length arcdet)%nat ->
  tracethresh <= nth i nsig 0 ->
  (forall j, (j < length arcdet)%nat -> nth j nsig 0 <= nth i nsig 0) ->
  nth i kept false = true.
Proof.
  intros Hi Hthr Hmax.
  rewrite (LineSelectorFacts.nth_suppress_neighbours arcdet nsig tracethresh n_neigh
             same_length i Hi).
  apply andb_true_iff. split; [apply Qle_bool_iff; exact Hthr|].
  apply negb_true_iff.
  destruct (outshone arcdet nsig n_neigh i) eqn:Hout; [|reflexivity].
  apply (LineSelectorFacts.outshone_spec arcdet nsig n_neigh same_length i) in Hout
    as (j & Hj & _ & Hlt).
  exfalso. apply (Qlt_not_le _ _ Hlt). apply Hmax. exact Hj.
Qed.

Lemma some_line_kept_iff :
  bool_index arcdet kept <> []
  <-> exists i, (i < length arcdet)%nat /\ tracethresh <= nth i nsig 0.
Proof.
  pose proof (LineSelectorFacts.suppress_neighbours_length arcdet nsig tracethresh n_neigh
                same_length) as Hlen.
  rewrite bool_index_selects by (symmetry; exact Hlen). rewrite Hlen. split.
  - intros (i & Hi & Hkept). exists i. split; [exact Hi|].
    rewrite (LineSelectorFacts.nth_suppress_neighbours arcdet nsig tracethresh n_neigh
               same_length i Hi) in Hkept.
    apply andb_true_iff in Hkept as [Hthr _]. apply Qle_bool_iff. exact Hthr.
  - intros (i & Hi & Hthr).
    destruct (largest_entry nsig) as (k & Hk & Hmax).
    { intros Hnil. rewrite Hnil in same_length. simpl in same_length. lia. }
    exists k. rewrite <- same_length in Hk. split; [exact Hk|].
    apply brightest_is_kept; [exact Hk | | ].
    + apply Qle_trans with (nth i nsig 0); [exact Hthr|].
      apply Hmax. rewrite <- same_length. exact Hi.
    + intros j Hj. apply Hmax. rewrite <- same_length. exact Hj.
Qed.
End Suppression.

(** X10: the suppression of neighbours never removes every candidate: a
    peak of the largest significance that reaches the threshold is kept,
    so that some line is left to trace exactly when some peak reaches
    the threshold. *)
Theorem suppression_keeps_the_brightest :
  forall (arcdet nsig : list Q) (tracethresh n_neigh : Q),
    length arcdet = length nsig ->
    (forall i,
        (i < length arcdet)%nat ->
        tracethresh <= nth i nsig 0 ->
        (forall j, (j < length arcdet)%nat -> nth j nsig 0 <= nth i nsig 0) ->
        nth i (suppress_neighbours arcdet nsig tracethresh n_neigh) false = true)
    /\ (bool_index arcdet (suppress_neighbours arcdet nsig tracethresh n_neigh) <> []
        <-> exists i, (i < length arcdet)%nat /\ tracethresh <= nth i nsig 0).
Proof.
  intros arcdet nsig tracethresh n_neigh Hlen. split.
  - intros i. apply brightest_is_kept. exact Hlen.
  - apply some_line_kept_iff. exact Hlen.
Qed.

(** Two peaks seven pixels apart and of equal significance: neither
    outshines the other, and both are kept. *)
Lemma suppression_keeps_the_brightest_witness :
  length [100; 107] = length [12; 12]
  /\ nth 0 (suppress_neighbours [100; 107] [12; 12] 10 15) false = true
  /\ (bool_index [100; 107] (suppress_neighbours [100; 107] [12; 12] 10 15) <> []
      <-> exists i, (i < length [100; 107])%nat /\ 10 <= nth i [12; 12] 0).
Proof.
  split; [reflexivity|].
  destruct (suppression_keeps_the_brightest [100; 107] [12; 12] 10 15 eq_refl)
    as [Hkeep Hiff].
  split; [|exact Hiff].
  apply Hkeep.
  - simpl. lia.
  - discriminate.
  - intros [|[|j]] Hj; simpl in Hj |- *; try lia; apply Qle_refl.
Defined.

(** X11: with an empty list of expected positions, [np.min] of line 341
    has nothing to reduce: the selection raises [ValueError] as soon as
    one candidate is left after the suppression, and returns the vector
    of the suppression, all [False], when none is. *)
Theorem expected_positions_empty :
  forall (arcdet nsig : list Q) (tracethresh n_neigh : Q),
    length arcdet = length nsig ->
    ((exists i, (i < length arcdet)%nat /\ tracethresh <= nth i nsig 0) ->
     select_lines arcdet nsig tracethresh n_neigh (Some []) = Raise ValueError)
    /\ ((forall i, (i < length arcdet)%nat -> nth i nsig 0 < tracethresh) ->
        select_lines arcdet nsig tracethresh n_neigh (Some [])
        = Ok (repeat false (length arcdet))).
Proof.
  intros arcdet nsig tracethresh n_neigh Hlen.
  pose proof (LineSelectorFacts.suppress_neighbours_length arcdet nsig tracethresh n_neigh
                Hlen) as Hklen.
  unfold select_lines, restrict_to_ids. split.
  - intros Hex. apply (some_line_kept_iff arcdet nsig tracethresh n_neigh Hlen) in Hex.
    rewrite (LineSelectorFacts.bool_index_as_map 0 arcdet _ 0) in Hex
      by (symmetry; exact Hklen).
    rewrite Hklen in Hex. unfold arange.
    destruct (bool_index (seq 0 (length arcdet)) _) as [|i rest]; [contradiction|].
    reflexivity.
  - intros Hlow.
    assert (Hall : suppress_neighbours arcdet nsig tracethresh n_neigh
                   = repeat false (length arcdet)).
    { apply (nth_ext _ _ false false); [rewrite repeat_length; exact Hklen|].
      intros i Hi. rewrite Hklen in Hi. rewrite nth_repeat.
      rewrite (LineSelectorFacts.nth_suppress_neighbours arcdet nsig tracethresh n_neigh
                 Hlen i Hi).
      apply andb_false_iff. left.
      destruct (Qle_bool tracethresh (nth i nsig 0)) eqn:Hle; [|reflexivity].
      apply Qle_bool_iff in Hle. exfalso. apply (Qlt_not_le _ _ (Hlow i Hi)). exact Hle. }
    rewrite Hall.
    rewrite VectorFacts.bool_index_all_false; [reflexivity|].
    apply Forall_forall. intros b Hb. apply repeat_spec in Hb. exact Hb.
Qed.

Lemma expected_positions_empty_witness :
  length [100; 130] = length [12; 8]
  /\ select_lines [100; 130] [12; 8] 10 15 (Some []) = Raise ValueError
  /\ select_lines [100; 130] [12; 8] 20 15 (Some []) = Ok [false; false].
Proof.
  split; [reflexivity|].
  destruct (expected_positions_empty [100; 130] [12; 8] 10 15 eq_refl) as [Hraise _].
  destruct (expected_positions_empty [100; 130] [12; 8] 20 15 eq_refl) as [_ Hnone].
  split.
  - apply Hraise. exists 0%nat. split; [simpl; lia | discriminate].
  - apply Hnone. intros [|[|i]] Hi; simpl in Hi |- *; try lia; reflexivity.
Defined.
End SelectionFacts.

(** * The two outcomes of [_trace_tilts] *)

Module TraceOutcome.
Import WaveTilts.

Lemma take_index_length_from (a : list Q) (idx : list Z) (acc r : list Q) :
  rfold (fun acc i => (let! x := py_index a i in Ok (acc ++ [x]))%res) idx acc = Ok r ->
  length r = (length acc + length idx)%nat.
Proof.
  revert acc. induction idx as [|i idx IH]; intros acc H.
  - cbn in H. inversion H. cbn. lia.
  - cbn [rfold] in H. unfold rbind at 1 in H.
    destruct (py_index a i) as [x|e]; cbn [rbind] in H; [|discriminate].
    apply IH in H. rewrite H, length_app. cbn. lia.
Qed.

Lemma take_index_length (a : list Q) (idx : list Z) (r : list Q) :
  take_index a idx = Ok r -> length r = length idx.
Proof.
  intros H. apply take_index_length_from in H. exact H.
Qed.

Section Trace.
Variable E : collaborators.
Variable wv_calib_t : Type.
Variable par : WaveTiltsPar.
Variable msarc : image Q.
Variable tslits_dict : option tslits.
Variable det : option Z.
Variable detector : list detector_par.

Local Abbreviation trace_ := (@_trace_tilts E wv_calib_t par msarc tslits_dict det detector).

(** X12: [_trace_tilts] never returns a dictionary.  When the
    statements before the selection succeed, it returns [None] if every
    good peak is below the hard-coded threshold of 10, and it raises as
    soon as one good peak reaches 10, for then a line is left to trace
    and the path through the tracing loop ends in an exception. *)
Theorem trace_tilts_outcome slit wv s cen arcdet nsig :
  arccen s = Some cen ->
  detects_peaks E par msarc tslits_dict det detector slit cen arcdet nsig ->
  ((forall i, (i < length nsig)%nat -> nth i nsig 0 < 10) ->
   trace_ slit wv s = Returns None s)
  /\ ((exists i, (i < length nsig)%nat /\ 10 <= nth i nsig 0) ->
      exists e, trace_ slit wv s = Raises e s).
Proof.
  intros Hcen (thr & nlc & arc_spec & sl & sr & ts & sm & tc & ns & wg
               & Hthr & Hnlc & Hspec & Hts & Hsl & Hsr & Hsm & Hdet & Hpos & Hsig).
  assert (Hlen : length arcdet = length nsig).
  { apply take_index_length in Hpos. apply take_index_length in Hsig. lia. }
  split.
  - intros Hlow.
    assert (Hall : Forall (fun v => v < 10) nsig).
    { apply Forall_forall. intros v Hv. apply (In_nth _ _ 0) in Hv as (i & Hi & <-).
      apply Hlow. exact Hi. }
    destruct (NoCandidateFacts.select_lines_below arcdet nsig 10 15 Hall)
      as (aduse & Hsel & Hnone).
    unfold _trace_tilts, bind, lift, get, ret, the_tslits.
    rewrite Hthr, Hnlc, Hcen, Hspec, Hts, Hsl, Hsr, Hsm, Hdet. cbn [fst snd].
    rewrite Hpos, Hsig, Hsel, Hnone. reflexivity.
  - intros (i & Hi & Hbright).
    assert (Hkept : bool_index arcdet (LineSelector.suppress_neighbours arcdet nsig 10 15)
                    <> []).
    { apply (SelectionFacts.some_line_kept_iff arcdet nsig 10 15 Hlen).
      exists i. split; [rewrite Hlen; exact Hi | exact Hbright]. }
    unfold _trace_tilts, bind, lift, get, ret, the_tslits.
    rewrite Hthr, Hnlc, Hcen, Hspec, Hts, Hsl, Hsr, Hsm, Hdet. cbn [fst snd].
    rewrite Hpos, Hsig.
    unfold LineSelector.select_lines, LineSelector.restrict_to_ids.
    destruct (bool_index arcdet (LineSelector.suppress_neighbours arcdet nsig 10 15))
      as [|x lines] eqn:Hlines; [contradiction|].
    cbn [length Nat.eqb].
    destruct (RunClaims.trace_usable_lines_raises E msarc slit sl sr
                (equals_slit sm slit) (x :: lines)) as [e He].
    rewrite He. exists e. reflexivity.
Qed.
End Trace.

(** The sample slit with one peak of significance 20, and with one of
    significance 8. *)
Lemma trace_tilts_outcome_witness :
  (exists e,
      _trace_tilts (Sample.collab Sample.one_peak [0%Z] false)
        (Sample.par_of "spca" (PyFloat 10)) Sample.msarc (Some Sample.slits) (Some 1%Z)
        Sample.detector 0 (@None unit) (set_arcs Sample.spectra [0%Z] (init 1))
      = Raises e (set_arcs Sample.spectra [0%Z] (init 1)))
  /\ _trace_tilts (Sample.collab Sample.faint_peak [0%Z] false)
       (Sample.par_of "spca" (PyFloat 10)) Sample.msarc (Some Sample.slits) (Some 1%Z)
       Sample.detector 0 (@None unit) (set_arcs Sample.spectra [0%Z] (init 1))
     = Returns None (set_arcs Sample.spectra [0%Z] (init 1)).
Proof.
  split.
  - apply (trace_tilts_outcome (Sample.collab Sample.one_peak [0%Z] false) unit
             (Sample.par_of "spca" (PyFloat 10)) Sample.msarc (Some Sample.slits)
             (Some 1%Z) Sample.detector 0%nat None (set_arcs Sample.spectra [0%Z] (init 1))
             Sample.spectra [1] [20]).
    + reflexivity.
    + exists 10, (65535 * 0.9), [6; 9], [3; 3], [5; 5], Sample.slits, Sample.membership,
        [1], [20], [0%Z].
      repeat split; reflexivity.
    + exists 0%nat. split; [simpl; lia | discriminate].
  - apply (trace_tilts_outcome (Sample.collab Sample.faint_peak [0%Z] false) unit
             (Sample.par_of "spca" (PyFloat 10)) Sample.msarc (Some Sample.slits)
             (Some 1%Z) Sample.detector 0%nat None (set_arcs Sample.spectra [0%Z] (init 1))
             Sample.spectra [1] [8]).
    + reflexivity.
    + exists 10, (65535 * 0.9), [6; 9], [3; 3], [5; 5], Sample.slits, Sample.membership,
        [1], [8], [0%Z].
      repeat split; reflexivity.
    + intros [|i] Hi; simpl in Hi |- *; [reflexivity | lia].
Defined.
End TraceOutcome.

(** * The columns that the tracing loop fills *)

Module WindowFacts.
Import LineTracer.

Section Blank.
Context {A : Type}.
Implicit Types (vs : list A) (lo hi : option Z).

(** Assigning into a constant vector. *)
Lemma assign_slice_repeat (d : A) (n : nat) lo hi vs :
  (slice_start n lo <= slice_stop n hi)%nat ->
  length vs = (slice_stop n hi - slice_start n lo)%nat ->
  assign_slice (repeat d n) lo hi vs
  = Ok (repeat d (slice_start n lo) ++ vs ++ repeat d (n - slice_stop n hi)).
Proof.
  intros Hbe Hlen. unfold assign_slice. rewrite repeat_length, Hlen, Nat.eqb_refl.
  pose proof (SliceFacts.slice_start_le n lo).
  rewrite TraceStateCodecFacts.firstn_repeat by assumption.
  rewrite TraceStateCodecFacts.skipn_repeat.
  replace (n - (slice_start n lo + (slice_stop n hi - slice_start n lo)))%nat
    with (n - slice_stop n hi)%nat by lia.
  reflexivity.
Qed.

Lemma fill_slice_repeat (d v : A) (n : nat) lo hi :
  (slice_start n lo <= slice_stop n hi)%nat ->
  fill_slice (repeat d n) lo hi v
  = repeat d (slice_start n lo)
    ++ repeat v (slice_stop n hi - slice_start n lo)
    ++ repeat d (n - slice_stop n hi).
Proof.
  intros Hbe. unfold fill_slice. rewrite repeat_length.
  pose proof (SliceFacts.slice_start_le n lo).
  rewrite TraceStateCodecFacts.firstn_repeat by assumption.
  rewrite TraceStateCodecFacts.skipn_repeat.
  replace (n - (slice_start n lo + (slice_stop n hi - slice_start n lo)))%nat
    with (n - slice_stop n hi)%nat by lia.
  reflexivity.
Qed.

(** Reading back the slice that was assigned. *)
Lemma slice_spliced (d : A) (n : nat) lo hi vs :
  (slice_start n lo <= slice_stop n hi)%nat ->
  length vs = (slice_stop n hi - slice_start n lo)%nat ->
  slice (repeat d (slice_start n lo) ++ vs ++ repeat d (n - slice_stop n hi)) lo hi = vs.
Proof.
  intros Hbe Hlen. unfold slice.
  pose proof (SliceFacts.slice_stop_le n hi).
  assert (Htot : length (repeat d (slice_start n lo) ++ vs
                         ++ repeat d (n - slice_stop n hi)) = n)
    by (rewrite !length_app, !repeat_length; lia).
  rewrite Htot.
  rewrite skipn_app, repeat_length, Nat.sub_diag. cbn [skipn].
  rewrite skipn_all2 by (rewrite repeat_length; lia). cbn [app].
  rewrite <- Hlen. rewrite firstn_app, Nat.sub_diag. cbn [firstn].
  rewrite firstn_all, app_nil_r. reflexivity.
Qed.
End Blank.

(** The six assignments of one branch, on the blank columns. *)
Lemma store_blank (nspat nsub : nat) (spat_min spat_max : Z) (lo hi : option Z)
      (tilts_now err_now : list Q) :
  (slice_start nsub lo <= slice_stop nsub hi)%nat ->
  (slice_bound nspat (row_lo spat_min) <= slice_bound nspat (row_hi nspat spat_max))%nat ->
  (slice_stop nsub hi - slice_start nsub lo
   = slice_bound nspat (row_hi nspat spat_max) - slice_bound nspat (row_lo spat_min))%nat ->
  length tilts_now = (slice_stop nsub hi - slice_start nsub lo)%nat ->
  length err_now = (slice_stop nsub hi - slice_start nsub lo)%nat ->
  exists c,
    store nspat spat_min spat_max lo hi tilts_now err_now (columns_init nsub nspat) = Ok c
    /\ tilts c = repeat 0 (slice_bound nspat (row_lo spat_min)) ++ tilts_now
                 ++ repeat 0 (nspat - slice_bound nspat (row_hi nspat spat_max))
    /\ tilts_err c = repeat 0 (slice_bound nspat (row_lo spat_min)) ++ err_now
                     ++ repeat 0 (nspat - slice_bound nspat (row_hi nspat spat_max))
    /\ tilts_mask c
       = repeat false (slice_bound nspat (row_lo spat_min))
         ++ repeat true (slice_bound nspat (row_hi nspat spat_max)
                         - slice_bound nspat (row_lo spat_min))
         ++ repeat false (nspat - slice_bound nspat (row_hi nspat spat_max)).
Proof.
  intros H1 H2 Heq Ht He.
  unfold store, columns_init.
  cbn [tilts_sub tilts_sub_err tilts_sub_mask tilts tilts_err tilts_mask].
  rewrite (assign_slice_repeat 0 nsub lo hi tilts_now H1 Ht). cbn [rbind].
  rewrite (assign_slice_repeat 0 nsub lo hi err_now H1 He). cbn [rbind].
  rewrite (fill_slice_repeat false true nsub lo hi H1).
  rewrite (slice_spliced 0 nsub lo hi tilts_now H1 Ht).
  rewrite (slice_spliced 0 nsub lo hi err_now H1 He).
  rewrite (slice_spliced false nsub lo hi (repeat true _) H1 (repeat_length _ _)).
  rewrite (assign_slice_repeat 0 nspat (Some (row_lo spat_min))
             (Some (row_hi nspat spat_max)) tilts_now H2)
    by (cbn [slice_start slice_stop]; lia).
  cbn [rbind].
  rewrite (assign_slice_repeat 0 nspat (Some (row_lo spat_min))
             (Some (row_hi nspat spat_max)) err_now H2)
    by (cbn [slice_start slice_stop]; lia).
  cbn [rbind].
  rewrite (assign_slice_repeat false nspat (Some (row_lo spat_min))
             (Some (row_hi nspat spat_max)) (repeat true _) H2)
    by (rewrite repeat_length; cbn [slice_start slice_stop]; lia).
  cbn [rbind slice_start slice_stop].
  eexists. split; [reflexivity|].
  cbn [tilts tilts_err tilts_mask]. rewrite Heq. repeat split; reflexivity.
Qed.

(** X13: a window that leaves the detector on at most one side, with a
    trace of one value per row that was cut out: the six assignments
    succeed, the trace and its errors land in the rows from
    [max(spat_min, 0)] up to but not including [min(spat_max, nspat-1)]
    of the full columns, and exactly these rows are marked valid. *)
Theorem record_trace_window :
  forall (nspat nsub : nat) (spat_min spat_max : Z) (tilts_now err_now : list Q),
    Z.of_nat nsub = (spat_max - spat_min)%Z ->
    (0 <= spat_max)%Z ->
    (spat_min <= Z.of_nat nspat - 1)%Z ->
    ~ (spat_min < 0 /\ spat_max > Z.of_nat nspat - 1)%Z ->
    length tilts_now = (Z.to_nat (row_hi nspat spat_max) - Z.to_nat (row_lo spat_min))%nat ->
    length err_now = (Z.to_nat (row_hi nspat spat_max) - Z.to_nat (row_lo spat_min))%nat ->
    exists c,
      record_trace nspat nsub spat_min spat_max tilts_now err_now = Ok c
      /\ tilts c = repeat 0 (Z.to_nat (row_lo spat_min)) ++ tilts_now
                   ++ repeat 0 (nspat - Z.to_nat (row_hi nspat spat_max))
      /\ tilts_err c = repeat 0 (Z.to_nat (row_lo spat_min)) ++ err_now
                       ++ repeat 0 (nspat - Z.to_nat (row_hi nspat spat_max))
      /\ tilts_mask c
         = repeat false (Z.to_nat (row_lo spat_min))
           ++ repeat true (Z.to_nat (row_hi nspat spat_max) - Z.to_nat (row_lo spat_min))
           ++ repeat false (nspat - Z.to_nat (row_hi nspat spat_max)).
Proof.
  intros nspat nsub spat_min spat_max tilts_now err_now Hsub Hmax Hmin Hone Ht He.
  assert (Hlo : slice_bound nspat (row_lo spat_min) = Z.to_nat (row_lo spat_min)).
  { unfold slice_bound, row_lo. destruct (Z.ltb_spec (Z.max spat_min 0) 0); lia. }
  assert (Hhi : slice_bound nspat (row_hi nspat spat_max)
                = Z.to_nat (row_hi nspat spat_max)).
  { unfold slice_bound, row_hi.
    destruct (Z.ltb_spec (Z.min spat_max (Z.of_nat nspat - 1)) 0); lia. }
  rewrite <- Hlo, <- Hhi in *.
  unfold record_trace.
  destruct (Z.ltb_spec spat_min 0) as [Hneg | Hpos];
    [| destruct (Z.gtb_spec spat_max (Z.of_nat nspat - 1)) as [Hover | Hin]].
  - apply store_blank; try assumption;
      unfold slice_start, slice_stop, slice_bound, row_lo, row_hi in *;
      repeat match goal with
             | |- context [(?a <? ?b)%Z] => destruct (Z.ltb_spec a b)
             | H : context [(?a <? ?b)%Z] |- _ => destruct (Z.ltb_spec a b)
             end; lia.
  - apply store_blank; try assumption;
      unfold slice_start, slice_stop, slice_bound, row_lo, row_hi in *;
      repeat match goal with
             | |- context [(?a <? ?b)%Z] => destruct (Z.ltb_spec a b)
             | H : context [(?a <? ?b)%Z] |- _ => destruct (Z.ltb_spec a b)
             end; lia.
  - apply store_blank; try assumption;
      unfold slice_start, slice_stop, slice_bound, row_lo, row_hi in *;
      repeat match goal with
             | |- context [(?a <? ?b)%Z] => destruct (Z.ltb_spec a b)
             | H : context [(?a <? ?b)%Z] |- _ => destruct (Z.ltb_spec a b)
             end; lia.
Qed.

(** A window of 15 rows around the row 12 of a detector of 15 rows: the
    trace covers the rows 5 to 13. *)
Lemma record_trace_window_witness :
  exists c,
    record_trace 15 15 5 20 (repeat 50 9) (repeat 0.1 9) = Ok c
    /\ tilts c = repeat 0 5 ++ repeat 50 9 ++ repeat 0 1
    /\ tilts_err c = repeat 0 5 ++ repeat 0.1 9 ++ repeat 0 1
    /\ tilts_mask c = repeat false 5 ++ repeat true 9 ++ repeat false 1.
Proof.
  apply (record_trace_window 15 15 5 20 (repeat 50 9) (repeat 0.1 9)).
  - reflexivity.
  - discriminate.
  - discriminate.
  - intros [Hneg _]. discriminate Hneg.
  - reflexivity.
  - reflexivity.
Defined.

(** ** The size of the window *)

Lemma fold_left_Qmax_ge (l : list Q) (x : Q) :
  x <= fold_left Qmax l x /\ forall y, In y l -> y <= fold_left Qmax l x.
Proof.
  revert x. induction l as [|z l IH]; intros x; cbn [fold_left].
  - split; [apply Qle_refl | intros y []].
  - destruct (IH (Qmax x z)) as [Hx Hl]. split.
    + apply Qle_trans with (Qmax x z); [apply Q.le_max_l | exact Hx].
    + intros y [Hy | Hy].
      * subst y. apply Qle_trans with (Qmax x z); [apply Q.le_max_r | exact Hx].
      * apply Hl. exact Hy.
Qed.

Lemma np_max_ge (l : list Q) (m : Q) :
  np_max l = Ok m -> forall y, In y l -> y <= m.
Proof.
  destruct l as [|x l]; [discriminate|]. cbn [np_max]. intros H. inversion H; subst m.
  destruct (fold_left_Qmax_ge l x) as [Hx Hl].
  intros y [Hy | Hy]; [subst y; exact Hx | apply Hl; exact Hy].
Qed.

Lemma py_int_of_integer (z : Z) : py_int (inject_Z z + 2) = (z + 2)%Z.
Proof.
  assert (H : inject_Z z + 2 == inject_Z (z + 2)) by (rewrite inject_Z_plus; reflexivity).
  unfold py_int. rewrite (Qfloor_comp _ _ H), (Qceiling_comp _ _ H).
  rewrite Qfloor_Z, Qceiling_Z.
  destruct (Qle_bool 0 (inject_Z z + 2)); reflexivity.
Qed.

(** X14: the sub-window is sized from the widest row of the slit: with
    [c] the ceiling of the largest width, it has [c + 3] rows when [c]
    is even and [c + 4] when [c] is odd; the size is odd, and it exceeds
    every width of the slit by 3 or more. *)
Theorem window_exceeds_slit_width :
  forall (slit_left slit_righ width : list Q) (wmax : Q),
    broadcast2 Qminus slit_righ slit_left = Ok width ->
    np_max width = Ok wmax ->
    exists t,
      trace_int_of slit_left slit_righ = Ok t
      /\ nsub_of t = (Qceiling wmax + 3 + Qceiling wmax mod 2)%Z
      /\ (nsub_of t mod 2 = 1)%Z
      /\ forall w, In w width -> w + 3 <= inject_Z (nsub_of t).
Proof.
  intros slit_left slit_righ width wmax Hw Hmax.
  unfold trace_int_of. rewrite Hw. cbn [rbind]. rewrite Hmax. cbn [rbind].
  rewrite py_int_of_integer.
  eexists. split; [reflexivity|].
  assert (Hsize : nsub_of ((if ((Qceiling wmax + 2) mod 2 =? 0)%Z
                            then (Qceiling wmax + 2)%Z
                            else (Qceiling wmax + 2 + 1)%Z) / 2)
                  = (Qceiling wmax + 3 + Qceiling wmax mod 2)%Z).
  { unfold nsub_of.
    pose proof (Z.mod_pos_bound (Qceiling wmax) 2 ltac:(lia)) as Hb.
    pose proof (Z.div_mod (Qceiling wmax) 2 ltac:(lia)) as Hd.
    destruct (Z.eqb_spec ((Qceiling wmax + 2) mod 2) 0) as [Hev | Hodd].
    - assert (Hm : (Qceiling wmax mod 2 = 0)%Z).
      { replace (Qceiling wmax + 2)%Z with (Qceiling wmax + 1 * 2)%Z in Hev by lia.
        rewrite Z.mod_add in Hev by lia. exact Hev. }
      rewrite Hm.
      replace (Qceiling wmax + 2)%Z with ((Qceiling wmax / 2 + 1) * 2)%Z by lia.
      rewrite Z.div_mul by lia. lia.
    - assert (Hm : (Qceiling wmax mod 2 = 1)%Z).
      { replace (Qceiling wmax + 2)%Z with (Qceiling wmax + 1 * 2)%Z in Hodd by lia.
        rewrite Z.mod_add in Hodd by lia. lia. }
      rewrite Hm.
      replace (Qceiling wmax + 2 + 1)%Z with ((Qceiling wmax / 2 + 2) * 2)%Z by lia.
      rewrite Z.div_mul by lia. lia. }
  split; [exact Hsize|]. split.
  - rewrite Hsize.
    pose proof (Z.div_mod (Qceiling wmax) 2 ltac:(lia)) as Hd.
    replace (Qceiling wmax + 3 + Qceiling wmax mod 2)%Z
      with (1 + (Qceiling wmax / 2 + Qceiling wmax mod 2 + 1) * 2)%Z by lia.
    rewrite Z.mod_add by lia. reflexivity.
  - intros w Hin. rewrite Hsize.
    pose proof (np_max_ge width wmax Hmax w Hin) as Hle.
    pose proof (Qle_ceiling wmax) as Hceil.
    pose proof (Z.mod_pos_bound (Qceiling wmax) 2 ltac:(lia)) as Hb.
    apply Qle_trans with (inject_Z (Qceiling wmax) + 3).
    + apply Qplus_le_compat; [|apply Qle_refl].
      apply Qle_trans with wmax; assumption.
    + change 3 with (inject_Z 3). rewrite <- inject_Z_plus.
      rewrite <- Zle_Qle. lia.
Qed.

(** A slit of the widths 2 and 4.5: a window of 9 rows. *)
Lemma window_exceeds_slit_width_witness :
  exists t,
    trace_int_of [3; 3] [5; 7.5] = Ok t
    /\ nsub_of t = (Qceiling 4.5 + 3 + Qceiling 4.5 mod 2)%Z
    /\ (nsub_of t mod 2 = 1)%Z
    /\ forall w, In w [2; 4.5] -> w + 3 <= inject_Z (nsub_of t).
Proof.
  apply (window_exceeds_slit_width [3; 3] [5; 7.5] [2; 4.5] 4.5); reflexivity.
Defined.
End WindowFacts.

(** * The array of a slit and the dictionary read from it *)

Module ArrayFacts.
Import TraceStateCodec.

(** The four channels of a line have [rows] rows. *)
Local Abbreviation four_channels rows l :=
  (length (ch0 l) = rows /\ length (ch1 l) = rows
   /\ length (ch2 l) = rows /\ length (ch3 l) = rows).

Lemma pack_line_rows d tt maxx kk cnt x l cnt' :
  pack_line d tt maxx kk cnt x = Ok (l, cnt') -> four_channels (S maxx) l.
Proof.
  unfold pack_line. destruct x as [xs|].
  - cbn [fwm_blank ch0 ch1 ch2 ch3]. unfold rbind. intros H.
    case_res H; try discriminate;
    match type of H with
    | context [if ?b then _ else _] => destruct b
    end; inversion H; subst; clear H; cbn [ch0 ch1 ch2 ch3];
      repeat match goal with
             | H : assign_slice _ _ _ _ = Ok _ |- _ =>
                 apply SliceFacts.length_assign_slice in H; rewrite repeat_length in H
             end;
      rewrite ?VectorFacts.set_at_length, ?repeat_length; repeat split;
      first [assumption | cbn; rewrite ?repeat_length; reflexivity].
  - intros H. inversion H. cbn. rewrite !repeat_length. repeat split.
Qed.

(** Every line of the array comes from one turn of the loop of line 598,
    for the line of its index. *)
Lemma pack_lines_turns d tt maxx xtfits kk cnt img :
  pack_lines d tt maxx kk cnt xtfits = Ok img ->
  length img = length xtfits
  /\ forall j x l,
      nth_error xtfits j = Some x -> nth_error img j = Some l ->
      exists c c', pack_line d tt maxx (kk + j) c x = Ok (l, c').
Proof.
  revert kk cnt img. induction xtfits as [|x0 rest IH]; intros kk cnt img H.
  - cbn in H. inversion H. split; [reflexivity|]. intros [|j] ? ? Hn; discriminate.
  - cbn [pack_lines] in H. unfold rbind at 1 in H.
    destruct (pack_line d tt maxx kk cnt x0) as [[l0 c0]|e] eqn:Hline; [|discriminate].
    unfold rbind at 1 in H. cbn [fst snd] in H.
    destruct (pack_lines d tt maxx (S kk) c0 rest) as [ls|e] eqn:Hrest; [|discriminate].
    inversion H; subst img; clear H.
    destruct (IH _ _ _ Hrest) as [Hlen Hturn].
    split; [cbn; rewrite Hlen; reflexivity|].
    intros [|j] x l Hx Hl.
    + cbn in Hx, Hl. inversion Hx; subst x. inversion Hl; subst l.
      rewrite Nat.add_0_r. exists cnt, c0. exact Hline.
    + cbn in Hx, Hl. destruct (Hturn j x l Hx Hl) as (c & c' & Hc).
      replace (kk + S j)%nat with (S kk + j)%nat by lia. exists c, c'. exact Hc.
Qed.

(** ** Reading *)

Lemma np_sum_bool_app (a b : list bool) :
  np_sum_bool (a ++ b) = (np_sum_bool a + np_sum_bool b)%nat.
Proof.
  unfold np_sum_bool. rewrite filter_app, length_app. reflexivity.
Qed.

(** What the loop of line 153 adds to a dictionary. *)
Lemma unpack_from (img : fwm_img) (d0 d' : trcdict) :
  rfold unpack_line img d0 = Ok d' ->
  aduse d' = aduse d0 ++ map (fun l => any_positive (but_last (ch2 l))) img
  /\ length (xtfit d') = (length (xtfit d0) + length img)%nat
  /\ length (ytfit d') = (length (ytfit d0) + length img)%nat
  /\ length (ycen d') = (length (ycen d0) + length img)%nat
  /\ length (xmodel d')
     = (length (xmodel d0)
        + np_sum_bool (map (fun l => any_positive (but_last (ch2 l))) img))%nat
  /\ length (ymodel d')
     = (length (ymodel d0)
        + np_sum_bool (map (fun l => any_positive (but_last (ch2 l))) img))%nat.
Proof.
  revert d0. induction img as [|l img IH]; intros d0 H.
  - cbn in H. inversion H; subst d'. cbn. rewrite app_nil_r, !Nat.add_0_r.
    repeat split.
  - cbn [rfold] in H. unfold rbind at 1, unpack_line at 1 in H. unfold rbind at 1 in H.
    destruct (py_index (ch1 l) (-1)) as [yc|e]; [|discriminate].
    apply IH in H. cbn [xtfit ytfit xmodel ymodel ycen aduse] in H.
    destruct H as (Ha & Hx & Hy & Hc & Hxm & Hym).
    rewrite Ha, Hx, Hy, Hc, Hxm, Hym. rewrite !length_app. cbn [length map].
    rewrite <- app_assoc. cbn [app].
    change (?b :: map ?f img) with ([b] ++ map f img).
    rewrite np_sum_bool_app.
    destruct (any_positive (but_last (ch2 l))); rewrite ?length_app; cbn;
      repeat split; lia.
Qed.

(** X16: the dictionary that [from_master_files] reads from an array is
    well formed: it has one entry of [xtfit], [ytfit], [ycen] and [aduse]
    per line of the array, and as many models in [xmodel] and in
    [ymodel] as it has lines in use, which is what the counter
    [model_cnt] of [save_master] relies on. *)
Theorem unpacked_dictionary_is_well_formed :
  forall (img : fwm_img) (d : trcdict),
    unpack img = Ok d ->
    length (xtfit d) = length img /\ length (ytfit d) = length img
    /\ length (ycen d) = length img /\ length (aduse d) = length img
    /\ length (xmodel d) = np_sum_bool (aduse d)
    /\ length (ymodel d) = np_sum_bool (aduse d).
Proof.
  intros img d H. unfold unpack in H.
  apply unpack_from in H as (Ha & Hx & Hy & Hc & Hxm & Hym).
  cbn in Ha, Hx, Hy, Hc, Hxm, Hym.
  rewrite Ha, length_map. repeat split; assumption.
Qed.

Lemma unpacked_dictionary_is_well_formed_witness :
  length (xtfit Sample.three_lines_read) = length Sample.three_lines_array
  /\ length (ytfit Sample.three_lines_read) = length Sample.three_lines_array
  /\ length (ycen Sample.three_lines_read) = length Sample.three_lines_array
  /\ length (aduse Sample.three_lines_read) = length Sample.three_lines_array
  /\ length (xmodel Sample.three_lines_read) = np_sum_bool (aduse Sample.three_lines_read)
  /\ length (ymodel Sample.three_lines_read) = np_sum_bool (aduse Sample.three_lines_read).
Proof.
  apply (unpacked_dictionary_is_well_formed Sample.three_lines_array
           Sample.three_lines_read).
  vm_compute. reflexivity.
Defined.

Lemma any_positive_sentinel (n : nat) : any_positive (repeat sentinel n) = false.
Proof.
  induction n as [|n IH]; [reflexivity|]. cbn [repeat any_positive existsb].
  fold (any_positive (repeat sentinel n)). rewrite IH. reflexivity.
Qed.

Lemma but_last_blank (maxx : nat) :
  but_last (repeat sentinel (S maxx)) = repeat sentinel maxx.
Proof.
  change (repeat sentinel (S maxx)) with (padded (S maxx) []).
  rewrite TraceStateCodecFacts.but_last_padded by (cbn; lia).
  unfold padded. cbn. rewrite Nat.sub_0_r. reflexivity.
Qed.

(** A line whose model channel reads as positive was packed as a line
    in use. *)
Lemma pack_line_in_use d tt maxx kk cnt x l cnt' :
  pack_line d tt maxx kk cnt x = Ok (l, cnt') ->
  any_positive (but_last (ch2 l)) = true ->
  py_index (aduse d) (Z.of_nat kk) = Ok true /\ exists xs, x = Some xs.
Proof.
  unfold pack_line. destruct x as [xs|].
  - cbn [fwm_blank ch0 ch1 ch2 ch3]. unfold rbind. intros H.
    case_res H; try discriminate;
    match type of H with
    | context [if ?b then _ else _] => destruct b
    end; inversion H; subst; clear H; cbn [ch2]; intros Hpos.
    all: try (split; [reflexivity | eexists; reflexivity]).
    all: change (sentinel :: repeat sentinel maxx) with (repeat sentinel (S maxx)) in Hpos;
      rewrite but_last_blank, any_positive_sentinel in Hpos; discriminate.
  - intros H. inversion H. cbn [fwm_blank ch2].
    rewrite but_last_blank, any_positive_sentinel. discriminate.
Qed.

(** X17: writing the array of a slit and reading it back never turns a
    line that was not in use into a line in use: every line that is read
    as in use had a raw trace and was in use in the dictionary written. *)
Theorem unused_line_stays_unused :
  forall (d : trcdict) (all_ttilts_slit : res (list (image Q))) (img : fwm_img)
         (d' : trcdict) (k : nat),
    pack d all_ttilts_slit = Ok img ->
    unpack img = Ok d' ->
    nth_error (aduse d') k = Some true ->
    nth_error (aduse d) k = Some true /\ exists xs, nth_error (xtfit d) k = Some (Some xs).
Proof.
  intros d tt img d' k Hpack Hun Hk.
  unfold pack, rbind in Hpack.
  destruct (np_max_nat (xszs (xtfit d))) as [maxx|e]; [|discriminate].
  destruct (pack_lines_turns _ _ _ _ _ _ _ Hpack) as [Hlen Hturn].
  unfold unpack in Hun. apply unpack_from in Hun as (Ha & _).
  cbn [trcdict_empty aduse app] in Ha.
  rewrite Ha in Hk. rewrite nth_error_map in Hk.
  destruct (nth_error img k) as [l|] eqn:Hl; [|discriminate].
  cbn [option_map] in Hk. injection Hk as Hpos.
  assert (Hlt : (k < length (xtfit d))%nat).
  { rewrite <- Hlen. apply nth_error_Some. rewrite Hl. discriminate. }
  destruct (nth_error (xtfit d) k) as [x|] eqn:Hx;
    [| apply nth_error_None in Hx; lia].
  destruct (Hturn k x l Hx Hl) as (c & c' & Hc). cbn [Nat.add] in Hc.
  destruct (pack_line_in_use _ _ _ _ _ _ _ _ Hc Hpos) as [Huse (xs & ->)].
  split; [|exists xs; reflexivity].
  rewrite VectorFacts.py_index_of_nat in Huse.
  destruct (nth_error (aduse d) k) as [[|]|]; cbn in Huse;
    [reflexivity | discriminate Huse | discriminate Huse].
Qed.

(** The third of the three lines is read as in use; it was written as
    in use. *)
Lemma unused_line_stays_unused_witness :
  nth_error (aduse Sample.three_lines_read) 2 = Some true
  /\ nth_error (aduse Sample.three_lines) 2 = Some true
  /\ exists xs, nth_error (xtfit Sample.three_lines) 2 = Some (Some xs).
Proof.
  split; [reflexivity|].
  apply (unused_line_stays_unused Sample.three_lines (Ok Sample.three_lines_tilts)
           Sample.three_lines_array Sample.three_lines_read 2).
  - vm_compute. reflexivity.
  - vm_compute. reflexivity.
  - reflexivity.
Defined.
End ArrayFacts.

(** * The names of the extensions *)

Module ExtensionNames.
Import TraceStateCodec.

Lemma nzhead_not_zero (d d' : Decimal.uint) : Decimal.nzhead d <> Decimal.D0 d'.
Proof.
  induction d; cbn [Decimal.nzhead]; try discriminate. exact IHd.
Qed.

(** The decimal digits of a number have no leading zero, except for the
    single digit of zero. *)
Lemma to_uint_leading_zero (n : nat) (d : Decimal.uint) :
  Nat.to_uint n = Decimal.D0 d -> d = Decimal.Nil.
Proof.
  intros H.
  pose proof (DecimalNat.Unsigned.to_of (Nat.to_uint n)) as Hnorm.
  rewrite DecimalNat.Unsigned.of_to in Hnorm. rewrite H in Hnorm.
  unfold Decimal.unorm in Hnorm. cbn [Decimal.nzhead] in Hnorm.
  destruct (Decimal.nzhead d) eqn:Hd; try discriminate.
  - injection Hnorm as <-. reflexivity.
  - exfalso. apply (nzhead_not_zero d u). exact Hd.
Qed.

Lemma to_uint_not_nil (n : nat) : Nat.to_uint n <> Decimal.Nil.
Proof.
  intros H.
  pose proof (DecimalNat.Unsigned.to_of (Nat.to_uint n)) as Hnorm.
  rewrite DecimalNat.Unsigned.of_to in Hnorm. rewrite H in Hnorm.
  discriminate Hnorm.
Qed.

Local Abbreviation digits n := (NilZero.string_of_uint (Nat.to_uint n)).

Lemma string_of_uint_empty (d : Decimal.uint) :
  NilEmpty.string_of_uint d = ""%string -> d = Decimal.Nil.
Proof. destruct d; cbn; intros H; try discriminate; reflexivity. Qed.

Lemma string_of_uint_zero_head (d : Decimal.uint) (rest : string) :
  NilEmpty.string_of_uint d = String "0" rest ->
  exists d', d = Decimal.D0 d' /\ rest = NilEmpty.string_of_uint d'.
Proof.
  destruct d; cbn; intros H; try discriminate.
  injection H as <-. eexists. split; reflexivity.
Qed.

Lemma digits_nil_empty (n : nat) : digits n = NilEmpty.string_of_uint (Nat.to_uint n).
Proof.
  pose proof (to_uint_not_nil n) as H.
  unfold NilZero.string_of_uint. destruct (Nat.to_uint n); [contradiction | reflexivity ..].
Qed.

(** The digits of a slit number: not empty, and with a leading ["0"]
    only for the single digit of zero. *)
Lemma digits_not_empty (n : nat) : digits n <> ""%string.
Proof.
  rewrite digits_nil_empty. intros H. apply string_of_uint_empty in H.
  apply (to_uint_not_nil n). exact H.
Qed.

Lemma digits_zero_head (n : nat) (rest : string) :
  digits n = String "0" rest -> rest = ""%string.
Proof.
  rewrite digits_nil_empty. intros H.
  apply string_of_uint_zero_head in H as (d' & Hd & ->).
  apply to_uint_leading_zero in Hd. subst d'. reflexivity.
Qed.

Lemma digits_inj (a b : nat) : digits a = digits b -> a = b.
Proof.
  rewrite !digits_nil_empty. intros H.
  apply DecimalNat.Unsigned.to_uint_inj.
  pose proof (NilEmpty.usu (Nat.to_uint a)) as Ha.
  pose proof (NilEmpty.usu (Nat.to_uint b)) as Hb.
  rewrite H in Ha. rewrite Ha in Hb. injection Hb as Hb. exact Hb.
Qed.

Lemma pad3_inj (s t : string) :
  s <> ""%string -> t <> ""%string ->
  (forall rest, s = String "0" rest -> rest = ""%string) ->
  (forall rest, t = String "0" rest -> rest = ""%string) ->
  pad3 s = pad3 t -> s = t.
Proof.
  intros Hs Ht Hs0 Ht0.
  destruct s as [|c1 [|c2 [|c3 s]]]; [contradiction | | |];
    destruct t as [|d1 [|d2 [|d3 t]]]; try contradiction;
    cbn; intros H; injection H; intros; subst; try reflexivity;
    try (specialize (Hs0 _ eq_refl); discriminate Hs0);
    try (specialize (Ht0 _ eq_refl); discriminate Ht0).
Qed.

Lemma fwm_name_inj (a b : nat) : fwm_name a = fwm_name b -> a = b.
Proof.
  intros H. unfold fwm_name in H. cbn [append] in H.
  injection H as H.
  apply digits_inj. apply pad3_inj.
  - apply digits_not_empty.
  - apply digits_not_empty.
  - apply digits_zero_head.
  - apply digits_zero_head.
  - exact H.
Qed.

(** X18: two slits never share the name of an extension:
    ['FWM{:03d}'.format] is injective on the slit numbers, also beyond
    999. *)
Theorem fwm_name_injective :
  forall a b : nat, fwm_name a = fwm_name b -> a = b.
Proof. exact fwm_name_inj. Qed.

Lemma fwm_name_injective_witness : 7%nat = 7%nat /\ fwm_name 1000 <> fwm_name 100.
Proof.
  split.
  - apply (fwm_name_injective 7 7). reflexivity.
  - intros H. apply (fwm_name_injective 1000 100) in H. discriminate H.
Defined.
End ExtensionNames.

(** * The master file: what is written and what is read *)

Module MasterFileFacts.
Import TraceStateCodec WaveTilts.

(** An array that [save_master] packed can be read. *)
Lemma unpack_packed (d : trcdict) (tt : res (list (image Q))) (img : fwm_img) :
  pack d tt = Ok img -> exists d', unpack img = Ok d'.
Proof.
  intros H. unfold pack, rbind in H.
  destruct (np_max_nat (xszs (xtfit d))) as [maxx|e]; [|discriminate].
  destruct (ArrayFacts.pack_lines_turns _ _ _ _ _ _ _ H) as [Hlen Hturn].
  assert (Hrows : Forall (fun l => length (ch1 l) = S maxx) img).
  { apply Forall_forall. intros l Hin. apply In_nth_error in Hin as [j Hj].
    assert (Hlt : (j < length (xtfit d))%nat).
    { rewrite <- Hlen. apply nth_error_Some. rewrite Hj. discriminate. }
    destruct (nth_error (xtfit d) j) as [x|] eqn:Hx;
      [| apply nth_error_None in Hx; lia].
    destruct (Hturn j x l Hx Hj) as (c & c' & Hc).
    apply ArrayFacts.pack_line_rows in Hc. tauto. }
  destruct (TraceStateCodecFacts.unpack_lines maxx img trcdict_empty Hrows) as (d' & Hd & _).
  exists d'. exact Hd.
Qed.

(** An extension written for a slit. *)
Local Abbreviation written_for slit h :=
  (hdu_name h = fwm_name slit
   /\ exists img d, hdu_data h = ArrayFwm img /\ unpack img = Ok d).

(** The loop of line 586 appends one extension per unmasked slit, in
    the order of the slits. *)
Lemma save_slits_appends (s : attrs) (m : list bool) (n a : nat) (acc hdul : list hdu) :
  mask s = Some m ->
  rfold (save_slit s) (seq a n) acc = Ok hdul ->
  exists ext,
    hdul = acc ++ ext
    /\ Forall2 (fun slit h => written_for slit h)
               (filter (fun i => negb (nth i m false)) (seq a n)) ext.
Proof.
  intros Hm. revert a acc. induction n as [|n IH]; intros a acc H.
  - cbn in H. inversion H. exists []. rewrite app_nil_r. split; [reflexivity | constructor].
  - cbn [seq rfold] in H. unfold rbind at 1 in H.
    destruct (save_slit s acc a) as [acc1|e] eqn:Hslit; [|discriminate].
    destruct (IH _ _ H) as (ext & Hext & Hall).
    unfold save_slit in Hslit. rewrite Hm in Hslit. unfold rbind at 1 in Hslit.
    rewrite VectorFacts.py_index_of_nat in Hslit.
    destruct (nth_error m a) as [bad|] eqn:Hbad; [|discriminate].
    assert (Hnth : nth a m false = bad) by (apply nth_error_nth; exact Hbad).
    cbn [seq filter]. rewrite Hnth.
    destruct bad; cbn [negb].
    + inversion Hslit; subst acc1. exists ext. split; assumption.
    + unfold rbind in Hslit. case_res Hslit; try discriminate.
      inversion Hslit; subst acc1; clear Hslit.
      eexists (_ :: ext). split.
      * rewrite Hext, <- app_assoc. reflexivity.
      * constructor; [|exact Hall]. cbn [hdu_name hdu_data]. split; [reflexivity|].
        match goal with
        | Hp : pack _ _ = Ok ?img |- _ =>
            destruct (unpack_packed _ _ _ Hp) as [d' Hd']; exists img, d'
        end.
        split; [reflexivity | exact Hd'].
Qed.

(** The loop of line 146 on extensions written for the slits [slits],
    with the counter at [c]: an extension gives a dictionary when the
    counter is at its slit, and [None] otherwise. *)
Lemma read_slits (slits : list nat) (ext : list hdu) (acc : list (option trcdict))
      (c : nat) :
  Forall2 (fun slit h => written_for slit h) slits ext ->
  exists r,
    rfold read_slit ext (acc, c) = Ok (acc ++ r, (c + length ext)%nat)
    /\ length r = length ext
    /\ forall j v, nth_error slits j = Some v ->
                   (v = (c + j)%nat -> exists d, nth_error r j = Some (Some d))
                   /\ (v <> (c + j)%nat -> nth_error r j = Some None).
Proof.
  intros Hall. revert acc c.
  induction Hall as [|v h slits ext [Hname (img & d & Hdata & Hd)] _ IH]; intros acc c.
  - exists []. cbn. rewrite app_nil_r, Nat.add_0_r. split; [reflexivity|].
    split; [reflexivity|]. intros [|j] ? Hn; discriminate.
  - cbn [rfold]. unfold rbind at 1, read_slit at 1. cbn [fst snd]. rewrite Hname.
    destruct (String.eqb_spec (fwm_name v) (fwm_name c)) as [Heq | Hne].
    + apply ExtensionNames.fwm_name_inj in Heq. subst v.
      rewrite Hdata, Hd. cbn [rbind].
      destruct (IH (acc ++ [Some d]) (S c)) as (r & Hr & Hlen & Hent).
      exists (Some d :: r). split.
      * rewrite Hr. rewrite <- app_assoc. cbn [app length].
        replace (S c + length ext)%nat with (c + S (length ext))%nat by lia. reflexivity.
      * split; [cbn; rewrite Hlen; reflexivity|].
        intros [|j] w Hw.
        -- cbn in Hw. inversion Hw; subst w. split; [intros _; exists d; reflexivity|].
           intros Hc. exfalso. apply Hc. lia.
        -- cbn in Hw. destruct (Hent j w Hw) as [Hy Hn].
           replace (c + S j)%nat with (S c + j)%nat by lia. split; assumption.
    + destruct (IH (acc ++ [None]) (S c)) as (r & Hr & Hlen & Hent).
      exists (None :: r). split.
      * rewrite Hr. rewrite <- app_assoc. cbn [app length].
        replace (S c + length ext)%nat with (c + S (length ext))%nat by lia. reflexivity.
      * split; [cbn; rewrite Hlen; reflexivity|].
        intros [|j] w Hw.
        -- cbn in Hw. inversion Hw; subst w. split; [|intros _; reflexivity].
           intros Hc. exfalso. apply Hne. rewrite Hc, Nat.add_0_r. reflexivity.
        -- cbn in Hw. destruct (Hent j w Hw) as [Hy Hn].
           replace (c + S j)%nat with (S c + j)%nat by lia. split; assumption.
Qed.

(** The position of a slit among the unmasked slits is at most its
    number, and less once a masked slit came before it. *)
Lemma unmasked_position (p : nat -> bool) (n a j v : nat) :
  nth_error (filter p (seq a n)) j = Some v ->
  (a + j <= v < a + n)%nat
  /\ ((exists k, (a <= k <= v)%nat /\ p k = false) -> (a + j < v)%nat)
  /\ ((forall k, (a <= k <= v)%nat -> p k = true) -> v = (a + j)%nat).
Proof.
  revert a j. induction n as [|n IH]; intros a j H.
  - cbn in H. destruct j; discriminate.
  - cbn [seq filter] in H. destruct (p a) eqn:Hpa.
    + destruct j as [|j]; cbn [nth_error] in H.
      * inversion H; subst v. split; [lia|]. split; [|intros _; lia].
        intros (k & Hk & Hpk). assert (k = a) by lia. subst k. congruence.
      * destruct (IH _ _ H) as (Hrange & Hstrict & Hexact). split; [lia|]. split.
        -- intros (k & Hk & Hpk). assert (k <> a) by congruence.
           assert (S a + j < v)%nat; [|lia]. apply Hstrict. exists k. split; [lia | exact Hpk].
        -- intros Hall. rewrite Hexact; [lia|]. intros k Hk. apply Hall. lia.
    + destruct (IH _ _ H) as (Hrange & _ & _). split; [lia|]. split; [intros _; lia|].
      intros Hall. specialize (Hall a ltac:(lia)). congruence.
Qed.

Lemma slice_from_two {A} (h0 h1 : A) (ext : list A) :
  slice ([h0; h1] ++ ext) (Some 2%Z) None = ext.
Proof.
  unfold slice, slice_start, slice_stop, slice_bound. cbn [Z.ltb Z.compare].
  cbn [app length].
  replace (Z.to_nat (Z.min 2 (Z.of_nat (S (S (length ext)))))) with 2%nat by lia.
  cbn [skipn]. replace (S (S (length ext)) - 2)%nat with (length ext) by lia.
  apply firstn_all.
Qed.

Section Files.
Variable par : WaveTiltsPar.
Variable tslits_dict : option tslits.

Local Abbreviation nslit_ := (nslit tslits_dict).
Local Abbreviation target ms_name outfile :=
  (match outfile with
   | None => ms_name
   | Some f => f
   end).

(** What [save_master] leaves in the file system. *)
Lemma save_master_writes ms_name outfile s fs fs' ft m :
  final_tilts s = Some ft -> mask s = Some m ->
  save_master par tslits_dict ms_name outfile s fs = Ok fs' ->
  exists ext,
    fs' = (fun name => if String.eqb name (target ms_name outfile)
                       then Some (FitsFile
                                    ([ {| hdu_name := "PRIMARY"; hdu_header := [];
                                          hdu_data := Array2 ft |};
                                       {| hdu_name := "";
                                          hdu_header := [("FUNC2D"%string, par_func2D par)];
                                          hdu_data := match coeffs s with
                                                      | Some c => Array3 c
                                                      | None => NoArray
                                                      end |} ] ++ ext))
                       else fs name)
    /\ Forall2 (fun slit h => written_for slit h)
               (filter (fun i => negb (nth i m false)) (seq 0 nslit_)) ext.
Proof.
  intros Hft Hm H. unfold save_master in H. rewrite Hft in H. unfold rbind in H.
  destruct (rfold _ _ _) as [hdul|e] eqn:Hloop; [|discriminate].
  inversion H; subst fs'; clear H.
  unfold arange in Hloop.
  destruct (save_slits_appends s m _ _ _ _ Hm Hloop) as (ext & Hext & Hall).
  exists ext. split; [rewrite Hext; reflexivity | exact Hall].
Qed.

Lemma unmasked_prefix (m : list bool) (n j : nat) :
  (j < n)%nat -> (forall k, (k <= j)%nat -> nth k m false = false) ->
  nth_error (filter (fun i => negb (nth i m false)) (seq 0 n)) j = Some j.
Proof.
  intros Hj Hfree.
  replace n with (S j + (n - S j))%nat by lia.
  rewrite seq_app, filter_app.
  assert (Hall : filter (fun i => negb (nth i m false)) (seq 0 (S j)) = seq 0 (S j)).
  { apply forallb_filter_id. apply forallb_forall. intros k Hk. apply in_seq in Hk.
    rewrite Hfree by lia. reflexivity. }
  rewrite Hall. rewrite nth_error_app1 by (rewrite length_seq; lia).
  rewrite (nth_error_nth' _ 0%nat) by (rewrite length_seq; lia).
  rewrite seq_nth by lia. reflexivity.
Qed.

(** X19: the trace dictionaries through the master file.  When
    [save_master] has written the file, the loop of [from_master_files]
    reads it without an exception and gives one entry per extension
    written; the slits before the first masked slit get their
    dictionary back, and from the first masked slit on no position
    holds a dictionary: the counter [islit] counts extensions, not
    slits, and no later name matches it. *)
Theorem trace_dictionaries_through_file ms_name outfile s fs fs' ft m :
  final_tilts s = Some ft -> mask s = Some m ->
  save_master par tslits_dict ms_name outfile s fs = Ok fs' ->
  exists hdul r,
    fs' (target ms_name outfile) = Some (FitsFile hdul)
    /\ read_trcdicts hdul = Ok r
    /\ length r = length (filter (fun i => negb (nth i m false)) (seq 0 nslit_))
    /\ (forall j, (j < nslit_)%nat -> (forall k, (k <= j)%nat -> nth k m false = false) ->
                  exists d, nth_error r j = Some (Some d))
    /\ (forall k j d, nth k m false = true -> (k <= j)%nat ->
                      nth_error r j <> Some (Some d)).
Proof.
  intros Hft Hm H.
  destruct (save_master_writes ms_name outfile s fs fs' ft m Hft Hm H) as (ext & Hfs & Hall).
  destruct (read_slits _ ext [] 0 Hall) as (r & Hr & Hlen & Hent).
  eexists. exists r. split; [rewrite Hfs, String.eqb_refl; reflexivity|].
  split.
  { unfold read_trcdicts. rewrite slice_from_two. rewrite Hr. reflexivity. }
  split.
  { rewrite Hlen. symmetry. eapply Forall2_length. exact Hall. }
  split.
  - intros j Hj Hfree.
    destruct (Hent j j (unmasked_prefix m _ j Hj Hfree)) as [Hyes _].
    apply Hyes. reflexivity.
  - intros k j d Hk Hkj Hread.
    destruct (nth_error (filter (fun i => negb (nth i m false)) (seq 0 nslit_)) j)
      as [v|] eqn:Hv.
    + destruct (unmasked_position _ _ _ _ _ Hv) as (Hrange & Hstrict & _).
      destruct (Hent j v Hv) as [_ Hno].
      rewrite Hno in Hread; [discriminate|].
      assert (0 + j < v)%nat; [|lia].
      apply Hstrict. exists k. split; [lia|]. rewrite Hk. reflexivity.
    + apply nth_error_None in Hv.
      assert (Hnone : nth_error r j = None).
      { apply nth_error_None. rewrite Hlen.
        rewrite <- (Forall2_length Hall). exact Hv. }
      rewrite Hnone in Hread. discriminate.
Qed.

Lemma save_slits_extend (s : attrs) (slits : list nat) (acc hdul : list hdu) :
  rfold (save_slit s) slits acc = Ok hdul -> exists ext, hdul = acc ++ ext.
Proof.
  revert acc. induction slits as [|slit slits IH]; intros acc H.
  - cbn in H. inversion H. exists []. rewrite app_nil_r. reflexivity.
  - cbn [rfold] in H. unfold rbind at 1 in H.
    destruct (save_slit s acc slit) as [acc1|e] eqn:Hslit; [|discriminate].
    destruct (IH _ H) as (ext & Hext).
    unfold save_slit, rbind in Hslit. case_res Hslit; try discriminate;
      match type of Hslit with
      | context [if ?b then _ else _] => destruct b
      end; inversion Hslit; subst acc1.
    all: try (exists ext; exact Hext).
    all: eexists (_ :: ext); rewrite Hext, <- app_assoc; reflexivity.
Qed.

(** X20: [save_master] followed by [load_master] on the file written:
    the dictionary loaded holds the final tilts, the coefficients and
    the [func2D] of the configuration, whatever [exten] and [force];
    every other path of the file system is as before. *)
Theorem save_then_load_master ms_name outfile s fs fs' ft exten force :
  final_tilts s = Some ft ->
  save_master par tslits_dict ms_name outfile s fs = Ok fs' ->
  load_master fs' (target ms_name outfile) exten force
  = Ok (Some {| td_tilts := Array2 ft;
                td_coeffs := match coeffs s with
                             | Some c => Array3 c
                             | None => NoArray
                             end;
                td_func2D := par_func2D par |})
  /\ forall name, name <> target ms_name outfile -> fs' name = fs name.
Proof.
  intros Hft H. unfold save_master in H. rewrite Hft in H. unfold rbind in H.
  destruct (rfold _ _ _) as [hdul|e] eqn:Hloop; [|discriminate].
  inversion H; subst fs'; clear H.
  apply save_slits_extend in Hloop as (ext & ->).
  split.
  - unfold load_master. rewrite String.eqb_refl.
    cbn [fits_open rbind app].
    change 0%Z with (Z.of_nat 0). rewrite VectorFacts.py_index_of_nat.
    cbn [nth_error rbind hdu_data].
    change 1%Z with (Z.of_nat 1). rewrite VectorFacts.py_index_of_nat.
    cbn [nth_error rbind hdu_data hdu_header header_get].
    rewrite String.eqb_refl. reflexivity.
  - intros name Hne. apply String.eqb_neq in Hne. rewrite Hne. reflexivity.
Qed.
End Files.

(** Three slits that hold the three lines, the second one masked: the
    dictionary of the first slit is read back, the third slit is lost. *)
Lemma trace_dictionaries_through_file_witness :
  exists hdul r,
    Sample.saved 3 [false; true; false] "MasterTilts_A_01_aa.fits"%string
    = Some (FitsFile hdul)
    /\ read_trcdicts hdul = Ok r
    /\ length r = 2%nat
    /\ (exists d, nth_error r 0 = Some (Some d))
    /\ (forall d, nth_error r 1 <> Some (Some d))
    /\ (forall d, nth_error r 2 <> Some (Some d)).
Proof.
  destruct (trace_dictionaries_through_file (Sample.par_of "spca" (PyFloat 10))
              (Some {| lcen := [repeat 0 3]; rcen := [repeat 2 3]; pixcen := [repeat 1 3] |})
              "MasterTilts_A_01_aa.fits" None (Sample.traced 3 [false; true; false])
              (fun _ => None) (Sample.saved 3 [false; true; false]) Sample.msarc
              [false; true; false] eq_refl eq_refl)
    as (hdul & r & Hfile & Hread & Hlen & Hbefore & Hafter).
  { vm_compute. reflexivity. }
  exists hdul, r. split; [exact Hfile|]. split; [exact Hread|]. split; [exact Hlen|].
  split; [|split].
  - apply Hbefore.
    + cbn. lia.
    + intros [|k] Hk; [reflexivity | lia].
  - intros d. apply (Hafter 1%nat 1%nat d); [reflexivity | lia].
  - intros d. apply (Hafter 1%nat 2%nat d); [reflexivity | lia].
Defined.

Lemma save_then_load_master_witness :
  load_master (Sample.saved 1 [false]) "MasterTilts_A_01_aa.fits" 0 true
  = Ok (Some {| td_tilts := Array2 Sample.msarc; td_coeffs := NoArray;
                td_func2D := "legendre" |})
  /\ forall name, name <> "MasterTilts_A_01_aa.fits"%string ->
                  Sample.saved 1 [false] name = None.
Proof.
  apply (save_then_load_master (Sample.par_of "spca" (PyFloat 10))
           (Some {| lcen := [repeat 0 1]; rcen := [repeat 2 1]; pixcen := [repeat 1 1] |})
           "MasterTilts_A_01_aa.fits" None (Sample.traced 1 [false]) (fun _ => None)
           (Sample.saved 1 [false]) Sample.msarc 0%Z true eq_refl).
  vm_compute. reflexivity.
Defined.
End MasterFileFacts.

(** * The text of an instance *)

Module ReprFacts.
Import WaveTilts.
Local Open Scope string_scope.

Lemma append_assoc (a b c : string) : (a ++ b) ++ c = a ++ (b ++ c).
Proof. induction a as [|x a IH]; cbn; [reflexivity | rewrite IH; reflexivity]. Qed.

Lemma append_nil_r (a : string) : a ++ "" = a.
Proof. induction a as [|x a IH]; cbn; [reflexivity | rewrite IH; reflexivity]. Qed.

Lemma length_append (a b : string) :
  String.length (a ++ b) = (String.length a + String.length b)%nat.
Proof. induction a as [|x a IH]; cbn; [reflexivity | rewrite IH; reflexivity]. Qed.

Lemma substring_prefix (a b : string) : substring 0 (String.length a) (a ++ b) = a.
Proof.
  induction a as [|x a IH]; cbn.
  - destruct b; reflexivity.
  - rewrite IH. reflexivity.
Qed.

(** Dropping the two characters of a trailing [", "]. *)
Lemma trim_trailing_comma (a : string) : str_slice_to (a ++ ", ") (-2) = a.
Proof.
  unfold str_slice_to, slice_bound. cbn [Z.ltb Z.compare].
  rewrite length_append. cbn [String.length].
  replace (Z.to_nat (Z.max 0 (-2 + Z.of_nat (String.length a + 2))))
    with (String.length a) by lia.
  apply substring_prefix.
Qed.

(** The loop of line 694 from a text [txt] on. *)
Lemma steps_appended (steps : list string) (txt : string) :
  steps <> [] ->
  fold_left (fun t step => t ++ step ++ ", ") steps txt
  = (txt ++ String.concat ", " steps) ++ ", ".
Proof.
  revert txt. induction steps as [|x steps IH]; intros txt Hne; [contradiction|].
  cbn [fold_left]. destruct steps as [|y steps].
  - cbn. rewrite append_assoc. reflexivity.
  - rewrite IH by discriminate.
    change (String.concat ", " (x :: y :: steps))
      with (x ++ ", " ++ String.concat ", " (y :: steps)).
    rewrite !append_assoc. reflexivity.
Qed.

(** X21: the text of an instance that has logged steps lists them in
    their order, separated by a comma and a space, between the brackets,
    with no comma after the last one; an instance without steps prints
    its class name only. *)
Theorem repr_lists_the_steps :
  forall (cls_name : string) (s : attrs),
    (steps s <> [] ->
     __repr__ cls_name s
     = "<" ++ cls_name ++ ":  steps: [" ++ String.concat ", " (steps s) ++ "]>")
    /\ (steps s = [] -> __repr__ cls_name s = "<" ++ cls_name ++ ": >").
Proof.
  intros cls_name s. unfold __repr__. split.
  - intros Hne.
    destruct (steps s) as [|x l] eqn:Hs; [contradiction|].
    cbn [length Nat.ltb Nat.leb].
    rewrite steps_appended by discriminate.
    rewrite trim_trailing_comma.
    cbn [append]. rewrite !append_assoc. cbn [append]. reflexivity.
  - intros ->. cbn [length Nat.ltb Nat.leb].
    cbn [append]. rewrite append_assoc. reflexivity.
Qed.

(** The text after the run of the exposure with two slits. *)
Lemma repr_lists_the_steps_witness :
  __repr__ "WaveTilts" (attrs_of (TwoSlits.run_two [1; 0]%Z (PyFloat 10) (Some [true; false])))
  = "<WaveTilts:  steps: [_extract_arcs, _analyze_lines, _fit_tilts]>"
  /\ __repr__ "WaveTilts" (init 2) = "<WaveTilts: >".
Proof.
  split.
  - rewrite (proj1 (repr_lists_the_steps "WaveTilts"
                      (attrs_of (TwoSlits.run_two [1; 0]%Z (PyFloat 10)
                                   (Some [true; false]))))).
    + vm_compute. reflexivity.
    + vm_compute. discriminate.
  - apply (proj2 (repr_lists_the_steps "WaveTilts" (init 2))). reflexivity.
Defined.
End ReprFacts.

(** * What [run] assembles *)

Module AssemblyFacts.
Import WaveTilts.

Lemma nth_error_set_at_same {A} (a : list A) (i : nat) (v : A) :
  (i < length a)%nat -> nth_error (set_at a i v) i = Some v.
Proof.
  revert i. induction a as [|x a IH]; intros [|i] H; cbn in *; try lia; [reflexivity|].
  apply IH. lia.
Qed.

Lemma In_bool_index {A} (a : list A) (m : list bool) (x : A) :
  In x (bool_index a m) -> In x a.
Proof.
  revert m. induction a as [|y a IH]; intros [|b m] H; cbn in *; try contradiction.
  destruct b; [destruct H as [H | H]|]; eauto.
Qed.

Lemma NoDup_bool_index {A} (a : list A) (m : list bool) :
  NoDup a -> NoDup (bool_index a m).
Proof.
  revert m. induction a as [|y a IH]; intros [|b m] H; cbn; try constructor.
  inversion H as [|? ? Hy Ha]; subst.
  destruct b; [constructor|]; auto.
  intros Hin. apply Hy. eapply In_bool_index. exact Hin.
Qed.

Lemma NoDup_where_unmasked (m : list bool) : NoDup (where_unmasked m).
Proof. unfold where_unmasked, arange. apply NoDup_bool_index, seq_NoDup. Qed.

(** ** Broadcasting into a plane of coefficients *)

Lemma broadcast_rows_same (ncol : nat) (rows acc : image Q) :
  Forall (fun row => length row = ncol) rows ->
  rfold (fun acc row => let! r := broadcast_row ncol row in Ok (acc ++ [r]))%res rows acc
  = Ok (acc ++ rows).
Proof.
  intros H. revert acc. induction H as [|row rows Hrow _ IH]; intros acc; cbn.
  - rewrite app_nil_r. reflexivity.
  - unfold broadcast_row at 1. rewrite Hrow, Nat.eqb_refl. cbn.
    rewrite IH, <- app_assoc. reflexivity.
Qed.

(** An array of the shape of the plane is stored as it is. *)
Lemma broadcast_to_same_shape (dst src : image Q) :
  length src = shape0 dst ->
  Forall (fun row => length row = shape1 dst) src ->
  broadcast_to dst src = Ok src.
Proof.
  intros Hlen Hrows. unfold broadcast_to. rewrite Hlen, Nat.eqb_refl. cbn.
  apply (broadcast_rows_same (shape1 dst) src [] Hrows).
Qed.

(** One row, one column and one number are repeated; other shapes are
    refused. *)
Lemma broadcast_to_samples :
  broadcast_to [[0; 0; 0]; [0; 0; 0]] [[1; 2; 3]] = Ok [[1; 2; 3]; [1; 2; 3]]
  /\ broadcast_to [[0; 0; 0]; [0; 0; 0]] [[1]; [2]] = Ok [[1; 1; 1]; [2; 2; 2]]
  /\ broadcast_to [[0; 0; 0]; [0; 0; 0]] [[7]] = Ok [[7; 7; 7]; [7; 7; 7]]
  /\ broadcast_to [[0; 0; 0]; [0; 0; 0]] [[1; 2]; [3; 4]] = Raise ValueError
  /\ broadcast_to [[0; 0; 0]; [0; 0; 0]] [[1; 2; 3]; [1; 2; 3]; [1; 2; 3]]
     = Raise ValueError.
Proof. repeat split. Qed.

(** A fit that gives one row of coefficients: [run] returns, and the
    plane of the slit holds the row three times. *)
Lemma run_broadcasts_one_row :
  exists (v : list pyobj) (s' : attrs),
    run (Sample.with_coeffs (Sample.collab Sample.faint_peak [0%Z] true) [[1; 2; 3]])
        (Sample.par_of "spca" (PyFloat 10)) Sample.msarc None (Some Sample.slits)
        (Some 1%Z) Sample.detector None true (@None unit) false (init 1)
    = Returns v s'
    /\ coeffs s' = Some [[[1; 2; 3]; [1; 2; 3]; [1; 2; 3]]].
Proof. do 2 eexists. split; vm_compute; reflexivity. Qed.

Section Assembly.
Variable E : collaborators.
Variable wv_calib_t : Type.
Variable par : WaveTiltsPar.
Variable msarc : image Q.
Variable bpm : option (image Q).
Variable tslits_dict : option tslits.
Variable det : option Z.
Variable detector : list detector_par.

Local Abbreviation run_ := (@run E wv_calib_t par msarc bpm tslits_dict det detector).
Local Abbreviation slit_ := (@run_slit E wv_calib_t par msarc tslits_dict det detector).
Local Abbreviation trace_ := (@_trace_tilts E wv_calib_t par msarc tslits_dict det detector).
Local Abbreviation fit_of := (slit_fit E par msarc tslits_dict).

(** A turn of the loop that returns has stored what the analysis and
    the fit give for the slit. *)
Lemma run_slit_value doqa wv slit s u s' :
  slit_ doqa wv slit s = Returns u s' ->
  exists tilt cfp sm ft ft' cf,
    fit_of doqa slit (all_trcdict s) = Ok (tilt, cfp)
    /\ slitmask s = Some sm /\ final_tilts s = Some ft
    /\ masked_store ft (equals_slit sm slit) tilt = Ok ft'
    /\ final_tilts s' = Some ft'
    /\ coeffs s = Some cf /\ (slit < length cf)%nat
    /\ exists plane,
         broadcast_to (nth slit cf []) cfp = Ok plane
         /\ coeffs s' = Some (set_at cf slit plane).
Proof.
  unfold run_slit. unfold bind at 1.
  pose proof (RunInvariants.trace_tilts_keeps_attrs E wv_calib_t par msarc tslits_dict
                det detector slit wv s) as Ht.
  destruct (trace_ slit wv s) as [r0 s0 | e0 s0]; [|discriminate].
  cbn [attrs_of] in Ht. subst s0.
  cbv beta iota zeta delta [_analyze_lines _fit_tilts bind lift get assign ret append_step].
  intros H. case_res H; try discriminate.
  inversion H; subst s'; clear H.
  cbn [all_ttilts set_steps set_analysis set_badlines set_fit set_tilts set_coeffs
       set_final_tilts coeffs slitmask final_tilts fst snd] in *.
  unfold py_setitem in E3.
  destruct (Nat.ltb_spec slit (length (all_ttilts s))) as [Hlt|]; [|discriminate].
  inversion E3; subst a2; clear E3.
  rewrite VectorFacts.py_index_of_nat, nth_error_set_at_same in E4 by exact Hlt.
  inversion E4; subst a3; clear E4.
  destruct (coeffs s) as [cf|]; [|discriminate]. inversion E6; subst a5; clear E6.
  destruct (slitmask s) as [sm|]; [|discriminate]. inversion E9; subst a8; clear E9.
  destruct (final_tilts s) as [ft|]; [|discriminate].
  rewrite VectorFacts.py_index_of_nat in E7.
  destruct (nth_error cf slit) as [plane0|] eqn:Hplane; [|discriminate].
  inversion E7; subst a6; clear E7.
  apply (nth_error_nth _ _ []) in Hplane.
  unfold rbind in E8.
  destruct (broadcast_to plane0 (snd (fst a4))) as [plane|] eqn:Hb; [|discriminate].
  unfold py_setitem in E8.
  destruct (Nat.ltb_spec slit (length cf)) as [Hcf|]; [|discriminate].
  inversion E8; subst a7; clear E8.
  exists (fst (fst a4)), (snd (fst a4)), sm, ft, a9, cf.
  split.
  { unfold slit_fit, rbind. rewrite E0, E1, E2, E5. destruct (fst a4); reflexivity. }
  do 6 (split; [first [reflexivity | assumption] |]).
  subst plane0. exists plane. split; [exact Hb | reflexivity].
Qed.

(** The loop over the slits: every slit it went through has its
    fitted tilts under its pixels and its coefficients in its plane. *)
Lemma for_each_values doqa wv slits s u s' sm ft cf :
  NoDup slits ->
  for_each slits (slit_ doqa wv) s = Returns u s' ->
  slitmask s = Some sm -> final_tilts s = Some ft -> coeffs s = Some cf ->
  exists ft' cf',
    final_tilts s' = Some ft' /\ coeffs s' = Some cf'
    /\ forall slit, In slit slits ->
          exists tilt cfp,
            fit_of doqa slit (all_trcdict s) = Ok (tilt, cfp)
            /\ (forall r c, nth c (nth r sm []) (-1)%Z = Z.of_nat slit ->
                            nth c (nth r ft' []) 0 = nth c (nth r tilt []) 0)
            /\ broadcast_to (nth slit cf []) cfp = Ok (nth slit cf' []).
Proof.
  intros Hnd. revert s ft cf.
  induction Hnd as [|slit0 slits Hfresh Hnd IH]; intros s ft cf H Hsm Hft Hcf.
  - cbn in H. inversion H; subst s'. exists ft, cf.
    split; [exact Hft|]. split; [exact Hcf|]. intros slit [].
  - cbn [for_each] in H. unfold bind in H.
    destruct (slit_ doqa wv slit0 s) as [u1 s1 | e s1] eqn:Hslit; [|discriminate].
    destruct (RunInvariants.run_slit_returns _ _ _ _ _ _ _ _ _ _ _ _ _ Hslit)
      as (_ & Hsm1 & _ & Hd1 & _).
    apply run_slit_value in Hslit
      as (tilt0 & cfp0 & sm0 & ft0 & ft1 & cf0 & Hfit0 & Hsm0 & Hft0 & Hstore & Hft1
          & Hcf0 & Hlt & plane0 & Hplane0 & Hcf1).
    rewrite Hsm in Hsm0. inversion Hsm0; subst sm0.
    rewrite Hft in Hft0. inversion Hft0; subst ft0.
    rewrite Hcf in Hcf0. inversion Hcf0; subst cf0.
    assert (Hsm1' : slitmask s1 = Some sm) by (rewrite Hsm1; exact Hsm).
    destruct (IH s1 ft1 (set_at cf slit0 plane0) H Hsm1' Hft1 Hcf1)
      as (ft' & cf' & Hft' & Hcf' & Hall).
    destruct (RunInvariants.for_each_returns _ _ _ _ _ _ _ _ _ _ _ _ _ H)
      as (_ & Hpix & Hco).
    destruct (Hpix sm ft1 Hsm1' Hft1) as (ft2 & Hft2 & _ & Hout).
    destruct (Hco _ Hcf1) as (cf2 & Hcf2 & _ & Hother & _).
    rewrite Hft' in Hft2. inversion Hft2; subst ft2.
    rewrite Hcf' in Hcf2. inversion Hcf2; subst cf2.
    exists ft', cf'. split; [exact Hft'|]. split; [exact Hcf'|].
    intros slit Hin.
    destruct (in_dec Nat.eq_dec slit slits) as [Htail | Hnot].
    + destruct (Hall slit Htail) as (tilt & cfp & Hfit & Hp & Hc).
      rewrite Hd1 in Hfit. exists tilt, cfp. repeat split; try assumption.
      rewrite VectorFacts.nth_set_at_other in Hc; [exact Hc|].
      intros Heq. subst slit. contradiction.
    + destruct Hin as [-> | Hin]; [|contradiction].
      exists tilt0, cfp0. split; [exact Hfit0|]. split.
      * intros r c Hrc. rewrite Hout.
        -- rewrite (RunInvariants.masked_store_nth _ _ _ _ r c Hstore).
           rewrite RunInvariants.nth_equals_slit, Hrc, Z.eqb_refl. reflexivity.
        -- rewrite Hrc. intros Hmap. apply in_map_iff in Hmap as (j & Hj & Hjin).
           apply Nat2Z.inj in Hj. subst j. contradiction.
      * rewrite Hother by exact Hnot.
        rewrite VectorFacts.nth_set_at_same by exact Hlt. exact Hplane0.
Qed.

(** X22: when [run] returns in a method other than "zero", every slit
    that [self.mask] leaves unmasked has the tilts fitted for it under
    its pixels of the final image and its coefficients in its plane:
    the analysis and the fit succeeded for the slit on the dictionary
    stored for it, each pixel that the slit image gives to the slit
    holds the fitted tilt of that pixel, and [coeffs[slit]] is the
    fitted array of coefficients as numpy broadcasts it to the
    allocated plane of [order + 2] rows and [yorder + 1] columns: the
    fitted array itself when it has this shape, and its rows or columns
    repeated when it has one row or one column. *)
Theorem run_assembles_the_fits maskslits doqa wv gen s v s' :
  lower (par_method par) <> "zero"%string ->
  run_ maskslits doqa wv gen s = Returns v s' ->
  exists sm m ft cf,
    slitmask s' = Some sm /\ mask s' = Some m
    /\ final_tilts s' = Some ft /\ coeffs s' = Some cf
    /\ forall slit, In slit (where_unmasked m) ->
          exists tilt cfp,
            fit_of doqa slit (all_trcdict s) = Ok (tilt, cfp)
            /\ (forall r c, nth c (nth r sm []) (-1)%Z = Z.of_nat slit ->
                            nth c (nth r ft []) 0 = nth c (nth r tilt []) 0)
            /\ broadcast_to (repeat (repeat 0 (Z.to_nat (par_yorder par + 1)))
                                    (Z.to_nat (par_order par + 2))) cfp
               = Ok (nth slit cf []).
Proof.
  intros Hz H.
  destruct (RunInvariants.run_returns_inv _ _ _ _ _ _ _ _ _ _ _ _ _ _ _ Hz H)
    as (ts & sm & cen & am & m & cf0 & u & s2 & Hr & Hloop & _ & Hsm & Hm & _ & Hft & Hcf
        & _).
  pose proof (RunInvariants.for_each_frame E wv_calib_t par msarc tslits_dict det
                detector doqa wv (where_unmasked m)
                (after_setup msarc sm cen am m cf0 s)) as Hframe.
  rewrite Hloop in Hframe. cbn [attrs_of] in Hframe.
  destruct Hframe as (Hsm2 & Hm2 & _).
  destruct (for_each_values doqa wv _ _ _ _ sm (zeros_like msarc) cf0
              (NoDup_where_unmasked m) Hloop eq_refl eq_refl eq_refl)
    as (ft & cf & Hft2 & Hcf2 & Hall).
  destruct (RunInvariants.for_each_returns _ _ _ _ _ _ _ _ _ _ _ _ _ Hloop)
    as (_ & _ & Hco).
  destruct (Hco cf0 eq_refl) as (cf' & _ & _ & _ & Hbound).
  exists sm, m, ft, cf.
  split; [rewrite Hsm, Hsm2; reflexivity|].
  split; [rewrite Hm, Hm2; reflexivity|].
  split; [rewrite Hft; exact Hft2|].
  split; [rewrite Hcf; exact Hcf2|].
  intros slit Hin. destruct (Hall slit Hin) as (tilt & cfp & Hfit & Hp & Hc).
  exists tilt, cfp. split; [exact Hfit|]. split; [exact Hp|].
  destruct Hr as (_ & _ & _ & _ & Hz3).
  apply RunInvariants.zeros3_planes in Hz3.
  specialize (Hbound slit Hin). subst cf0. rewrite repeat_length in Hbound.
  rewrite nth_repeat_lt in Hc by exact Hbound. exact Hc.
Qed.
End Assembly.

(** The exposure with two slits, the first one masked by the caller and
    by the extraction: the second slit holds its fitted tilts, 1.5. *)
Lemma run_assembles_the_fits_witness :
  lower "spca" <> "zero"%string
  /\ exists sm m ft cf,
       slitmask (attrs_of (TwoSlits.run_two [1; 0]%Z (PyFloat 10) (Some [true; false])))
       = Some sm
       /\ mask (attrs_of (TwoSlits.run_two [1; 0]%Z (PyFloat 10) (Some [true; false])))
          = Some m
       /\ final_tilts (attrs_of (TwoSlits.run_two [1; 0]%Z (PyFloat 10)
                                   (Some [true; false])))
          = Some ft
       /\ coeffs (attrs_of (TwoSlits.run_two [1; 0]%Z (PyFloat 10) (Some [true; false])))
          = Some cf
       /\ forall slit, In slit (where_unmasked m) ->
             exists tilt cfp,
               slit_fit (TwoSlits.collab [1; 0]%Z) (Sample.par_of "spca" (PyFloat 10))
                 Sample.msarc (Some TwoSlits.slits) true slit (all_trcdict (init 2))
               = Ok (tilt, cfp)
               /\ (forall r c, nth c (nth r sm []) (-1)%Z = Z.of_nat slit ->
                               nth c (nth r ft []) 0 = nth c (nth r tilt []) 0)
               /\ broadcast_to (repeat (repeat 0 (Z.to_nat (2 + 1))) (Z.to_nat (1 + 2))) cfp
                  = Ok (nth slit cf []).
Proof.
  split; [exact RunSamples.spca_is_not_zero|].
  eapply (run_assembles_the_fits (TwoSlits.collab [1; 0]%Z) unit
            (Sample.par_of "spca" (PyFloat 10)) Sample.msarc None (Some TwoSlits.slits)
            (Some 1%Z) Sample.detector (Some [true; false]) true None false (init 2)).
  - exact RunSamples.spca_is_not_zero.
  - vm_compute. reflexivity.
Defined.
End AssemblyFacts.
